(** * Beam analysis (js/beam-analysis.js, js/analysis-plotter.js): a shallow embedding
    and its properties

    The library computes sampled deflection, bending-moment and shear-force
    curves of a uniformly loaded beam, for a simply supported span and for
    two unequal continuous spans, behind a facade that dispatches on a
    condition name.

    JavaScript numbers are IEEE-754 binary64 values.  The program text is
    translated once, over an interface [JSNumber] of the arithmetic it uses,
    and read in two number systems:

    - [Binary64]: Rocq's primitive floats, the arithmetic the program really
      runs with (rounding after every operation, NaN, signed zeros);
    - [Exact]: the rationals [Q], the arithmetic of the formulas on paper.

    Statements proved for every number system hold in both.  *)

From Stdlib Require Import ZArith QArith Qround Qabs Qpower Bool List String Lia Lqa.
From Stdlib Require Import Sorted.
From Stdlib Require Import Floats.
Import ListNotations.

Set Implicit Arguments.

(** ** The arithmetic of the program *)

Declare Scope js_scope.
Delimit Scope js_scope with js.

(** What the source does with numbers: literals, the four operations, unary
    minus, [Math.pow] with the literal exponents 2 and 3, the comparisons
    [<], [<=] and [===], and [parseFloat(v.toFixed(1))]. *)
Class JSNumber (num : Type) : Type := {
  lit : Q -> num;
  add : num -> num -> num;
  sub : num -> num -> num;
  mul : num -> num -> num;
  div : num -> num -> num;
  neg : num -> num;
  pow : num -> positive -> num;
  ltb : num -> num -> bool;
  leb : num -> num -> bool;
  seqb : num -> num -> bool;
  toFixed1 : num -> num
}.

Arguments lit {num _} _%_Q.

Infix "+" := add : js_scope.
Infix "-" := sub : js_scope.
Infix "*" := mul : js_scope.
Infix "/" := div : js_scope.
Notation "- a" := (neg a) : js_scope.
Notation "a ^ n" := (pow a n%positive) : js_scope.
Infix "<?" := ltb (at level 70) : js_scope.
Infix "<=?" := leb (at level 70) : js_scope.
Infix "===" := seqb (at level 70) : js_scope.

(** ** The laws of comparison and sign that the proofs use

    Both number systems satisfy them.  The laws of an ordered field are not
    among them: in binary64 [a < a + b] fails for a tiny positive [b], and
    [NaN] is not [===] to itself. *)

Class JSNumberLaws (num : Type) `{JSNumber num} : Prop := {
  ltb_irrefl : forall a, (a <? a)%js = false;
  ltb_asym : forall a b, (a <? b)%js = true -> (b <? a)%js = false;
  ltb_trans : forall a b c,
      (a <? b)%js = true -> (b <? c)%js = true -> (a <? c)%js = true;
  ltb_seqb : forall a b,
      (a <? b)%js = true -> (a === b)%js = false /\ (b === a)%js = false;
  ltb_number : forall a b,
      (a <? b)%js = true -> (a === a)%js = true /\ (b === b)%js = true;
  add_number : forall a b,
      (lit 0 <? a)%js = true -> (lit 0 <? b)%js = true ->
      (a + b === a + b)%js = true;
  mul_neg_one : forall a, (a * - lit 1)%js = (- a)%js
}.

Arguments JSNumberLaws num {_}.

(** ** Data types *)

Section DataTypes.
Variable num : Type.

(** [properties]: the two entries of the property bag that the analyzers
    read, [EI] and [j2]. *)
Record Properties : Type := { EI : num; j2 : num }.

Record Material : Type := { name : string; properties : Properties }.

Record Beam : Type := {
  primarySpan : num;
  secondarySpan : num;
  material : Material
}.

(** The value [{ x: xValues, y: vValues }] of the equation methods. *)
Record Equation : Type := { x : list num; y : list num }.

(** The value [{ beam, load, equation }] of the facade. *)
Record Result : Type := { beam : Beam; load : num; equation : Equation }.

(** The value [{ M1, R1, R2, R3 }] of [calculateSupports]. *)
Record Supports : Type := { M1 : num; R1 : num; R2 : num; R3 : num }.
End DataTypes.

Arguments Build_Equation {num} _ _.
Arguments Build_Result {num} _ _ _.

(** ** The sampling loop

    [for (let i = 0; i <= limit; i += step) {
       const x = parseFloat(i.toFixed(1)); xValues.push(x);
       const V = ...; vValues.push(<rounded V>); }]

    [sample x] is the value pushed on [vValues] for the rounded position [x].
    The loop need not end (a zero step never passes the limit), so it runs on
    fuel: [None] says the fuel ran out before the loop did. *)

Section Loop.
Context {num : Type} `{JSNumber num}.
Local Open Scope js_scope.

Fixpoint forLoop (fuel : nat) (sample : num -> num) (limit step i : num)
         (xValues vValues : list num) : option (Equation num) :=
  match fuel with
  | O => None
  | S fuel' =>
      if i <=? limit then
        let x := toFixed1 i in
        forLoop fuel' sample limit step (i + step)
                (xValues ++ [x]) (vValues ++ [sample x])
      else Some {| x := xValues; y := vValues |}
  end.

(** The values the loop variable takes: [i], [i + step], [(i + step) + step], ... *)
Fixpoint position (j : nat) (i step : num) : num :=
  match j with
  | O => i
  | S j' => position j' (i + step) step
  end.

Fixpoint positions (k : nat) (i step : num) : list num :=
  match k with
  | O => []
  | S k' => i :: positions k' (i + step) step
  end.
End Loop.

(** ** BeamAnalysis.analyzer.simplySupported *)

Module simplySupported.
Section Methods.
Context {num : Type} `{JSNumber num}.
Local Open Scope js_scope.

Definition getDeflectionEquation (fuel : nat) (beam : Beam num) (load : num)
  : option (Equation num) :=
  let primarySpan := primarySpan beam in
  let EI := EI (properties (material beam)) in
  let j2 := j2 (properties (material beam)) in
  let step := primarySpan / lit 8 in
  forLoop fuel
    (fun x =>
       let V := - ((load * x) / (lit 24 * EI))
                * (primarySpan ^ 3 - lit 2 * primarySpan * x ^ 2 + x ^ 3)
                * j2 * lit 1000 in
       toFixed1 (V * lit 1e9))
    primarySpan step (lit 0) [] [].

Definition getBendingMomentEquation (fuel : nat) (beam : Beam num) (load : num)
  : option (Equation num) :=
  let primarySpan := primarySpan beam in
  let step := primarySpan / lit 10 in
  forLoop fuel
    (fun x =>
       let V := (load * x / lit 2) * (primarySpan - x) * - lit 1 in
       toFixed1 V)
    primarySpan step (lit 0) [] [].

Definition getShearForceEquation (fuel : nat) (beam : Beam num) (load : num)
  : option (Equation num) :=
  let primarySpan := primarySpan beam in
  let step := primarySpan / lit 10 in
  forLoop fuel
    (fun x =>
       let V := load * (primarySpan / lit 2 - x) in
       toFixed1 V)
    primarySpan step (lit 0) [] [].
End Methods.
End simplySupported.

(** ** BeamAnalysis.analyzer.twoSpanUnequal *)

Module twoSpanUnequal.
Section Methods.
Context {num : Type} `{JSNumber num}.
Local Open Scope js_scope.

Definition calculateSupports (primarySpan secondarySpan load : num) : Supports num :=
  let M1 := - ((load * secondarySpan ^ 3) + (load * primarySpan ^ 3))
            / (lit 8 * (primarySpan + secondarySpan)) in
  let R1 := (M1 / primarySpan) + ((load * primarySpan) / lit 2) in
  let R3 := (M1 / secondarySpan) + ((load * secondarySpan) / lit 2) in
  let R2 := (load * primarySpan) + (load * secondarySpan) - R1 - R3 in
  {| M1 := M1; R1 := R1; R2 := R2; R3 := R3 |}.

(** The second argument of the three evaluators is an object that the
    source takes apart in the parameter list; its fields are the arguments
    after [x] here. *)
Definition calculateDeflectionValue
           (x primarySpan secondarySpan EI j2 R1 R2 R3 load : num) : num :=
  if x <=? primarySpan then
    ((x / (lit 24 * EI))
     * (lit 4 * R1 * x ^ 2 - load * x ^ 3 + load * primarySpan ^ 3
        - lit 4 * R1 * primarySpan ^ 2))
    * j2 * lit 1000
  else
    let span2_x := x - primarySpan in
    (((R1 * x / lit 6) * (x ^ 2 - primarySpan ^ 2)
      + (R2 * span2_x / lit 6)
        * (span2_x ^ 2 - lit 3 * primarySpan * span2_x + lit 3 * primarySpan ^ 2)
      - R2 * primarySpan ^ 3 / lit 6
      - (load * span2_x / lit 24) * (span2_x ^ 3 - secondarySpan ^ 3))
     / EI)
    * j2 * lit 1000.

Definition calculateBendingMomentValue
           (x primarySpan totalLength R1 R2 load : num) : num :=
  if (x === lit 0) || (x === totalLength) then lit 0
  else if x <? primarySpan then - (R1 * x - lit 0.5 * load * x ^ 2)
  else if primarySpan <? x then
    - (R1 * x + R2 * (x - primarySpan) - lit 0.5 * load * x ^ 2)
  else - (R1 * primarySpan - lit 0.5 * load * primarySpan ^ 2).

Definition calculateShearForceValue (x primarySpan R1 R2 load : num) : num :=
  if x <? primarySpan then R1 - load * x
  else if x === primarySpan then R2 - load * x
  else R2 - load * (x - primarySpan).

Definition getDeflectionEquation (fuel : nat) (beam : Beam num) (load : num)
  : option (Equation num) :=
  let primarySpan := primarySpan beam in
  let secondarySpan := secondarySpan beam in
  let EI := EI (properties (material beam)) in
  let j2 := j2 (properties (material beam)) in
  let totalLength := primarySpan + secondarySpan in
  let s := calculateSupports primarySpan secondarySpan load in
  let step := totalLength / lit 1000 in
  forLoop fuel
    (fun x =>
       let V := calculateDeflectionValue x primarySpan secondarySpan EI j2
                                         (R1 s) (R2 s) (R3 s) load in
       toFixed1 (V * lit 1e9))
    totalLength step (lit 0) [] [].

Definition getBendingMomentEquation (fuel : nat) (beam : Beam num) (load : num)
  : option (Equation num) :=
  let primarySpan := primarySpan beam in
  let secondarySpan := secondarySpan beam in
  let totalLength := primarySpan + secondarySpan in
  let s := calculateSupports primarySpan secondarySpan load in
  let step := totalLength / lit 1000 in
  forLoop fuel
    (fun x =>
       let V := calculateBendingMomentValue x primarySpan totalLength
                                            (R1 s) (R2 s) load in
       toFixed1 V)
    totalLength step (lit 0) [] [].

Definition getShearForceEquation (fuel : nat) (beam : Beam num) (load : num)
  : option (Equation num) :=
  let primarySpan := primarySpan beam in
  let secondarySpan := secondarySpan beam in
  let totalLength := primarySpan + secondarySpan in
  let s := calculateSupports primarySpan secondarySpan load in
  let step := totalLength / lit 1000 in
  forLoop fuel
    (fun x =>
       let V := calculateShearForceValue x primarySpan (R1 s) (R2 s) load in
       toFixed1 V)
    totalLength step (lit 0) [] [].
End Methods.
End twoSpanUnequal.

(** ** BeamAnalysis: the facade *)

Module BeamAnalysis.

(** What a call can end with: a value, a thrown error, or no end within
    the fuel. *)
Inductive JSError : Type :=
| Error (message : string)   (* [new Error(message)] *)
| TypeError.                 (* calling a value that is not a function *)

Inductive Completion (A : Type) : Type :=
| Return (a : A)
| Throw (e : JSError)
| OutOfFuel.

Arguments Return {A} a.
Arguments Throw {A} e.
Arguments OutOfFuel {A}.

Section Facade.
Context {num : Type} `{JSNumber num}.

(** An analyzer instance: an object whose prototype holds the three
    equation methods. *)
Record Analyzer : Type := {
  getDeflectionEquation : nat -> Beam num -> num -> option (Equation num);
  getBendingMomentEquation : nat -> Beam num -> num -> option (Equation num);
  getShearForceEquation : nat -> Beam num -> num -> option (Equation num)
}.

Definition new_simplySupported : Analyzer :=
  {| getDeflectionEquation := simplySupported.getDeflectionEquation;
     getBendingMomentEquation := simplySupported.getBendingMomentEquation;
     getShearForceEquation := simplySupported.getShearForceEquation |}.

Definition new_twoSpanUnequal : Analyzer :=
  {| getDeflectionEquation := twoSpanUnequal.getDeflectionEquation;
     getBendingMomentEquation := twoSpanUnequal.getBendingMomentEquation;
     getShearForceEquation := twoSpanUnequal.getShearForceEquation |}.

(** The values that reading a property of [this.analyzer] can give. *)
Inductive JSValue : Type :=
| Undefined
| AnalyzerObject (a : Analyzer)
| Inherited (key : string).   (* a member of [Object.prototype] *)

(** [this.analyzer], as the constructor builds it: an object literal with
    two own properties.  Its prototype is [Object.prototype].  (The
    constructor also sets [this.options], which nothing reads.) *)
Definition analyzer : list (string * JSValue) :=
  [ ("simply-supported"%string, AnalyzerObject new_simplySupported);
    ("two-span-unequal"%string, AnalyzerObject new_twoSpanUnequal) ].

(** The property names of [Object.prototype] (ECMAScript, 20.1.3 and B.2.2):
    eleven functions and the accessor [__proto__], whose value here is
    [Object.prototype] itself. *)
Definition ObjectPrototype : list string :=
  [ "constructor"; "hasOwnProperty"; "isPrototypeOf"; "propertyIsEnumerable";
    "toLocaleString"; "toString"; "valueOf"; "__proto__";
    "__defineGetter__"; "__defineSetter__"; "__lookupGetter__";
    "__lookupSetter__" ]%string.

(** [object[key]]: the own property if there is one, else the inherited
    one, else [undefined]. *)
Definition get (object : list (string * JSValue)) (key : string) : JSValue :=
  match find (fun p => String.eqb (fst p) key) object with
  | Some p => snd p
  | None =>
      if existsb (String.eqb key) ObjectPrototype then Inherited key
      else Undefined
  end.

(** [if (value)]: objects and functions are truthy, [undefined] is not. *)
Definition truthy (value : JSValue) : bool :=
  match value with
  | Undefined => false
  | _ => true
  end.

(** [value.method(beam, load)].  The members of [Object.prototype] have no
    equation method: the property read gives [undefined], and calling it
    throws a TypeError. *)
Definition call (value : JSValue)
           (method : Analyzer -> nat -> Beam num -> num -> option (Equation num))
           (fuel : nat) (beam : Beam num) (load : num)
  : Completion (Equation num) :=
  match value with
  | AnalyzerObject a =>
      match method a fuel beam load with
      | Some equation => Return equation
      | None => OutOfFuel
      end
  | _ => Throw TypeError
  end.

Definition dispatch
           (method : Analyzer -> nat -> Beam num -> num -> option (Equation num))
           (fuel : nat) (beam : Beam num) (load : num) (condition : string)
  : Completion (Result num) :=
  let analyzer := get analyzer condition in
  if truthy analyzer then
    match call analyzer method fuel beam load with
    | Return equation =>
        Return {| beam := beam; load := load; equation := equation |}
    | Throw e => Throw e
    | OutOfFuel => OutOfFuel
    end
  else Throw (Error "Invalid condition").

(** The three operations have the same body up to the method called. *)
Definition getDeflection := dispatch getDeflectionEquation.
Definition getBendingMoment := dispatch getBendingMomentEquation.
Definition getShearForce := dispatch getShearForceEquation.
End Facade.
End BeamAnalysis.

(** ** Exact arithmetic: the rationals *)

Module Exact.
Local Open Scope Q_scope.

(** [v.toFixed(1)] takes the integer [n] for which [n / 10] is closest to
    [|v|], the larger one on a tie, and keeps the sign; from [10^21] on it
    prints the number itself.  The result is kept in lowest terms, so that
    equal numbers are rounded to the same term. *)
Definition tenths (v : Q) : Z := Qfloor (v * 10 + (1 # 2)).

Definition Q_toFixed1 (v : Q) : Q :=
  if Qle_bool (10 ^ 21) (Qabs v) then Qred v
  else if Qle_bool 0 v then Qred (tenths v # 10)
  else Qred (- (tenths (- v) # 10)).

#[export] Instance Q_JSNumber : JSNumber Q := {|
  lit q := q;
  add := Qplus;
  sub := Qminus;
  mul := Qmult;
  div := Qdiv;
  neg := Qopp;
  pow := Qpower_positive;
  ltb a b := negb (Qle_bool b a);
  leb := Qle_bool;
  seqb := Qeq_bool;
  toFixed1 := Q_toFixed1
|}.
End Exact.

(** ** Binary64 arithmetic: the primitive floats *)

Module Binary64.
Local Open Scope Z_scope.

Definition Z2SF (z : Z) : spec_float :=
  match z with
  | Z0 => S754_zero false
  | Zpos p => S754_finite false p 0
  | Zneg p => S754_finite true p 0
  end.

(** A decimal literal denotes the binary64 value nearest to it. *)
Definition float_lit (q : Q) : float :=
  SF2Prim (SFdiv prec emax (Z2SF (Qnum q)) (Z2SF (Zpos (Qden q)))).

Definition odd (n : positive) : bool :=
  match n with xO _ => false | _ => true end.

(** [Math.pow(a, n)] for a positive integer [n].  ECMAScript leaves the
    accuracy of the result to the implementation; this is the correctly
    rounded power, which is the exact one whenever that is a binary64
    value. *)
Definition float_pow (a : float) (n : positive) : float :=
  match Prim2SF a with
  | S754_finite s m e =>
      SF2Prim (binary_normalize prec emax
                 (cond_Zopp (s && odd n) (Zpos (m ^ n))) (Zpos n * e) false)
  | S754_zero s => SF2Prim (S754_zero (s && odd n))
  | S754_infinity s => SF2Prim (S754_infinity (s && odd n))
  | S754_nan => nan
  end.

(** [tenths m e] is the integer [n] for which [n / 10] is closest to
    [m * 2^e], the larger one on a tie. *)
Definition tenths (m : positive) (e : Z) : Z :=
  match e with
  | Zneg p => (20 * Zpos m + 2 ^ Zpos p) / 2 ^ (Zpos p + 1)
  | _ => 10 * Zpos m * 2 ^ e
  end.

(** [parseFloat(v.toFixed(1))].  [toFixed] works on the exact value of
    [v]: it prints non-finite numbers and those from [10^21] on as they
    are, [-0] as ["0.0"], and otherwise the sign and [n / 10] in decimal;
    [parseFloat] gives the binary64 value nearest to what it reads. *)
Definition float_toFixed1 (v : float) : float :=
  match Prim2SF v with
  | S754_finite s m e =>
      let n := tenths m e in
      if 10 ^ 22 <=? n then v
      else match n with
           | Zpos p => SF2Prim (SFdiv prec emax (S754_finite s p 0) (Z2SF 10))
           | _ => SF2Prim (S754_zero s)
           end
  | S754_zero _ => PrimFloat.zero
  | _ => v
  end.

#[export] Instance float_JSNumber : JSNumber float := {|
  lit := float_lit;
  add := PrimFloat.add;
  sub := PrimFloat.sub;
  mul := PrimFloat.mul;
  div := PrimFloat.div;
  neg := PrimFloat.opp;
  pow := float_pow;
  ltb := PrimFloat.ltb;
  leb := PrimFloat.leb;
  seqb := PrimFloat.eqb;
  toFixed1 := float_toFixed1
|}.
End Binary64.

(** ** The beams of the examples *)

Section Examples.
Context {num : Type} `{JSNumber num}.

(** The material of the worked examples: [EI = 210000000], [j2 = 1]. *)
Definition scenario_material : Material num :=
  {| name := "scenario"; properties := {| EI := lit 210000000; j2 := lit 1 |} |}.

Definition scenario_beam (primarySpan secondarySpan : Q) : Beam num :=
  {| primarySpan := lit primarySpan;
     secondarySpan := lit secondarySpan;
     material := scenario_material |}.
End Examples.

(** ** What the theorems say of a returned equation *)

Section Recorded.
Context {num : Type} `{JSNumber num}.

(** The positions of [eq] are rounded numbers, and each value is [sample]
    at the position recorded with it. *)
Definition recorded_at_rounded (sample : num -> num) (eq : Equation num) : Prop :=
  Forall (fun p => exists i, p = toFixed1 i) (x eq)
  /\ y eq = map sample (x eq).

(** No entry of [l] is followed by one that is not [>=] it. *)
Fixpoint ascendingb (l : list num) : bool :=
  match l with
  | a :: (b :: _) as l' => leb a b && ascendingb l'
  | _ => true
  end.

(** The first two samples of [eq] have the same position and the same
    value. *)
Definition first_two_coincide (eq : Equation num) : Prop :=
  nth 0 (x eq) (lit 0) = nth 1 (x eq) (lit 0)
  /\ nth 0 (y eq) (lit 0) = nth 1 (y eq) (lit 0).

(** The run [r] has ended, with [n] positions and [n] values. *)
Definition returns_samples (n : nat) (r : option (Equation num)) : Prop :=
  exists eq, r = Some eq /\ List.length (x eq) = n /\ List.length (y eq) = n.
End Recorded.

Section RecordedExact.
Import Exact.

(** What the positions of a returned equation are, with exact arithmetic,
    for a beam of total length [T]: they never decrease, the first is 0,
    and the last is [T] rounded to one decimal, so within 0.05 of [T]. *)
Definition rounded_ascending (T : Q) (r : option (Equation Q)) : Prop :=
  exists eq,
    r = Some eq
    /\ Sorted Qle (x eq)
    /\ hd 0%Q (x eq) = 0%Q
    /\ last (x eq) 0%Q = Q_toFixed1 T
    /\ (T - (1 # 20) <= last (x eq) 0 /\ last (x eq) 0 <= T + (1 # 20))%Q.

(** The run [r] has ended, with at least two samples, the first two of
    which coincide. *)
Definition repeats_at_start (r : option (Equation Q)) : Prop :=
  exists eq,
    r = Some eq /\ (1 < List.length (x eq))%nat /\ first_two_coincide eq.
End RecordedExact.

(** ** What the theorems say of the methods of an analyzer *)

Section RecordedAnalyzers.
Context {num : Type} `{JSNumber num}.
Import BeamAnalysis.

(** The results of the three equation methods of an analyzer. *)
Definition equations (a : Analyzer) (fuel : nat) (beam : Beam num) (load : num)
  : list (option (Equation num)) :=
  [ getDeflectionEquation a fuel beam load;
    getBendingMomentEquation a fuel beam load;
    getShearForceEquation a fuel beam load ].

(** A run that has ended has a first sample, at position 0. *)
Definition starts_at_zero (r : option (Equation num)) : Prop :=
  forall eq, r = Some eq -> exists xs, x eq = lit 0 :: xs.
End RecordedAnalyzers.

Section RecordedSpacing.
Import Exact.
Local Open Scope Q_scope.

(** The run [r] has ended with [n + 1] samples, the [j]-th of them at
    [j L / n] rounded to one decimal. *)
Definition sampled_every (n : positive) (L : Q) (r : option (Equation Q)) : Prop :=
  exists eq,
    r = Some eq
    /\ List.length (x eq) = S (Pos.to_nat n)
    /\ forall j, (j <= Pos.to_nat n)%nat ->
                 nth j (x eq) 0
                 = Q_toFixed1 (inject_Z (Z.of_nat j) * L / inject_Z (Zpos n)).
End RecordedSpacing.

Section RecordedBinary64.
Import Binary64.

(** [isFinite(a)]: [a] is neither [NaN] nor infinite. *)
Definition isFinite (a : float) : bool :=
  match Prim2SF a with
  | S754_zero _ | S754_finite _ _ _ => true
  | _ => false
  end.

(** [a] is [+0] or [-0]. *)
Definition isZero (a : float) : bool :=
  match Prim2SF a with
  | S754_zero _ => true
  | _ => false
  end.
End RecordedBinary64.

(** ** AnalysisPlotter (js/analysis-plotter.js)

    The plotter talks to the page and to Chart.js.  Its methods are programs
    over those calls; what a call answers is up to the environment, and every
    call is taken to answer. *)

Module AnalysisPlotter.
Import BeamAnalysis.

Section ChartConfiguration.
Variable num : Type.

(** The argument of a segment option of Chart.js: the two end points of a
    line segment, with [skip] and [parsed.y]. *)
Record Point : Type := { skip : bool; parsed_y : num }.

Record SegmentContext : Type := { p0 : Point; p1 : Point }.

(** The configuration object that [drawChart] hands to [new Chart];
    [undefined] is [None]. *)
Record Segment : Type := {
  segment_borderColor : SegmentContext -> option string
}.

Record Dataset : Type := {
  data : list num;
  borderColor : string;
  borderWidth : Z;
  fill : bool;
  pointRadius : Z;
  cubicInterpolationMode : option string;
  segment : option Segment;
  backgroundColor : option string
}.

Record ChartData : Type := { labels : list num; datasets : list Dataset }.

Record Title : Type := { title_display : bool; text : string }.

Record Scale : Type := { title : Title; scale_type : string; grace : option string }.

Record Options : Type := {
  legend_display : bool;
  scales_x : Scale;
  scales_y : Scale;
  responsive : bool;
  maintainAspectRatio : bool
}.

Record Configuration : Type := {
  type : string;
  chart_data : ChartData;
  options : Options
}.
End ChartConfiguration.

Arguments Build_Point {num} _ _.
Arguments Build_SegmentContext {num} _ _.

Section Plotter.
Context {num : Type} `{JSNumber num}.
Local Open Scope string_scope.

(** The objects of the environment that the plotter only passes on: a chart
    of Chart.js, an element of the document, a drawing context. *)
Context {ChartInstance Element Context2D : Type}.

(** The calls to the environment, each with the type of its answer:
    [undefined] and [null] are [None]; [getContext] answers [None] for an
    element without that method; [value] answers [None] for a value that is
    not a string. *)
Inductive Call : Type -> Type :=
| console_log (message : string) (data : Result num) : Call unit
| Chart_getChart (chartId : string) : Call (option ChartInstance)
| destroy (chartInstance : ChartInstance) : Call unit
| document_getElementById (id : string) : Call (option Element)
| getContext (element : Element) (contextId : string) : Call (option Context2D)
| value (element : Element) : Call (option string)
| new_Chart (ctx : Context2D) (config : Configuration num) : Call unit.

(** A method body: it returns, throws, or makes a call and goes on with the
    answer. *)
Inductive Program (A : Type) : Type :=
| Done (a : A)
| Raise (e : JSError)
| Perform (B : Type) (c : Call B) (k : B -> Program A).

Arguments Done {A} a.
Arguments Raise {A} e.
Arguments Perform {A B} c k.

Fixpoint bind {A C : Type} (p : Program A) (f : A -> Program C) : Program C :=
  match p with
  | Done a => f a
  | Raise e => Raise e
  | Perform c k => Perform c (fun b => bind (k b) f)
  end.

Definition perform {B : Type} (c : Call B) : Program B := Perform c Done.

Notation "v <- p ;; q" := (bind p (fun v => q))
  (at level 61, p at next level, right associativity).

(** [a || b] on values that are a string or [undefined]: the empty string
    and [undefined] are falsy. *)
Definition or_else (a b : option string) : option string :=
  match a with
  | Some s => if String.eqb s "" then b else a
  | None => b
  end.

(** [new AnalysisPlotter(container)] *)
Record Plotter : Type := { container : string }.

Definition destroyChart (chartId : string) : Program unit :=
  chartInstance <- perform (Chart_getChart chartId) ;;
  match chartInstance with
  | Some chartInstance => perform (destroy chartInstance)
  | None => Done tt
  end.

(** The two arrow functions of [drawChart]. *)
Definition skipped (ctx : SegmentContext num) (value : string) : option string :=
  if skip (p0 ctx) || skip (p1 ctx) then Some value else None.

Definition down (ctx : SegmentContext num) (value : string) : option string :=
  if ltb (parsed_y (p1 ctx)) (parsed_y (p0 ctx)) then Some value else None.

(** Reading a property of [null], and calling a method that an element
    does not have, throw a TypeError. *)
Definition drawChart (this : Plotter) (x y : list num)
           (xAxisLabel yAxisLabel : string) (interpolationMode : option string)
  : Program unit :=
  canvas <- perform (document_getElementById (container this)) ;;
  match canvas with
  | None => Raise TypeError
  | Some canvas =>
      ctx <- perform (getContext canvas "2d") ;;
      match ctx with
      | None => Raise TypeError
      | Some ctx =>
          select <- perform (document_getElementById "condition") ;;
          match select with
          | None => Raise TypeError
          | Some select =>
              condition <- perform (value select) ;;
              let shear := String.eqb (container this) "shear_force_plot" in
              let segmentOption :=
                if shear
                then Some {| segment_borderColor :=
                               fun ctx => or_else (skipped ctx "rgba(0, 0, 0, 0)")
                                                  (down ctx "red") |}
                else None in
              let borderColor := if shear then "rgba(0, 0, 0, 0)" else "red" in
              let backgroundColor :=
                if String.eqb (container this) "deflection_plot"
                   && match condition with
                      | Some c => String.eqb c "two-span-unequal"
                      | None => false
                      end
                then Some "rgba(0, 0, 0, 0)" else None in
              perform
                (new_Chart ctx
                   {| type := "line";
                      chart_data :=
                        {| labels := x;
                           datasets :=
                             [ {| data := y;
                                  borderColor := borderColor;
                                  borderWidth := 2;
                                  fill := true;
                                  pointRadius := 0;
                                  cubicInterpolationMode :=
                                    or_else interpolationMode (Some "default");
                                  segment := segmentOption;
                                  backgroundColor := backgroundColor |} ] |};
                      options :=
                        {| legend_display := false;
                           scales_x :=
                             {| title := {| title_display := true; text := xAxisLabel |};
                                scale_type := "linear";
                                grace := None |};
                           scales_y :=
                             {| title := {| title_display := true; text := yAxisLabel |};
                                scale_type := "linear";
                                grace := Some "10%" |};
                           responsive := true;
                           maintainAspectRatio := false |} |})
          end
      end
  end.

(** [plot]: the [switch] chooses the labels; its [default] returns before
    anything is drawn. *)
Definition plot (this : Plotter) (data : Result num) : Program unit :=
  _ <- perform (console_log "Plotting data : " data) ;;
  _ <- destroyChart (container this) ;;
  let chosen :=
    if String.eqb (container this) "deflection_plot"
    then Some ("Span (m)", "Deflection (kN)", Some "monotone")
    else if String.eqb (container this) "shear_force_plot"
    then Some ("Span (m)", "Shear Force (kN)", None)
    else if String.eqb (container this) "bending_moment_plot"
    then Some ("Span (m)", "Bending Moment (kNm)", Some "monotone")
    else None in
  match chosen with
  | Some (xAxisLabel, yAxisLabel, interpolationMode) =>
      drawChart this (x (equation data)) (y (equation data))
                xAxisLabel yAxisLabel interpolationMode
  | None => Done tt
  end.

(** *** Running a method in an environment

    [browser] answers each call and moves the environment on.  [run] gives
    how the method ends, the environment it leaves and the calls it has
    made, each with the answer it got. *)
Inductive Event : Type :=
| Called (B : Type) (c : Call B) (answer : B).

Section Run.
Variable World : Type.
Variable browser : forall B : Type, Call B -> World -> B * World.

Fixpoint run {A : Type} (p : Program A) (w : World)
  : Completion A * World * list Event :=
  match p with
  | Done a => (Return a, w, [])
  | Raise e => (Throw e, w, [])
  | Perform c k =>
      let (answer, w') := browser c w in
      let '(r, w'', events) := run (k answer) w' in
      (r, w'', Called c answer :: events)
  end.
End Run.

(** The chart an event has created, the chart it has destroyed, the id it
    has looked up in the document. *)
Definition created (e : Event) : option (Context2D * Configuration num) :=
  match e with
  | Called c _ =>
      match c with
      | new_Chart ctx config => Some (ctx, config)
      | _ => None
      end
  end.

Definition destroyed (e : Event) : option ChartInstance :=
  match e with
  | Called c _ =>
      match c with
      | destroy chartInstance => Some chartInstance
      | _ => None
      end
  end.

Definition looked_up (e : Event) : option string :=
  match e with
  | Called c _ =>
      match c with
      | document_getElementById id => Some id
      | _ => None
      end
  end.

(** The charts that a run has created, the ids it has looked up in the
    document and what the condition field has answered, in order. *)
Definition charts_created (events : list Event)
  : list (Context2D * Configuration num) :=
  flat_map (fun e => match created e with Some c => [c] | None => [] end) events.

Definition lookups (events : list Event) : list string :=
  flat_map (fun e => match looked_up e with Some id => [id] | None => [] end) events.

Definition values_read (events : list Event) : list (option string) :=
  flat_map (fun e => match e with
                     | Called c answer =>
                         match c in Call B return B -> list (option string) with
                         | value _ => fun v => [v]
                         | _ => fun _ => []
                         end answer
                     end) events.

(** The calls that [plot] makes before the [switch]: the log entry and
    what [destroyChart] does when [Chart.getChart] has answered [found]. *)
Definition opening (this : Plotter) (data : Result num) (found : option ChartInstance)
  : list Event :=
  Called (console_log "Plotting data : " data) tt
  :: Called (Chart_getChart (container this)) found
  :: match found with
     | Some chartInstance => [Called (destroy chartInstance) tt]
     | None => []
     end.
End Plotter.

Arguments Call : clear implicits.
Arguments Program : clear implicits.
Arguments Event : clear implicits.
Arguments console_log {num ChartInstance Element Context2D} message data.
Arguments Chart_getChart {num ChartInstance Element Context2D} chartId.
Arguments destroy {num ChartInstance Element Context2D} chartInstance.
Arguments document_getElementById {num ChartInstance Element Context2D} id.
Arguments getContext {num ChartInstance Element Context2D} element contextId.
Arguments value {num ChartInstance Element Context2D} element.
Arguments new_Chart {num ChartInstance Element Context2D} ctx config.

(** *** A page for the examples

    The canvases of the page, the canvases that hold a chart, and the value
    of the condition field if the page has one.  Charts, elements and
    contexts are named by the id of their element. *)
Record Page : Type := {
  canvases : list string;
  charts : list string;
  condition : option string
}.

Definition page_browser {num : Type} (B : Type) (c : Call num string string string B)
           (p : Page) : B * Page :=
  match c in Call _ _ _ _ B return B * Page with
  | console_log _ _ => (tt, p)
  | Chart_getChart chartId =>
      (if existsb (String.eqb chartId) (charts p) then Some chartId else None, p)
  | destroy chartInstance =>
      (tt, {| canvases := canvases p;
              charts := remove string_dec chartInstance (charts p);
              condition := condition p |})
  | document_getElementById id =>
      (if existsb (String.eqb id) (canvases p) then Some id
       else if String.eqb id "condition"%string
            then match condition p with Some _ => Some id | None => None end
            else None, p)
  | getContext element _ =>
      (if existsb (String.eqb element) (canvases p) then Some element else None, p)
  | value element =>
      (if String.eqb element "condition"%string then condition p else None, p)
  | new_Chart ctx _ =>
      (tt, {| canvases := canvases p;
              charts := ctx :: charts p;
              condition := condition p |})
  end.

Definition scenario_page : Page :=
  {| canvases := ["deflection_plot"; "shear_force_plot"; "bending_moment_plot"]%string;
     charts := ["shear_force_plot"]%string;
     condition := Some "simply-supported"%string |}.

(** A result like those of the facade, with three samples. *)
Definition scenario_result {num : Type} `{JSNumber num} : Result num :=
  {| beam := scenario_beam 8 0;
     load := lit 10;
     equation := {| x := [lit 0; lit 4; lit 8]; y := [lit 40; lit 0; lit (-40)] |} |}.
End AnalysisPlotter.

(** ** Facts that hold in every number system *)

Section LoopFacts.
Context {num : Type} `{JSNumber num}.
Local Open Scope js_scope.


Lemma positions_length k : forall i step, List.length (positions k i step) = k.
Proof. induction k as [|k IH]; intros; simpl; [reflexivity | now rewrite IH]. Qed.

(** The loop stops at the first position that is not [<= limit]; a run that
    ends has recorded the positions before it, each rounded, and the sample
    taken at each rounded position. *)
Lemma forLoop_Some fuel sample limit step :
  forall i xValues vValues eq,
    forLoop fuel sample limit step i xValues vValues = Some eq ->
    exists k,
      (k < fuel)%nat
      /\ (forall j, (j < k)%nat -> (position j i step <=? limit) = true)
      /\ (position k i step <=? limit) = false
      /\ x eq = xValues ++ map toFixed1 (positions k i step)
      /\ y eq = vValues ++ map sample (map toFixed1 (positions k i step)).
Proof.
  induction fuel as [|fuel IH]; intros i xs vs eq Hrun; simpl in Hrun; [discriminate|].
  destruct (i <=? limit) eqn:Hle.
  - apply IH in Hrun. destruct Hrun as (k & Hk & Hin & Hout & Hx & Hy).
    exists (S k). repeat split.
    + lia.
    + intros [|j] Hj; simpl; [assumption | apply Hin; lia].
    + assumption.
    + rewrite Hx, <- app_assoc. reflexivity.
    + rewrite Hy, <- app_assoc. reflexivity.
  - injection Hrun as <-. exists O. simpl. rewrite !app_nil_r.
    repeat split; [lia | intros j Hj; lia | assumption].
Qed.

Lemma forLoop_run sample limit step k :
  forall fuel i xValues vValues,
    (k < fuel)%nat ->
    (forall j, (j < k)%nat -> (position j i step <=? limit) = true) ->
    (position k i step <=? limit) = false ->
    forLoop fuel sample limit step i xValues vValues
    = Some {| x := xValues ++ map toFixed1 (positions k i step);
              y := vValues ++ map sample (map toFixed1 (positions k i step)) |}.
Proof.
  induction k as [|k IH]; intros fuel i xs vs Hfuel Hin Hout;
    (destruct fuel as [|fuel]; [lia|]); simpl.
  - simpl in Hout. rewrite Hout, !app_nil_r. reflexivity.
  - assert (H0 : (i <=? limit) = true) by (apply (Hin O); lia).
    rewrite H0, IH.
    + rewrite <- !app_assoc. reflexivity.
    + lia.
    + intros j Hj. apply (Hin (S j)). lia.
    + exact Hout.
Qed.

(** Every recorded value is the sample taken at the recorded position. *)
Lemma forLoop_sampled fuel sample limit step i eq :
  forLoop fuel sample limit step i [] [] = Some eq ->
  y eq = map sample (x eq).
Proof.
  intros Hrun. apply forLoop_Some in Hrun.
  destruct Hrun as (k & _ & _ & _ & Hx & Hy). rewrite Hx, Hy. reflexivity.
Qed.

(** Every recorded position is a rounded number. *)
Lemma forLoop_rounded fuel sample limit step i eq :
  forLoop fuel sample limit step i [] [] = Some eq ->
  Forall (fun p => exists v, p = toFixed1 v) (x eq).
Proof.
  intros Hrun. apply forLoop_Some in Hrun.
  destruct Hrun as (k & _ & _ & _ & Hx & _). rewrite Hx. simpl.
  apply Forall_forall. intros p Hp. apply in_map_iff in Hp.
  destruct Hp as (v & <- & _). now exists v.
Qed.
End LoopFacts.


(** ** The rationals satisfy the laws *)

Section ExactLaws.
Import Exact.
Local Open Scope Q_scope.

Lemma Q_ltb_iff (a b : Q) : ltb a b = true <-> a < b.
Proof.
  simpl. rewrite negb_true_iff. split; intros Hab.
  - apply Qnot_le_lt. intros Hle. apply Qle_bool_iff in Hle. congruence.
  - destruct (Qle_bool b a) eqn:Hle; [|reflexivity].
    apply Qle_bool_iff in Hle. exfalso. apply (Qlt_not_le a b); assumption.
Qed.

Lemma Q_ltb_false_iff (a b : Q) : ltb a b = false <-> b <= a.
Proof.
  simpl. rewrite negb_false_iff. apply Qle_bool_iff.
Qed.

Lemma Q_leb_iff (a b : Q) : leb a b = true <-> a <= b.
Proof. apply Qle_bool_iff. Qed.

Lemma Q_leb_false_iff (a b : Q) : leb a b = false <-> b < a.
Proof.
  simpl. split; intros Hab.
  - apply Qnot_le_lt. intros Hle. apply Qle_bool_iff in Hle. congruence.
  - destruct (Qle_bool a b) eqn:Hle; [|reflexivity].
    apply Qle_bool_iff in Hle. exfalso. apply (Qlt_not_le b a); assumption.
Qed.

Lemma Q_seqb_iff (a b : Q) : seqb a b = true <-> a == b.
Proof. apply Qeq_bool_iff. Qed.

Lemma Q_seqb_false_iff (a b : Q) : seqb a b = false <-> ~ a == b.
Proof.
  simpl. split.
  - intros Hf Heq. apply Qeq_bool_iff in Heq. congruence.
  - intros Hne. destruct (Qeq_bool a b) eqn:Heq; [|reflexivity].
    apply Qeq_bool_iff in Heq. contradiction.
Qed.

Lemma Q_mul_neg_one (a : Q) : a * - (1) = - a.
Proof.
  destruct a as [n d]. unfold Qmult, Qopp. simpl.
  rewrite Pos.mul_1_r. f_equal. lia.
Qed.

#[export] Instance Q_JSNumberLaws : JSNumberLaws Q.
Proof.
  constructor.
  - intros a. apply Q_ltb_false_iff. apply Qle_refl.
  - intros a b Hab. apply Q_ltb_iff in Hab. apply Q_ltb_false_iff.
    apply Qlt_le_weak. assumption.
  - intros a b c Hab Hbc. apply Q_ltb_iff in Hab, Hbc. apply Q_ltb_iff.
    eapply Qlt_trans; eassumption.
  - intros a b Hab. apply Q_ltb_iff in Hab.
    split; apply Q_seqb_false_iff; intros Heq; rewrite Heq in Hab;
      exact (Qlt_irrefl _ Hab).
  - intros a b _. split; apply Q_seqb_iff; reflexivity.
  - intros a b _ _. apply Q_seqb_iff. reflexivity.
  - intros a. apply Q_mul_neg_one.
Qed.
End ExactLaws.

(** ** Binary64 satisfies the laws

    The primitive operations are specified by their counterparts on
    [spec_float] (sign, mantissa, exponent); the laws are proved there. *)

Section SpecFloatFacts.
Local Open Scope Z_scope.

Lemma SFcompare_refl (a : spec_float) :
  a <> S754_nan -> SFcompare a a = Some Eq.
Proof.
  destruct a as [[]|[]| |[] m e]; simpl; intros Hn; try reflexivity;
    try congruence;
    rewrite Z.compare_refl; fold (Pos.compare m m); rewrite Pos.compare_refl;
    reflexivity.
Qed.

Lemma SFcompare_antisym (a b : spec_float) :
  SFcompare b a = option_map CompOpp (SFcompare a b).
Proof.
  destruct a as [[]|[]| |[] m1 e1], b as [[]|[]| |[] m2 e2]; simpl;
    try reflexivity;
    rewrite (Z.compare_antisym e1 e2);
    fold (Pos.compare m1 m2); fold (Pos.compare m2 m1);
    rewrite (Pos.compare_antisym m1 m2);
    destruct (e1 ?= e2); simpl; try reflexivity;
    destruct (m1 ?= m2)%positive; reflexivity.
Qed.

Lemma SFltb_trans (a b c : spec_float) :
  SFltb a b = true -> SFltb b c = true -> SFltb a c = true.
Proof.
  unfold SFltb.
  destruct a as [[]|[]| |[] m1 e1], b as [[]|[]| |[] m2 e2],
           c as [[]|[]| |[] m3 e3]; simpl;
    try discriminate; try reflexivity;
    fold (Pos.compare m1 m2); fold (Pos.compare m2 m3); fold (Pos.compare m1 m3);
    destruct (Z.compare_spec e1 e2); try discriminate;
    destruct (Z.compare_spec e2 e3); try discriminate;
    destruct (Z.compare_spec e1 e3); try lia; try reflexivity;
    destruct (Pos.compare_spec m1 m2); try discriminate;
    destruct (Pos.compare_spec m2 m3); try discriminate;
    destruct (Pos.compare_spec m1 m3); try lia; try reflexivity.
Qed.

Lemma shr_1_nonneg r : 0 <= shr_m r -> 0 <= shr_m (shr_1 r).
Proof.
  destruct r as [m r s]. simpl. destruct m as [|[p|p|]|p]; simpl; lia.
Qed.

Lemma iter_shr_1_nonneg p : forall r, 0 <= shr_m r -> 0 <= shr_m (iter_pos shr_1 p r).
Proof.
  induction p as [p IH|p IH|]; intros r Hr; simpl.
  - apply IH, IH, shr_1_nonneg, Hr.
  - apply IH, IH, Hr.
  - apply shr_1_nonneg, Hr.
Qed.

Lemma shr_fexp_nonneg m e l :
  0 <= m -> 0 <= shr_m (fst (shr_fexp prec emax m e l)).
Proof.
  intros Hm. unfold shr_fexp, shr.
  assert (H0 : 0 <= shr_m (shr_record_of_loc m l)) by (destruct l as [|[]]; exact Hm).
  destruct (fexp prec emax (Zdigits2 m + e) - e); simpl; try exact H0.
  apply iter_shr_1_nonneg, H0.
Qed.

Lemma round_nearest_even_nonneg m l : 0 <= m -> 0 <= round_nearest_even m l.
Proof.
  intros Hm. destruct l as [|[]]; simpl; try lia. destruct (Z.even m); lia.
Qed.

Lemma binary_round_aux_number s m e l :
  0 <= m -> binary_round_aux prec emax s m e l <> S754_nan.
Proof.
  intros Hm. unfold binary_round_aux.
  pose proof (shr_fexp_nonneg e l Hm) as H1.
  destruct (shr_fexp prec emax m e l) as [mrs' e'].
  pose proof (round_nearest_even_nonneg (loc_of_shr_record mrs') H1) as H2.
  pose proof (shr_fexp_nonneg e' loc_Exact H2) as H3.
  cbn [fst] in H3.
  destruct (shr_fexp prec emax _ e' loc_Exact) as [mrs'' e''].
  cbn [fst] in H3.
  destruct (shr_m mrs''); [discriminate| |lia].
  destruct (e'' <=? emax - prec); discriminate.
Qed.

Lemma SFadd_number a b :
  SFltb (S754_zero false) a = true -> SFltb (S754_zero false) b = true ->
  SFadd prec emax a b <> S754_nan.
Proof.
  destruct a as [[]|[]| |[] m1 e1], b as [[]|[]| |[] m2 e2]; simpl;
    try discriminate; intros _ _.
  unfold binary_normalize.
  destruct (shl_align m1 e1 (Z.min e1 e2)) as [p1 ?], (shl_align m2 e2 (Z.min e1 e2)) as [p2 ?].
  simpl. unfold binary_round.
  destruct (shl_align _ _ _) as [mz ez].
  apply binary_round_aux_number. lia.
Qed.

Lemma iter_xO_digits (k : nat) (m : positive) :
  Zpos (digits2_pos (Nat.iter k xO m)) = Zpos (digits2_pos m) + Z.of_nat k.
Proof. induction k as [|k IH]; simpl; [lia | rewrite Pos2Z.inj_succ, IH; lia]. Qed.

Lemma SFmul_neg_one a :
  valid_binary a = true ->
  SFmul prec emax a (S754_finite true 4503599627370496 (-52)) = SFopp a.
Proof.
  destruct a as [[]|[]| |s m e]; try reflexivity. intros Hv.
  unfold SFmul, SFopp.
  simpl in Hv. unfold bounded, canonical_mantissa in Hv.
  apply andb_true_iff in Hv. destruct Hv as [Hc Hb].
  apply Z.eqb_eq in Hc.
  unfold binary_round_aux.
  replace (m * 4503599627370496)%positive with (Nat.iter 52 xO m)
    by (rewrite Pos.mul_comm; reflexivity).
  unfold shr_fexp at 1.
  unfold Zdigits2. rewrite iter_xO_digits.
  replace (Z.pos (digits2_pos m) + Z.of_nat 52 + (e + -52)) with (Zpos (digits2_pos m) + e) by lia.
  rewrite Hc.
  replace (e - (e + -52)) with 52 by lia.
  change (shr (shr_record_of_loc (Z.pos (Nat.iter 52 xO m)) loc_Exact) (e + -52) 52)
    with ({| shr_m := Zpos m; shr_r := false; shr_s := false |}, e + -52 + 52).
  cbn [shr_m loc_of_shr_record round_nearest_even].
  unfold shr_fexp, Zdigits2.
  replace (Z.pos (digits2_pos m) + (e + -52 + 52)) with (Zpos (digits2_pos m) + e) by lia.
  rewrite Hc.
  replace (e - (e + -52 + 52)) with 0 by lia.
  cbn [shr shr_record_of_loc shr_m].
  replace (e + -52 + 52) with e by lia.
  rewrite Hb, xorb_true_r. reflexivity.
Qed.
Lemma digits2_pos_bound (m : positive) : Zpos m < 2 ^ Zpos (digits2_pos m).
Proof.
  induction m as [m IH|m IH|]; cbn [digits2_pos];
    try rewrite Pos2Z.inj_succ; try rewrite Z.pow_succ_r by lia; lia.
Qed.

Lemma valid_binary_mantissa (s : bool) (m : positive) (e : Z) :
  valid_binary (S754_finite s m e) = true -> Zpos m < 2 ^ 53.
Proof.
  cbn [SpecFloat.valid_binary]. unfold bounded, canonical_mantissa, fexp.
  intros Hv. apply andb_true_iff in Hv. destruct Hv as [Hc _].
  apply Z.eqb_eq in Hc.
  assert (Hd : Zpos (digits2_pos m) <= 53) by (unfold prec in Hc; lia).
  pose proof (digits2_pos_bound m) as Hm.
  assert (Hp : 2 ^ Zpos (digits2_pos m) <= 2 ^ 53)
    by (apply Z.pow_le_mono_r; lia).
  lia.
Qed.

(** A rounded number has the sign it was given, or is [NaN]. *)
Lemma binary_round_aux_sign (s : bool) (m e : Z) (l : location) :
  match binary_round_aux prec emax s m e l with
  | S754_zero s' | S754_infinity s' | S754_finite s' _ _ => s' = s
  | S754_nan => True
  end.
Proof.
  unfold binary_round_aux.
  destruct (shr_fexp prec emax m e l) as [mrs' e'].
  destruct (shr_fexp prec emax _ e' loc_Exact) as [mrs'' e''].
  destruct (shr_m mrs''); try exact I; try reflexivity.
  destruct (e'' <=? emax - prec); reflexivity.
Qed.

(** The rounded tenths of a number below the binary64 value of 0.05. *)
Lemma tenths_below_twentieth (m : positive) (e : Z) :
  valid_binary (S754_finite false m e) = true ->
  SFltb (S754_finite false m e) (S754_finite false 7205759403792794 (-57)) = true ->
  Binary64.tenths m e = 0.
Proof.
  intros Hv Hlt. apply valid_binary_mantissa in Hv.
  unfold SFltb in Hlt. cbn [SFcompare] in Hlt.
  assert (He : e < -57 \/ (e = -57 /\ Zpos m < 7205759403792794)).
  { destruct (e ?= -57) eqn:Ec.
    - apply Z.compare_eq in Ec. right. split; [exact Ec|].
      destruct (Pos.compare_cont Eq m 7205759403792794) eqn:Em;
        [discriminate Hlt | | discriminate Hlt].
      apply Pos2Z.pos_lt_pos. exact Em.
    - left. apply Z.compare_lt_iff in Ec. exact Ec.
    - discriminate Hlt. }
  destruct e as [|p|p]; try lia.
  unfold Binary64.tenths. apply Z.div_small.
  assert (H57 : 2 ^ 57 = 144115188075855872) by reflexivity.
  assert (H53 : 2 ^ 53 = 9007199254740992) by reflexivity.
  rewrite Z.pow_add_r by lia. change (2 ^ 1) with 2.
  assert (Hp : 0 < 2 ^ Zpos p) by (apply Z.pow_pos_nonneg; lia).
  split; [lia|].
  destruct He as [He | [He Hm]].
  - assert (Hp58 : 2 ^ 58 <= 2 ^ Zpos p) by (apply Z.pow_le_mono_r; lia).
    change (2 ^ 58) with 288230376151711744 in Hp58. lia.
  - assert (Ep : Zpos p = 57) by lia. rewrite Ep, H57 in *. lia.
Qed.
End SpecFloatFacts.

Section FloatLaws.
Import Binary64.
Local Open Scope js_scope.

Lemma float_lit_0 : lit 0 = PrimFloat.zero.
Proof. reflexivity. Qed.

Lemma float_neg_lit_1 : Prim2SF (- lit 1) = S754_finite true 4503599627370496 (-52).
Proof. reflexivity. Qed.

Lemma float_ltb_spec (a b : float) : (a <? b) = SFltb (Prim2SF a) (Prim2SF b).
Proof. apply FloatAxioms.ltb_spec. Qed.

Lemma float_seqb_spec (a b : float) : (a === b) = SFeqb (Prim2SF a) (Prim2SF b).
Proof. apply FloatAxioms.eqb_spec. Qed.

Lemma SFltb_number a b :
  SFltb a b = true -> SFeqb a a = true /\ SFeqb b b = true.
Proof.
  unfold SFltb, SFeqb. intros Hab.
  assert (Ha : a <> S754_nan) by (intros ->; discriminate).
  assert (Hb : b <> S754_nan) by (intros ->; destruct a; discriminate).
  now rewrite !SFcompare_refl.
Qed.

#[export] Instance float_JSNumberLaws : JSNumberLaws float.
Proof.
  constructor.
  - intros a. rewrite float_ltb_spec. unfold SFltb.
    destruct (Prim2SF a) as [[]|[]| |[] m e] eqn:E; try reflexivity;
      rewrite SFcompare_refl; congruence.
  - intros a b. rewrite !float_ltb_spec. unfold SFltb.
    rewrite (SFcompare_antisym (Prim2SF a) (Prim2SF b)).
    destruct (SFcompare (Prim2SF a) (Prim2SF b)) as [[]|]; simpl; congruence.
  - intros a b c. rewrite !float_ltb_spec. apply SFltb_trans.
  - intros a b. rewrite float_ltb_spec, !float_seqb_spec. unfold SFltb, SFeqb.
    rewrite (SFcompare_antisym (Prim2SF a) (Prim2SF b)).
    destruct (SFcompare (Prim2SF a) (Prim2SF b)) as [[]|]; simpl; try discriminate.
    intros _. split; reflexivity.
  - intros a b. rewrite float_ltb_spec, !float_seqb_spec. apply SFltb_number.
  - intros a b. rewrite float_lit_0, !float_ltb_spec, float_seqb_spec.
    change (Prim2SF PrimFloat.zero) with (S754_zero false).
    change (a + b) with (PrimFloat.add a b). rewrite add_spec.
    intros Ha Hb. unfold SFeqb. rewrite SFcompare_refl; [reflexivity|].
    apply SFadd_number; assumption.
  - intros a. apply Prim2SF_inj.
    change (a * - lit 1) with (PrimFloat.mul a (- lit 1)).
    change (- a) with (PrimFloat.opp a).
    rewrite mul_spec, float_neg_lit_1, opp_spec.
    apply SFmul_neg_one, Prim2SF_valid.
Qed.
End FloatLaws.

(** ** Rounding a small step in binary64 *)

Section FloatRounding.
Import Binary64.
Local Open Scope js_scope.

Lemma float_lit_005 :
  Prim2SF (lit 0.05) = S754_finite false 7205759403792794 (-57).
Proof. reflexivity. Qed.

Lemma float_lit_1000 :
  Prim2SF (lit 1000) = S754_finite false 8796093022208000 (-43).
Proof. reflexivity. Qed.

(** A number that is not negative and is below 0.05 is rounded to 0. *)
Lemma float_toFixed1_below_twentieth (v : float) :
  (Prim2SF v = S754_zero false \/ Prim2SF v = S754_zero true
   \/ exists m e, Prim2SF v = S754_finite false m e) ->
  (v <? lit 0.05) = true ->
  toFixed1 v = lit 0.
Proof.
  intros Hv Hlt. cbn [toFixed1 float_JSNumber]. unfold float_toFixed1.
  destruct Hv as [E | [E | (m & e & E)]]; rewrite E; try reflexivity.
  rewrite float_ltb_spec, float_lit_005, E in Hlt.
  assert (Hvalid : valid_binary (S754_finite false m e) = true)
    by (rewrite <- E; apply Prim2SF_valid).
  rewrite (@tenths_below_twentieth m e Hvalid Hlt). reflexivity.
Qed.

Lemma SFdiv_step_sign (t step : spec_float) :
  step = SFdiv prec emax t (S754_finite false 8796093022208000 (-43)) ->
  SFleb (S754_zero false) t = true ->
  SFltb step (S754_finite false 7205759403792794 (-57)) = true ->
  step = S754_zero false \/ step = S754_zero true
  \/ exists m e, step = S754_finite false m e.
Proof.
  intros -> H0 Hstep.
  destruct t as [[]|[]| |[] m e];
    cbn [SFdiv xorb] in *; try discriminate; try tauto.
  destruct (SFdiv_core_binary prec emax (Z.pos m) e 8796093022208000 (-43))
    as [[mz ez] lz].
  pose proof (binary_round_aux_sign false mz ez lz) as Hsign.
  destruct (binary_round_aux prec emax false mz ez lz) as [s|s| |s m' e'];
    try discriminate; subst s; try discriminate; try tauto.
  right; right. eauto.
Qed.

(** The second value of the loop variable, [0 + T / 1000], is rounded to 0
    when the loop has started ([0 <= T]) and the step is below 0.05. *)
Lemma float_second_position (T : float) :
  (lit 0 <=? T) = true -> (T / lit 1000 <? lit 0.05) = true ->
  toFixed1 (lit 0 + T / lit 1000) = lit 0.
Proof.
  intros H0 Hstep.
  set (step := T / lit 1000) in *.
  assert (Hdiv : Prim2SF step
                 = SFdiv prec emax (Prim2SF T)
                         (S754_finite false 8796093022208000 (-43))).
  { unfold step. rewrite <- float_lit_1000. apply div_spec. }
  assert (Hadd : Prim2SF (lit 0 + step)%js
                 = SFadd prec emax (S754_zero false) (Prim2SF step)).
  { change (S754_zero false) with (Prim2SF PrimFloat.zero).
    rewrite <- float_lit_0. apply add_spec. }
  assert (H0' : SFleb (S754_zero false) (Prim2SF T) = true).
  { change (S754_zero false) with (Prim2SF PrimFloat.zero).
    rewrite <- float_lit_0, <- leb_spec. exact H0. }
  clearbody step.
  rewrite float_ltb_spec, float_lit_005 in Hstep.
  pose proof (@SFdiv_step_sign (Prim2SF T) (Prim2SF step) Hdiv H0' Hstep) as Hs.
  apply float_toFixed1_below_twentieth.
  - rewrite Hadd.
    destruct Hs as [E | [E | (m & e & E)]]; rewrite E; cbn [SFadd]; eauto.
  - rewrite float_ltb_spec, float_lit_005, Hadd.
    destruct Hs as [E | [E | (m & e & E)]]; rewrite E in *; cbn [SFadd];
      first [exact Hstep | reflexivity].
Qed.
End FloatRounding.

(** ** The reaction solver *)

Section Reactions.
Import Exact Binary64.
Local Open Scope js_scope.

(** C1.  For every load [w] and spans [L1 > 0], [L2 > 0], in every number
    system, the solver returns [M1 = -(w L2^3 + w L1^3) / (8 (L1 + L2))],
    [R1 = M1/L1 + w L1/2], [R3 = M1/L2 + w L2/2] and
    [R2 = w L1 + w L2 - R1 - R3].  For [L1 = 4], [L2 = 6], [w = 10] it gives
    [M1 = -35] and [R1 = 11.25], in binary64 as with exact arithmetic (where
    also [R3 = 145/6] and [R2 = 775/12]). *)
Theorem calculateSupports_formulas :
  (forall (num : Type) (N : JSNumber num) (w L1 L2 : num),
      (lit 0 <? L1) = true -> (lit 0 <? L2) = true ->
      let s := twoSpanUnequal.calculateSupports L1 L2 w in
      M1 s = - (w * L2 ^ 3 + w * L1 ^ 3) / (lit 8 * (L1 + L2))
      /\ R1 s = M1 s / L1 + w * L1 / lit 2
      /\ R3 s = M1 s / L2 + w * L2 / lit 2
      /\ R2 s = w * L1 + w * L2 - R1 s - R3 s)
  /\ (let s := twoSpanUnequal.calculateSupports 4%float 6%float 10%float in
      M1 s = (-35)%float /\ R1 s = 11.25%float)
  /\ (let s := twoSpanUnequal.calculateSupports 4%Q 6%Q 10%Q in
      (M1 s == -35 /\ R1 s == 11.25 /\ R3 s == 145 # 6 /\ R2 s == 775 # 12)%Q).
Proof.
  split; [|split].
  - intros num N w L1 L2 _ _. cbv zeta. unfold twoSpanUnequal.calculateSupports.
    cbn [M1 R1 R2 R3]. repeat split.
  - cbv zeta. split; vm_compute; reflexivity.
  - cbv zeta. repeat split; vm_compute; reflexivity.
Qed.

Lemma calculateSupports_formulas_witness :
  (lit 0 <? 4%float) = true /\ (lit 0 <? 6%float) = true
  /\ M1 (twoSpanUnequal.calculateSupports 4%float 6%float 10%float)
     = - (10%float * 6%float ^ 3 + 10%float * 4%float ^ 3)
       / (lit 8 * (4%float + 6%float)).
Proof.
  split; [reflexivity | split; [reflexivity|]].
  apply (proj1 calculateSupports_formulas float _ 10%float 4%float 6%float);
    reflexivity.
Defined.

(** In binary64 the three reactions of spans 5 and 3 under load 1 add up to
    7.999999999999999, not to 8: [R2] is computed from the rounded [R1] and
    [R3], and the sum rounds again. *)
Lemma equilibrium_not_exact_in_binary64 :
  let s := twoSpanUnequal.calculateSupports 5%float 3%float 1%float in
  (R1 s + R2 s + R3 s)%float = 0x1.fffffffffffffp+2%float
  /\ (1 * (5 + 3))%float = 8%float
  /\ (R1 s + R2 s + R3 s === 1%float * (5%float + 3%float)) = false.
Proof. cbv zeta. repeat split; vm_compute; reflexivity. Qed.

(** C3, amended.  With exact arithmetic the reactions of spans [L1 > 0],
    [L2 > 0] under any load [w] satisfy [R1 + R2 + R3 = w (L1 + L2)]
    exactly. *)
Theorem equilibrium_exact :
  forall w L1 L2 : Q,
    (0 < L1)%Q -> (0 < L2)%Q ->
    let s := twoSpanUnequal.calculateSupports L1 L2 w in
    (R1 s + R2 s + R3 s == w * (L1 + L2))%Q.
Proof.
  intros w L1 L2 _ _. cbv zeta. unfold twoSpanUnequal.calculateSupports.
  cbn [M1 R1 R2 R3 add sub mul div neg pow lit Q_JSNumber]. ring.
Qed.

Lemma equilibrium_exact_witness :
  (0 < 4)%Q /\ (0 < 6)%Q
  /\ (let s := twoSpanUnequal.calculateSupports 4%Q 6%Q 10%Q in
      (R1 s + R2 s + R3 s == 10 * (4 + 6))%Q).
Proof.
  split; [reflexivity | split; [reflexivity|]].
  apply (equilibrium_exact 10 (L1:=4) (L2:=6)); reflexivity.
Defined.
End Reactions.

(** ** The pointwise evaluators of the two-span analyzer *)

Section Evaluators.
Import Exact Binary64.
Local Open Scope js_scope.

(** C4.  For every load [w] and spans [L1 > 0], [L2 > 0], with
    [T = L1 + L2] and the reactions of the solver, the bending-moment
    evaluator returns exactly [0] at [x = 0] and at [x = T].  This holds in
    every number system that satisfies the laws, so in binary64 as with
    exact arithmetic. *)
Theorem moment_zero_at_ends :
  forall (num : Type) (N : JSNumber num) (LW : JSNumberLaws num)
         (w L1 L2 : num),
    (lit 0 <? L1) = true -> (lit 0 <? L2) = true ->
    let s := twoSpanUnequal.calculateSupports L1 L2 w in
    let T := L1 + L2 in
    twoSpanUnequal.calculateBendingMomentValue (lit 0) L1 T (R1 s) (R2 s) w = lit 0
    /\ twoSpanUnequal.calculateBendingMomentValue T L1 T (R1 s) (R2 s) w = lit 0.
Proof.
  intros num N LW w L1 L2 H1 H2 s T.
  unfold twoSpanUnequal.calculateBendingMomentValue. split.
  - destruct (ltb_number _ _ H1) as [H0 _]. rewrite H0. reflexivity.
  - unfold T. rewrite (add_number _ _ H1 H2), orb_true_r. reflexivity.
Qed.

Lemma moment_zero_at_ends_witness :
  (lit 0 <? 4%float) = true /\ (lit 0 <? 6%float) = true
  /\ (let s := twoSpanUnequal.calculateSupports 4%float 6%float 10%float in
      let T := 4%float + 6%float in
      twoSpanUnequal.calculateBendingMomentValue (lit 0) 4%float T (R1 s) (R2 s) 10%float
      = lit 0
      /\ twoSpanUnequal.calculateBendingMomentValue T 4%float T (R1 s) (R2 s) 10%float
         = lit 0).
Proof.
  split; [reflexivity | split; [reflexivity|]].
  apply (@moment_zero_at_ends float _ _ 10%float 4%float 6%float); reflexivity.
Defined.

(** In binary64, for spans 3 and 5 under load 5, the position [x = 8] lies
    beyond the interior support, and the evaluator returns [0] there (the
    tested end of the beam), which is not the value [-2^-45] of
    [-(R1 x + R2 (x - L1) - 0.5 w x^2)].  And when the second span is too
    small to change the first in binary64 addition ([2^53 + 1] rounds to
    [2^53]), the interior support is itself the end of the beam and the
    evaluator returns [0] at [x = L1], not [-(R1 L1 - 0.5 w L1^2)]. *)
Lemma moment_branches_counterexample :
  (let L1 := 3%float in
   let L2 := 5%float in
   let w := 5%float in
   let x := 8%float in
   let s := twoSpanUnequal.calculateSupports L1 L2 w in
   (lit 0 <? L1) = true /\ (lit 0 <? L2) = true /\ (L1 <? x) = true
   /\ twoSpanUnequal.calculateBendingMomentValue x L1 (L1 + L2) (R1 s) (R2 s) w
      = 0%float
   /\ - (R1 s * x + R2 s * (x - L1) - lit 0.5 * w * x ^ 2) = (-0x1p-45)%float
   /\ (twoSpanUnequal.calculateBendingMomentValue x L1 (L1 + L2) (R1 s) (R2 s) w
       === - (R1 s * x + R2 s * (x - L1) - lit 0.5 * w * x ^ 2)) = false)
  /\ (let L1 := 0x1p+53%float in
      let L2 := 1%float in
      let w := 1%float in
      let s := twoSpanUnequal.calculateSupports L1 L2 w in
      (lit 0 <? L1) = true /\ (lit 0 <? L2) = true
      /\ twoSpanUnequal.calculateBendingMomentValue L1 L1 (L1 + L2) (R1 s) (R2 s) w
         = 0%float
      /\ (twoSpanUnequal.calculateBendingMomentValue L1 L1 (L1 + L2) (R1 s) (R2 s) w
          === - (R1 s * L1 - lit 0.5 * w * L1 ^ 2)) = false).
Proof. cbv zeta. repeat split; vm_compute; reflexivity. Qed.

(** The branches of the two evaluators, in every number system that
    satisfies the laws. *)
Lemma evaluator_branches :
  forall (num : Type) (N : JSNumber num) (LW : JSNumberLaws num)
         (w L1 T r1 r2 x : num),
    (lit 0 <? L1) = true -> (L1 <? T) = true ->
    let moment v := twoSpanUnequal.calculateBendingMomentValue v L1 T r1 r2 w in
    let shear v := twoSpanUnequal.calculateShearForceValue v L1 r1 r2 w in
    moment L1 = - (r1 * L1 - lit 0.5 * w * L1 ^ 2)
    /\ ((L1 <? x) = true -> (x === T) = false ->
        moment x = - (r1 * x + r2 * (x - L1) - lit 0.5 * w * x ^ 2))
    /\ ((x === T) = true -> moment x = lit 0)
    /\ shear L1 = r2 - w * L1
    /\ ((x <? L1) = true -> shear x = r1 - w * x)
    /\ ((L1 <? x) = true -> shear x = r2 - w * (x - L1)).
Proof.
  intros num N LW w L1 T r1 r2 x H1 HT moment shear. unfold moment, shear.
  unfold twoSpanUnequal.calculateBendingMomentValue,
    twoSpanUnequal.calculateShearForceValue.
  repeat split.
  - destruct (ltb_seqb _ _ H1) as [_ H0]. destruct (ltb_seqb _ _ HT) as [HT' _].
    rewrite H0, HT', ltb_irrefl. reflexivity.
  - intros Hx HxT. pose proof (ltb_trans _ _ _ H1 Hx) as H0x.
    destruct (ltb_seqb _ _ H0x) as [_ H0]. rewrite H0, HxT.
    rewrite (ltb_asym _ _ Hx), Hx. reflexivity.
  - intros HxT. rewrite HxT, orb_true_r. reflexivity.
  - destruct (ltb_number _ _ H1) as [_ HL]. rewrite ltb_irrefl, HL. reflexivity.
  - intros Hx. rewrite Hx. reflexivity.
  - intros Hx. destruct (ltb_seqb _ _ Hx) as [_ Hne].
    rewrite (ltb_asym _ _ Hx), Hne. reflexivity.
Qed.

(** C2, amended.  For every load [w], spans [L1 > 0], [L2 > 0] with
    [L1 < L1 + L2], and the reactions of the solver, in every number system
    that satisfies the laws: the bending-moment evaluator returns
    [-(R1 L1 - 0.5 w L1^2)] at [x = L1]; for [x > L1] other than the total
    length it returns [-(R1 x + R2 (x - L1) - 0.5 w x^2)], and at the total
    length it returns [0]; the shear-force evaluator returns [R2 - w L1] at
    [x = L1], [R1 - w x] for [x < L1] and [R2 - w (x - L1)] for [x > L1]. *)
Theorem interior_support_branches :
  forall (num : Type) (N : JSNumber num) (LW : JSNumberLaws num)
         (w L1 L2 x : num),
    (lit 0 <? L1) = true -> (lit 0 <? L2) = true -> (L1 <? L1 + L2) = true ->
    let s := twoSpanUnequal.calculateSupports L1 L2 w in
    let T := L1 + L2 in
    let moment v := twoSpanUnequal.calculateBendingMomentValue v L1 T (R1 s) (R2 s) w in
    let shear v := twoSpanUnequal.calculateShearForceValue v L1 (R1 s) (R2 s) w in
    moment L1 = - (R1 s * L1 - lit 0.5 * w * L1 ^ 2)
    /\ ((L1 <? x) = true -> (x === T) = false ->
        moment x = - (R1 s * x + R2 s * (x - L1) - lit 0.5 * w * x ^ 2))
    /\ ((x === T) = true -> moment x = lit 0)
    /\ shear L1 = R2 s - w * L1
    /\ ((x <? L1) = true -> shear x = R1 s - w * x)
    /\ ((L1 <? x) = true -> shear x = R2 s - w * (x - L1)).
Proof.
  intros num N LW w L1 L2 x H1 _ HT s T.
  exact (evaluator_branches LW w L1 T (R1 s) (R2 s) x H1 HT).
Qed.

Lemma interior_support_branches_witness :
  (lit 0 <? 3%float) = true /\ (lit 0 <? 5%float) = true
  /\ (3%float <? 3%float + 5%float) = true
  /\ (let s := twoSpanUnequal.calculateSupports 3%float 5%float 5%float in
      twoSpanUnequal.calculateBendingMomentValue
        3%float 3%float (3%float + 5%float) (R1 s) (R2 s) 5%float
      = - (R1 s * 3%float - lit 0.5 * 5%float * 3%float ^ 2)).
Proof.
  split; [reflexivity | split; [reflexivity | split; [reflexivity|]]].
  apply (@interior_support_branches float _ _ 5%float 3%float 5%float 4%float);
    reflexivity.
Defined.

(** With exact arithmetic the restrictions are not needed: a positive second
    span makes [L1 < L1 + L2], and at the total length the value [0] that is
    returned is the value of [-(R1 x + R2 (x - L1) - 0.5 w x^2)], by the
    moment equilibrium of the reactions. *)
Lemma moment_beyond_support_exact :
  forall w L1 L2 x : Q,
    (0 < L1)%Q -> (0 < L2)%Q -> (L1 < x)%Q ->
    let s := twoSpanUnequal.calculateSupports L1 L2 w in
    (twoSpanUnequal.calculateBendingMomentValue x L1 (L1 + L2) (R1 s) (R2 s) w
     == - (R1 s * x + R2 s * (x - L1) - 0.5 * w * x ^ 2))%Q.
Proof.
  intros w L1 L2 x H1 H2 Hx s.
  assert (H1' : (lit 0 <? L1) = true) by (apply Q_ltb_iff; exact H1).
  assert (HT : (L1 <? L1 + L2) = true) by (apply Q_ltb_iff; simpl; lra).
  assert (Hx' : (L1 <? x) = true) by (apply Q_ltb_iff; exact Hx).
  pose proof (@evaluator_branches Q _ _ w L1 (L1 + L2) (R1 s) (R2 s) x H1' HT) as B.
  cbv zeta in B. destruct B as (_ & B2 & B3 & _).
  change (L1 + L2)%Q with (L1 + L2).
  destruct (x === L1 + L2) eqn:HxT.
  - rewrite (B3 eq_refl).
    apply Q_seqb_iff in HxT. simpl in HxT.
    unfold s, twoSpanUnequal.calculateSupports.
    cbn [M1 R1 R2 R3 add sub mul div neg pow lit Q_JSNumber].
    rewrite HxT. simpl. field. split; lra.
  - rewrite (B2 Hx' eq_refl). reflexivity.
Qed.
Lemma moment_beyond_support_exact_witness :
  (0 < 4)%Q /\ (0 < 6)%Q /\ (4 < 10)%Q
  /\ (let s := twoSpanUnequal.calculateSupports 4%Q 6%Q 10%Q in
      twoSpanUnequal.calculateBendingMomentValue 10 4 (4 + 6) (R1 s) (R2 s) 10
      == - (R1 s * 10 + R2 s * (10 - 4) - 0.5 * 10 * 10 ^ 2))%Q.
Proof.
  split; [reflexivity | split; [reflexivity | split; [reflexivity|]]].
  apply (@moment_beyond_support_exact 10 4 6 10); reflexivity.
Defined.
End Evaluators.

(** ** Rounding to one decimal with exact arithmetic *)

Section ExactRounding.
Import Exact.
Local Open Scope Q_scope.

Lemma toFixed_limit : 10 ^ 21 == 1000000000000000000000.
Proof. reflexivity. Qed.

Lemma Q_toFixed1_proper (a b : Q) : a == b -> Q_toFixed1 a = Q_toFixed1 b.
Proof.
  intros Hab. unfold Q_toFixed1.
  assert (E1 : Qle_bool (10 ^ 21) (Qabs a) = Qle_bool (10 ^ 21) (Qabs b))
    by (rewrite Hab; reflexivity).
  assert (E2 : Qle_bool 0 a = Qle_bool 0 b) by (rewrite Hab; reflexivity).
  assert (E3 : tenths a = tenths b) by (unfold tenths; rewrite Hab; reflexivity).
  assert (E4 : tenths (- a) = tenths (- b))
    by (unfold tenths; rewrite Hab; reflexivity).
  assert (E5 : Qred a = Qred b) by (apply Qred_complete, Hab).
  rewrite E1, E2, E3, E4, E5. reflexivity.
Qed.

Lemma tenths_bounds (v : Q) :
  inject_Z (tenths v) <= v * 10 + (1 # 2) /\ v * 10 + (1 # 2) < inject_Z (tenths v) + 1.
Proof.
  unfold tenths. split; [apply Qfloor_le|].
  pose proof (Qlt_floor (v * 10 + (1 # 2))) as Hlt.
  rewrite inject_Z_plus in Hlt. exact Hlt.
Qed.

Lemma Q_toFixed1_small (v : Q) :
  0 <= v -> v < 10 ^ 21 -> Q_toFixed1 v == inject_Z (tenths v) / 10.
Proof.
  intros H0 Hlt. unfold Q_toFixed1.
  rewrite (Qabs_pos v H0).
  destruct (Qle_bool (10 ^ 21) v) eqn:E.
  - apply Qle_bool_iff in E. exfalso. apply (Qlt_not_le _ _ Hlt E).
  - apply Qle_bool_iff in H0. rewrite H0, Qred_correct. apply Qmake_Qdiv.
Qed.

Lemma Q_toFixed1_large (v : Q) : 10 ^ 21 <= v -> Q_toFixed1 v == v.
Proof.
  intros Hle. unfold Q_toFixed1.
  assert (H0 : 0 <= v) by (rewrite toFixed_limit in Hle; lra).
  rewrite (Qabs_pos v H0). apply Qle_bool_iff in Hle. rewrite Hle.
  apply Qred_correct.
Qed.

Lemma tenths_below_limit (v : Q) : v < 10 ^ 21 -> inject_Z (tenths v) / 10 <= 10 ^ 21.
Proof.
  intros Hlt. rewrite toFixed_limit in *.
  assert (Hz : (tenths v <= 10000000000000000000000)%Z).
  { change 10000000000000000000000%Z
      with (Qfloor (1000000000000000000000 * 10 + (1 # 2))).
    apply Qfloor_resp_le. lra. }
  rewrite Zle_Qle in Hz.
  apply Qle_shift_div_r; [reflexivity|].
  eapply Qle_trans; [exact Hz|]. apply Qle_lteq. right. reflexivity.
Qed.

(** Rounding keeps the order of non-negative numbers. *)
Lemma Q_toFixed1_mono (a b : Q) :
  0 <= a -> a <= b -> Q_toFixed1 a <= Q_toFixed1 b.
Proof.
  intros H0 Hab.
  assert (H0b : 0 <= b) by lra.
  destruct (Qlt_le_dec a (10 ^ 21)) as [Ha|Ha];
    destruct (Qlt_le_dec b (10 ^ 21)) as [Hb|Hb].
  - rewrite (Q_toFixed1_small H0 Ha), (Q_toFixed1_small H0b Hb).
    apply Qmult_le_compat_r; [|discriminate].
    rewrite <- Zle_Qle. apply Qfloor_resp_le. lra.
  - rewrite (Q_toFixed1_small H0 Ha), (Q_toFixed1_large Hb).
    pose proof (tenths_below_limit Ha). lra.
  - exfalso. lra.
  - rewrite (Q_toFixed1_large Ha), (Q_toFixed1_large Hb). exact Hab.
Qed.

(** The rounded number is within a twentieth of the number. *)
Lemma Q_toFixed1_close (v : Q) :
  0 <= v -> v - (1 # 20) <= Q_toFixed1 v /\ Q_toFixed1 v <= v + (1 # 20).
Proof.
  intros H0. destruct (Qlt_le_dec v (10 ^ 21)) as [Hv|Hv].
  - rewrite (Q_toFixed1_small H0 Hv).
    destruct (tenths_bounds v) as [Hlo Hhi].
    set (t := inject_Z (tenths v)) in *.
    assert (E : t / 10 == t * (1 # 10)) by (unfold Qdiv; reflexivity).
    rewrite E. split; lra.
  - rewrite (Q_toFixed1_large Hv). split; lra.
Qed.

(** Below a twentieth the rounded number is zero. *)
Lemma Q_toFixed1_zero (v : Q) : 0 <= v -> v < 1 # 20 -> Q_toFixed1 v = 0.
Proof.
  intros H0 Hlt.
  assert (Ht : tenths v = 0%Z).
  { destruct (tenths_bounds v) as [Hlo Hhi].
    assert (H1 : (-1 < tenths v)%Z)
      by (rewrite Zlt_Qlt; change (inject_Z (-1)) with (-1 # 1); lra).
    assert (H2 : (tenths v < 1)%Z)
      by (rewrite Zlt_Qlt; change (inject_Z 1) with 1; lra).
    lia. }
  unfold Q_toFixed1. rewrite (Qabs_pos v H0).
  destruct (Qle_bool (10 ^ 21) v) eqn:E.
  - apply Qle_bool_iff in E. rewrite toFixed_limit in E. exfalso. lra.
  - apply Qle_bool_iff in H0. rewrite H0, Ht. reflexivity.
Qed.
End ExactRounding.

(** ** The sampling loop with exact arithmetic *)

Section ExactLoop.
Import Exact.
Local Open Scope Q_scope.

Lemma Q_position (j : nat) :
  forall i step : Q, position j i step == i + inject_Z (Z.of_nat j) * step.
Proof.
  induction j as [|j IH]; intros i step.
  - cbn [position]. change (inject_Z (Z.of_nat 0)) with 0. ring.
  - cbn [position]. rewrite IH, Nat2Z.inj_succ. unfold Z.succ.
    rewrite inject_Z_plus. cbn [add Q_JSNumber].
    change (inject_Z 1) with 1. ring.
Qed.

(** With a positive limit [L] and the step [L / n], the loop variable stays
    within the limit for [n] steps and passes it at the next one. *)
Lemma Q_loop_bounds (L : Q) (n : positive) :
  0 < L ->
  (forall j, (j <= Pos.to_nat n)%nat -> position j 0 (L / inject_Z (Zpos n)) <= L)
  /\ L < position (S (Pos.to_nat n)) 0 (L / inject_Z (Zpos n)).
Proof.
  intros HL.
  set (N := inject_Z (Zpos n)). set (q := L / N).
  assert (HN : 0 < N) by reflexivity.
  assert (Hq : 0 < q) by (apply Qlt_shift_div_l; [exact HN | lra]).
  assert (HNq : N * q == L) by (unfold q; field; lra).
  split.
  - intros j Hj. rewrite Q_position.
    assert (Hle : inject_Z (Z.of_nat j) <= N)
      by (unfold N; rewrite <- Zle_Qle; lia).
    assert (Hm : inject_Z (Z.of_nat j) * q <= N * q)
      by (apply Qmult_le_compat_r; lra).
    lra.
  - rewrite Q_position, Nat2Z.inj_succ, positive_nat_Z. unfold Z.succ.
    rewrite inject_Z_plus. fold N. change (inject_Z 1) with 1. lra.
Qed.

Lemma Q_position_last (L : Q) (n : positive) :
  0 < L -> position (Pos.to_nat n) 0 (L / inject_Z (Zpos n)) == L.
Proof.
  intros HL. rewrite Q_position, positive_nat_Z. field.
  change (~ inject_Z (Zpos n) == inject_Z 0). rewrite inject_Z_injective. lia.
Qed.

(** The loop ends, after [n + 1] samples. *)
Lemma Q_forLoop_exact (sample : Q -> Q) (L : Q) (n : positive) (fuel : nat) :
  0 < L -> (S (Pos.to_nat n) < fuel)%nat ->
  forLoop fuel sample L (L / inject_Z (Zpos n)) 0 [] []
  = Some {| x := map Q_toFixed1 (positions (S (Pos.to_nat n)) 0 (L / inject_Z (Zpos n)));
            y := map sample
                   (map Q_toFixed1
                      (positions (S (Pos.to_nat n)) 0 (L / inject_Z (Zpos n)))) |}.
Proof.
  intros HL Hfuel. destruct (Q_loop_bounds n HL) as [Hin Hout].
  pose proof (@forLoop_run Q _ sample L (L / inject_Z (Zpos n)) (S (Pos.to_nat n))
                           fuel 0 [] [] Hfuel) as R.
  cbn [app] in R. apply R.
  - intros j Hj. apply Q_leb_iff. apply Hin. lia.
  - apply Q_leb_false_iff. exact Hout.
Qed.

(** The recorded positions never decrease. *)
Lemma Q_positions_sorted (k : nat) :
  forall i step : Q,
    0 <= i -> 0 <= step -> Sorted Qle (map Q_toFixed1 (positions k i step)).
Proof.
  induction k as [|k IH]; intros i step Hi Hs; cbn [positions map]; constructor.
  - apply IH; [cbn [add Q_JSNumber]; lra | exact Hs].
  - destruct k as [|k]; cbn [positions map]; constructor.
    apply Q_toFixed1_mono; [exact Hi | cbn [add Q_JSNumber]; lra].
Qed.

Lemma Q_positions_last (k : nat) :
  forall (i step d : Q),
    last (map Q_toFixed1 (positions (S k) i step)) d = Q_toFixed1 (position k i step).
Proof.
  induction k as [|k IH]; intros i step d; [reflexivity|].
  specialize (IH (i + step)%js step d).
  cbn [positions map] in IH |- *. cbn [position].
  rewrite <- IH. reflexivity.
Qed.

(** What a run over a positive span [L] in [n] intervals gives, with exact
    arithmetic and enough fuel. *)
Lemma Q_forLoop_facts (sample : Q -> Q) (L : Q) (n : positive) (fuel : nat) :
  0 < L -> (S (Pos.to_nat n) < fuel)%nat ->
  exists eq,
    forLoop fuel sample L (L / inject_Z (Zpos n)) 0 [] [] = Some eq
    /\ List.length (x eq) = S (Pos.to_nat n)
    /\ List.length (y eq) = S (Pos.to_nat n)
    /\ y eq = map sample (x eq)
    /\ Sorted Qle (x eq)
    /\ hd 0 (x eq) = 0
    /\ last (x eq) 0 = Q_toFixed1 L.
Proof.
  intros HL Hfuel. eexists. split; [apply Q_forLoop_exact; assumption|].
  cbn [x y].
  assert (Hs : 0 <= L / inject_Z (Zpos n)).
  { apply Qle_shift_div_l; [reflexivity | lra]. }
  repeat split.
  - rewrite length_map, positions_length. reflexivity.
  - rewrite !length_map, positions_length. reflexivity.
  - apply Q_positions_sorted; [apply Qle_refl | exact Hs].
  - rewrite Q_positions_last. apply Q_toFixed1_proper, Q_position_last, HL.
Qed.
Lemma Q_forLoop_returns (sample : Q -> Q) (L : Q) (n : positive) (fuel : nat) :
  0 < L -> (S (Pos.to_nat n) < fuel)%nat ->
  returns_samples (S (Pos.to_nat n))
                  (forLoop fuel sample L (L / inject_Z (Zpos n)) 0 [] []).
Proof.
  intros HL Hfuel.
  destruct (Q_forLoop_facts sample n HL Hfuel) as (eq & Hrun & Hx & Hy & _).
  exists eq. split; [exact Hrun | split; assumption].
Qed.

(** With exact arithmetic, for positive span(s) and any load, the simply
    supported deflection equation returns 9 samples, the simply supported
    moment and shear equations 11 each, and the three two-span equations
    1001 each. *)
Lemma sample_count_exact :
  forall (beam : Beam Q) (load : Q) (fuel : nat),
    (0 < primarySpan beam -> (11 < fuel)%nat ->
     returns_samples 9 (simplySupported.getDeflectionEquation fuel beam load)
     /\ returns_samples 11 (simplySupported.getBendingMomentEquation fuel beam load)
     /\ returns_samples 11 (simplySupported.getShearForceEquation fuel beam load))
    /\ (0 < primarySpan beam -> 0 < secondarySpan beam -> (1001 < fuel)%nat ->
        returns_samples 1001 (twoSpanUnequal.getDeflectionEquation fuel beam load)
        /\ returns_samples 1001 (twoSpanUnequal.getBendingMomentEquation fuel beam load)
        /\ returns_samples 1001 (twoSpanUnequal.getShearForceEquation fuel beam load)).
Proof.
  intros beam load fuel. split.
  - intros HL Hfuel.
    assert (H8 : (S (Pos.to_nat 8) < fuel)%nat) by (simpl; lia).
    assert (H10 : (S (Pos.to_nat 10) < fuel)%nat) by (simpl; lia).
    split; [|split].
    + exact (Q_forLoop_returns _ 8 HL H8).
    + exact (Q_forLoop_returns _ 10 HL H10).
    + exact (Q_forLoop_returns _ 10 HL H10).
  - intros H1 H2 Hfuel.
    assert (HT : 0 < primarySpan beam + secondarySpan beam) by lra.
    assert (Hn : (S (Pos.to_nat 1000) < fuel)%nat) by lia.
    assert (E : S (Pos.to_nat 1000) = 1001%nat) by (vm_compute; reflexivity).
    rewrite <- E.
    split; [|split]; exact (Q_forLoop_returns _ 1000 HT Hn).
Qed.
Lemma sample_count_exact_witness :
  0 < 8 /\ (11 < 12)%nat
  /\ returns_samples 11
       (simplySupported.getShearForceEquation 12 (scenario_beam 8 0) (lit 10 : Q)).
Proof.
  split; [reflexivity | split; [lia|]].
  assert (HL : 0 < primarySpan (scenario_beam 8 0 : Beam Q)) by reflexivity.
  assert (Hfuel : (11 < 12)%nat) by lia.
  exact (proj2 (proj2 (proj1 (sample_count_exact (scenario_beam 8 0) 10 12)
                             HL Hfuel))).
Defined.
End ExactLoop.


(** ** The simply supported analyzer *)

Section SimplySupported.
Import Exact Binary64.
Local Open Scope js_scope.

(** C5.  For every simply supported beam of span [L] and every load [w], in
    every number system that satisfies the laws, each recorded bending
    moment is [-(w x / 2) (L - x)] at the recorded position [x], rounded to
    one decimal, and each recorded shear force is [w (L / 2 - x)] at the
    recorded position, rounded to one decimal.  For [L = 8] and [w = 10] the
    run ends, in binary64 as with exact arithmetic (where the numbers are in
    lowest terms), with the positions 0, 0.8, ..., 8; the shear force at
    0, 4, 8 is 40, 0, -40 and the bending moment there is 0, -80, 0.  With
    exact arithmetic the run ends for every positive span, with 11
    samples. *)
Theorem simplySupported_samples :
  (forall (num : Type) (N : JSNumber num) (LW : JSNumberLaws num)
          (fuel : nat) (beam : Beam num) (load : num) (eq : Equation num),
      let L := primarySpan beam in
      (simplySupported.getBendingMomentEquation fuel beam load = Some eq ->
       y eq = map (fun x => toFixed1 (- (load * x / lit 2 * (L - x)))) (x eq))
      /\ (simplySupported.getShearForceEquation fuel beam load = Some eq ->
          y eq = map (fun x => toFixed1 (load * (L / lit 2 - x))) (x eq)))
  /\ simplySupported.getShearForceEquation 12 (scenario_beam 8 0) (lit 10 : float)
     = Some {| x := map lit [0; 0.8; 1.6; 2.4; 3.2; 4; 4.8; 5.6; 6.4; 7.2; 8]%Q;
               y := map lit [40; 32; 24; 16; 8; 0; -8; -16; -24; -32; -40]%Q |}
  /\ simplySupported.getBendingMomentEquation 12 (scenario_beam 8 0) (lit 10 : float)
     = Some {| x := map lit [0; 0.8; 1.6; 2.4; 3.2; 4; 4.8; 5.6; 6.4; 7.2; 8]%Q;
               y := map lit [0; -28.8; -51.2; -67.2; -76.8; -80;
                             -76.8; -67.2; -51.2; -28.8; 0]%Q |}
  /\ simplySupported.getShearForceEquation 12 (scenario_beam 8 0) (lit 10 : Q)
     = Some {| x := map Qred [0; 0.8; 1.6; 2.4; 3.2; 4; 4.8; 5.6; 6.4; 7.2; 8]%Q;
               y := map Qred [40; 32; 24; 16; 8; 0; -8; -16; -24; -32; -40]%Q |}
  /\ simplySupported.getBendingMomentEquation 12 (scenario_beam 8 0) (lit 10 : Q)
     = Some {| x := map Qred [0; 0.8; 1.6; 2.4; 3.2; 4; 4.8; 5.6; 6.4; 7.2; 8]%Q;
               y := map Qred [0; -28.8; -51.2; -67.2; -76.8; -80;
                              -76.8; -67.2; -51.2; -28.8; 0]%Q |}
  /\ (forall (beam : Beam Q) (load : Q) (fuel : nat),
         (0 < primarySpan beam)%Q -> (11 < fuel)%nat ->
         returns_samples 11 (simplySupported.getBendingMomentEquation fuel beam load)
         /\ returns_samples 11 (simplySupported.getShearForceEquation fuel beam load)).
Proof.
  split; [|split; [|split; [|split; [|split]]]];
    try (vm_compute; reflexivity).
  - intros num N LW fuel beam load eq L. split; intros Hrun.
    + apply forLoop_sampled in Hrun. rewrite Hrun. apply map_ext. intros v.
      cbv zeta. rewrite mul_neg_one. reflexivity.
    + apply forLoop_sampled in Hrun. rewrite Hrun. reflexivity.
  - intros beam load fuel HL Hfuel.
    assert (H10 : (S (Pos.to_nat 10) < fuel)%nat) by (simpl; lia).
    split; exact (Q_forLoop_returns _ 10 HL H10).
Qed.

Lemma simplySupported_samples_witness :
  let eq := {| x := map lit [0; 0.8; 1.6; 2.4; 3.2; 4; 4.8; 5.6; 6.4; 7.2; 8]%Q;
               y := map lit [40; 32; 24; 16; 8; 0; -8; -16; -24; -32; -40]%Q |} in
  simplySupported.getShearForceEquation 12 (scenario_beam 8 0) (lit 10 : float)
  = Some eq
  /\ y eq = map (fun x => toFixed1 (lit 10 * (lit 8 / lit 2 - x))) (x eq).
Proof.
  cbv zeta. split; [vm_compute; reflexivity|].
  apply (proj1 simplySupported_samples float _ _ 12%nat (scenario_beam 8 0) (lit 10)).
  vm_compute; reflexivity.
Defined.

(** For [L = 8], [w = 10], [EI = 210000000] and [j2 = 1] the deflection
    recorded at [x = 1] is -986111.1: the raw value -0.000986... times [1e9],
    then rounded.  Rounding first gives -0, and -0 after the scaling. *)
Lemma deflection_rounding_order_counterexample :
  let load := lit 10 : float in
  let beam := scenario_beam 8 0 : Beam float in
  let L := primarySpan beam in
  let V (x : float) :=
    - ((load * x) / (lit 24 * lit 210000000))
    * (L ^ 3 - lit 2 * L * x ^ 2 + x ^ 3) * lit 1 * lit 1000 in
  exists eq,
    simplySupported.getDeflectionEquation 10 beam load = Some eq
    /\ nth 1 (x eq) (lit 0) = lit 1
    /\ nth 1 (y eq) (lit 0) = lit (-986111.1)
    /\ toFixed1 (V (lit 1)) * lit 1e9 = (-0)%float
    /\ (nth 1 (y eq) (lit 0) === toFixed1 (V (lit 1)) * lit 1e9) = false.
Proof.
  cbv zeta. eexists. split; [vm_compute; reflexivity|].
  repeat split; vm_compute; reflexivity.
Qed.

(** C6, amended.  For every simply supported beam and load, in every number
    system, each recorded deflection is the raw value
    [-(w x / (24 EI)) (L^3 - 2 L x^2 + x^3) j2 1000] at the recorded
    position, multiplied by [1e9] and then rounded to one decimal.  For the
    beam of the scenario under load 10 the run ends in binary64 with nine
    samples. *)
Theorem simplySupported_deflection_samples :
  (forall (num : Type) (N : JSNumber num)
          (fuel : nat) (beam : Beam num) (load : num) (eq : Equation num),
      let L := primarySpan beam in
      let EI := EI (properties (material beam)) in
      let j2 := j2 (properties (material beam)) in
      let V (x : num) :=
        - ((load * x) / (lit 24 * EI))
        * (L ^ 3 - lit 2 * L * x ^ 2 + x ^ 3) * j2 * lit 1000 in
      simplySupported.getDeflectionEquation fuel beam load = Some eq ->
      y eq = map (fun x => toFixed1 (V x * lit 1e9)) (x eq))
  /\ simplySupported.getDeflectionEquation 10 (scenario_beam 8 0) (lit 10 : float)
     = Some {| x := map lit [0; 1; 2; 3; 4; 5; 6; 7; 8]%Q;
               y := map lit [0; -986111.1; -1809523.8; -2351190.5; -2539682.5;
                             -2351190.5; -1809523.8; -986111.1; 0]%Q |}.
Proof.
  split; [|vm_compute; reflexivity].
  intros num N fuel beam load eq L EI j2 V Hrun.
  apply forLoop_sampled in Hrun. rewrite Hrun. reflexivity.
Qed.

Lemma simplySupported_deflection_samples_witness :
  let eq := {| x := map lit [0; 1; 2; 3; 4; 5; 6; 7; 8]%Q;
               y := map lit [0; -986111.1; -1809523.8; -2351190.5; -2539682.5;
                             -2351190.5; -1809523.8; -986111.1; 0]%Q |} in
  simplySupported.getDeflectionEquation 10 (scenario_beam 8 0) (lit 10 : float)
  = Some eq
  /\ y eq
     = map (fun x =>
              toFixed1 (- ((lit 10 * x) / (lit 24 * lit 210000000))
                        * (lit 8 ^ 3 - lit 2 * lit 8 * x ^ 2 + x ^ 3)
                        * lit 1 * lit 1000 * lit 1e9))
           (x eq).
Proof.
  cbv zeta. split; [vm_compute; reflexivity|].
  apply (proj1 simplySupported_deflection_samples float _ 10%nat
               (scenario_beam 8 0) (lit 10)).
  vm_compute; reflexivity.
Defined.

(** C7, in binary64.  Ten additions of the step [7 / 10] give
    7.000000000000001, which is not [<= 7]: for a span of 7 the moment and
    shear loops end after ten samples, the last at 6.3.  In the same way the
    two-span loops end after 1000 samples for spans 1 and 1, and the
    deflection loop after eight for a span of 0.7. *)
Theorem sample_count_binary64 :
  position 10 (lit 0) (lit 7 / lit 10) = 0x1.c000000000001p+2%float
  /\ (position 10 (lit 0) (lit 7 / lit 10) <=? lit 7) = false
  /\ simplySupported.getBendingMomentEquation 12 (scenario_beam 7 0) (lit 10 : float)
     = Some {| x := map lit [0; 0.7; 1.4; 2.1; 2.8; 3.5; 4.2; 4.9; 5.6; 6.3]%Q;
               y := map lit [0; -22.1; -39.2; -51.5; -58.8; -61.3;
                             -58.8; -51.4; -39.2; -22.1]%Q |}
  /\ option_map (fun eq => List.length (x eq))
       (simplySupported.getShearForceEquation 12 (scenario_beam 7 0) (lit 10 : float))
     = Some 10%nat
  /\ option_map (fun eq => List.length (x eq))
       (simplySupported.getDeflectionEquation 10 (scenario_beam 0.7 0) (lit 10 : float))
     = Some 8%nat
  /\ option_map (fun eq => List.length (x eq))
       (twoSpanUnequal.getDeflectionEquation 1002 (scenario_beam 1 1) (lit 10 : float))
     = Some 1000%nat
  /\ option_map (fun eq => List.length (x eq))
       (twoSpanUnequal.getBendingMomentEquation 1002 (scenario_beam 1 1) (lit 10 : float))
     = Some 1000%nat
  /\ option_map (fun eq => List.length (x eq))
       (twoSpanUnequal.getShearForceEquation 1002 (scenario_beam 1 1) (lit 10 : float))
     = Some 1000%nat.
Proof. repeat split; vm_compute; reflexivity. Qed.
End SimplySupported.

(** ** The facade *)

Section FacadeFacts.
Context {num : Type} `{JSNumber num}.
Import BeamAnalysis.

(** A registered condition reaches its analyzer: the operation returns
    [{beam, load, equation}] with the beam and the load it was given, as soon
    as the equation method returns. *)
Lemma dispatch_registered
      (method : Analyzer -> nat -> Beam num -> num -> option (Equation num))
      (fuel : nat) (beam : Beam num) (load : num) :
  dispatch method fuel beam load "simply-supported"
  = match method new_simplySupported fuel beam load with
    | Some equation => Return (Build_Result beam load equation)
    | None => OutOfFuel
    end
  /\ dispatch method fuel beam load "two-span-unequal"
     = match method new_twoSpanUnequal fuel beam load with
       | Some equation => Return (Build_Result beam load equation)
       | None => OutOfFuel
       end.
Proof.
  unfold dispatch. cbn [get analyzer find fst snd String.eqb]. cbn.
  split; destruct (method _ fuel beam load); reflexivity.
Qed.

Lemma get_analyzer_cases (condition : string) :
  (condition = "simply-supported"%string
   /\ get analyzer condition = AnalyzerObject new_simplySupported)
  \/ (condition = "two-span-unequal"%string
      /\ get analyzer condition = AnalyzerObject new_twoSpanUnequal)
  \/ (condition <> "simply-supported"%string
      /\ condition <> "two-span-unequal"%string
      /\ In condition ObjectPrototype
      /\ get analyzer condition = Inherited condition)
  \/ (condition <> "simply-supported"%string
      /\ condition <> "two-span-unequal"%string
      /\ ~ In condition ObjectPrototype
      /\ get analyzer condition = Undefined).
Proof.
  unfold get, analyzer. cbn [find fst snd].
  destruct (String.eqb_spec "simply-supported" condition) as [<- | Hn1];
    [left; split; reflexivity|].
  destruct (String.eqb_spec "two-span-unequal" condition) as [<- | Hn2];
    [right; left; split; reflexivity|].
  right; right.
  destruct (existsb (String.eqb condition) ObjectPrototype) eqn:E.
  - left. repeat split; try congruence.
    apply existsb_exists in E. destruct E as (k & Hk & Heq).
    apply String.eqb_eq in Heq. subst k. exact Hk.
  - right. repeat split; try congruence.
    intros Hin. assert (E' : existsb (String.eqb condition) ObjectPrototype = true).
    { apply existsb_exists. exists condition. split; [exact Hin | apply String.eqb_refl]. }
    congruence.
Qed.

(** The invalid-condition error is thrown exactly for the names that are
    neither registered nor inherited from [Object.prototype]; an inherited
    name passes the test [if (analyzer)] and the call of its missing
    equation method throws a TypeError. *)
Lemma dispatch_errors
      (method : Analyzer -> nat -> Beam num -> num -> option (Equation num))
      (fuel : nat) (beam : Beam num) (load : num) (condition : string) :
  (dispatch method fuel beam load condition = Throw (Error "Invalid condition")
   <-> condition <> "simply-supported"%string
       /\ condition <> "two-span-unequal"%string
       /\ ~ In condition ObjectPrototype)
  /\ (dispatch method fuel beam load condition = Throw TypeError
      <-> In condition ObjectPrototype).
Proof.
  assert (Hs : ~ In "simply-supported"%string ObjectPrototype)
    by (cbn; intuition discriminate).
  assert (Ht : ~ In "two-span-unequal"%string ObjectPrototype)
    by (cbn; intuition discriminate).
  unfold dispatch.
  destruct (get_analyzer_cases condition)
    as [[-> E] | [[-> E] | [(N1 & N2 & I & E) | (N1 & N2 & I & E)]]];
    rewrite E; cbn [truthy call].
  - destruct (method _ fuel beam load); split; split;
      intros X; try discriminate; try tauto; destruct X as [X _]; congruence.
  - destruct (method _ fuel beam load); split; split;
      intros X; try discriminate; try tauto; destruct X as [_ [X _]]; congruence.
  - split; split; intros X; try discriminate; try tauto.
  - split; split; intros X; try discriminate; try tauto.
Qed.

(** C9, at the names that [Object.prototype] lends to every object.  The
    conditions ["toString"], ["constructor"] and ["__proto__"] are not
    registered, yet no operation raises the invalid-condition error for
    them: each throws a TypeError.  The unregistered name ["three-span"]
    does raise the invalid-condition error. *)
Theorem facade_inherited_condition :
  forall (fuel : nat) (beam : Beam num) (load : num),
    getDeflection fuel beam load "toString" = Throw TypeError
    /\ getBendingMoment fuel beam load "constructor" = Throw TypeError
    /\ getShearForce fuel beam load "__proto__" = Throw TypeError
    /\ getDeflection fuel beam load "three-span" = Throw (Error "Invalid condition").
Proof. intros fuel beam load. repeat split. Qed.
End FacadeFacts.

(** ** The recorded positions *)

Section RecordedPositions.
Import Exact Binary64.
Local Open Scope js_scope.

(** In binary64, for the spans 4 and 6 of the worked example, the two-span
    moment equation records the position 0 twice in a row: the step is 0.01
    and the second loop position rounds to 0.0.  For a simply supported
    span of 0.04 all nine recorded positions of the deflection equation are
    0, so the last one is eight steps of 0.005 short of the span. *)
Lemma recorded_positions_counterexample :
  (exists eq,
      twoSpanUnequal.getBendingMomentEquation 1002 (scenario_beam 4 6) (lit 10 : float)
      = Some eq
      /\ List.length (x eq) = 1001%nat
      /\ nth 0 (x eq) (lit 0) = lit 0
      /\ nth 1 (x eq) (lit 0) = lit 0
      /\ (nth 0 (x eq) (lit 0) <? nth 1 (x eq) (lit 0)) = false)
  /\ (exists eq,
         simplySupported.getDeflectionEquation 10 (scenario_beam 0.04 0) (lit 10 : float)
         = Some eq
         /\ x eq = map lit [0; 0; 0; 0; 0; 0; 0; 0; 0]%Q
         /\ (lit 0.04 : float) / lit 8 = lit 0.005
         /\ (lit 0.005 <? lit 0.04 - last (x eq) (lit 0)) = true).
Proof.
  split; eexists; (split; [vm_compute; reflexivity|]);
    repeat split; vm_compute; reflexivity.
Qed.


Lemma Q_forLoop_rounded_ascending
      (sample : Q -> Q) (L : Q) (n : positive) (fuel : nat) :
  (0 < L)%Q -> (S (Pos.to_nat n) < fuel)%nat ->
  rounded_ascending L (forLoop fuel sample L (L / inject_Z (Zpos n))%Q 0%Q [] []).
Proof.
  intros HL Hfuel.
  destruct (Q_forLoop_facts sample n HL Hfuel)
    as (eq & Hrun & _ & _ & _ & Hsorted & Hhd & Hlast).
  exists eq. split; [assumption | split; [assumption | split; [assumption|]]].
  split; [assumption|].
  rewrite Hlast. apply Q_toFixed1_close; lra.
Qed.

(** C8, amended.  With exact arithmetic, for a beam with positive span(s)
    and any load, each of the six equation methods returns positions that
    never decrease, start at 0 and end at the total length rounded to one
    decimal, which is within 0.05 of the total length.  The binary64 runs
    for the spans 4 and 6 and for the span 0.04 are of this kind. *)
Theorem positions_rounded_ascending :
  forall (beam : Beam Q) (load : Q) (fuel : nat),
    ((0 < primarySpan beam)%Q -> (11 < fuel)%nat ->
     let L := primarySpan beam in
     rounded_ascending L (simplySupported.getDeflectionEquation fuel beam load)
     /\ rounded_ascending L (simplySupported.getBendingMomentEquation fuel beam load)
     /\ rounded_ascending L (simplySupported.getShearForceEquation fuel beam load))
    /\ ((0 < primarySpan beam)%Q -> (0 < secondarySpan beam)%Q -> (1001 < fuel)%nat ->
        let T := (primarySpan beam + secondarySpan beam)%Q in
        rounded_ascending T (twoSpanUnequal.getDeflectionEquation fuel beam load)
        /\ rounded_ascending T (twoSpanUnequal.getBendingMomentEquation fuel beam load)
        /\ rounded_ascending T (twoSpanUnequal.getShearForceEquation fuel beam load))
    /\ option_map (fun eq => (ascendingb (x eq), hd (lit 0) (x eq), last (x eq) (lit 0)))
         (twoSpanUnequal.getBendingMomentEquation
            1002 (scenario_beam 4 6) (lit 10 : float))
       = Some (true, lit 0, lit 10)
    /\ option_map (fun eq => (ascendingb (x eq), hd (lit 0) (x eq), last (x eq) (lit 0)))
         (simplySupported.getDeflectionEquation
            10 (scenario_beam 0.04 0) (lit 10 : float))
       = Some (true, lit 0, toFixed1 (lit 0.04)).
Proof.
  intros beam load fuel.
  split; [|split; [|split; vm_compute; reflexivity]].
  - intros HL Hfuel L.
    assert (H8 : (S (Pos.to_nat 8) < fuel)%nat) by (simpl; lia).
    assert (H10 : (S (Pos.to_nat 10) < fuel)%nat) by (simpl; lia).
    split; [|split].
    + apply (Q_forLoop_rounded_ascending _ 8 HL H8).
    + apply (Q_forLoop_rounded_ascending _ 10 HL H10).
    + apply (Q_forLoop_rounded_ascending _ 10 HL H10).
  - intros H1 H2 Hfuel T.
    assert (HT : (0 < T)%Q) by (unfold T; lra).
    assert (Hn : (S (Pos.to_nat 1000) < fuel)%nat) by lia.
    split; [|split]; apply (Q_forLoop_rounded_ascending _ 1000 HT Hn).
Qed.

Lemma positions_rounded_ascending_witness :
  (0 < 8)%Q /\ (11 < 12)%nat
  /\ rounded_ascending 8
       (simplySupported.getShearForceEquation 12 (scenario_beam 8 0) (lit 10 : Q)).
Proof.
  split; [reflexivity | split; [lia|]].
  assert (HL : (0 < primarySpan (scenario_beam 8 0 : Beam Q))%Q) by reflexivity.
  assert (Hfuel : (11 < 12)%nat) by lia.
  exact (proj2 (proj2 (proj1 (positions_rounded_ascending
                                (scenario_beam 8 0) 10%Q 12) HL Hfuel))).
Defined.
End RecordedPositions.

(** ** The two-span analyzer samples at the rounded positions *)

Section RoundedSampling.
Context {num : Type} `{JSNumber num}.
Local Open Scope js_scope.


Lemma forLoop_recorded_at_rounded fuel sample limit step i eq :
  forLoop fuel sample limit step i [] [] = Some eq ->
  recorded_at_rounded sample eq.
Proof.
  intros Hrun. split;
    [eapply forLoop_rounded | eapply forLoop_sampled]; exact Hrun.
Qed.

Lemma nth_map_in (A B : Type) (f : A -> B) (l : list A) (k : nat) (dA : A) (dB : B) :
  (k < List.length l)%nat -> nth k (map f l) dB = f (nth k l dA).
Proof.
  intros Hk. rewrite (nth_indep _ dB (f dA)) by (rewrite length_map; exact Hk).
  apply map_nth.
Qed.

(** Equal recorded positions carry equal recorded values. *)
Lemma recorded_at_rounded_repeats sample eq (j k : nat) (d : num) :
  recorded_at_rounded sample eq ->
  (j < List.length (x eq))%nat -> (k < List.length (x eq))%nat ->
  nth j (x eq) d = nth k (x eq) d -> nth j (y eq) d = nth k (y eq) d.
Proof.
  intros [_ Hy] Hj Hk Hx. rewrite Hy.
  rewrite (nth_map_in sample _ d d Hj), (nth_map_in sample _ d d Hk), Hx.
  reflexivity.
Qed.
(** The first two samples of a run that has recorded at least two. *)
Lemma forLoop_first_two fuel sample limit step i eq (d : num) :
  forLoop fuel sample limit step i [] [] = Some eq ->
  (1 < List.length (x eq))%nat ->
  (i <=? limit) = true
  /\ nth 0 (x eq) d = toFixed1 i
  /\ nth 1 (x eq) d = toFixed1 (i + step)
  /\ nth 0 (y eq) d = sample (toFixed1 i)
  /\ nth 1 (y eq) d = sample (toFixed1 (i + step)).
Proof.
  intros Hrun Hlen. apply forLoop_Some in Hrun.
  destruct Hrun as (k & _ & Hin & _ & Hx & Hy). cbn [app] in Hx, Hy.
  rewrite Hx, length_map, positions_length in Hlen.
  destruct k as [|[|k]]; try lia.
  rewrite Hx, Hy. cbn [positions map nth].
  split; [apply (Hin 0%nat); lia | repeat split].
Qed.
End RoundedSampling.

Section TwoSpanUnequal.
Import Exact Binary64.
Local Open Scope js_scope.


Lemma Q_forLoop_repeats (sample : Q -> Q) (L : Q) (n : positive) (fuel : nat) :
  (0 < L)%Q -> (L / inject_Z (Zpos n) < 1 # 20)%Q ->
  (S (Pos.to_nat n) < fuel)%nat ->
  repeats_at_start (forLoop fuel sample L (L / inject_Z (Zpos n))%Q 0%Q [] []).
Proof.
  intros HL Hstep Hfuel.
  assert (Hs : (0 <= L / inject_Z (Zpos n))%Q).
  { apply Qle_shift_div_l; [reflexivity | lra]. }
  exists {| x := map Q_toFixed1 (positions (S (Pos.to_nat n)) 0%Q (L / inject_Z (Zpos n))%Q);
            y := map sample
                   (map Q_toFixed1
                      (positions (S (Pos.to_nat n)) 0%Q (L / inject_Z (Zpos n))%Q)) |}.
  split; [apply Q_forLoop_exact; assumption|]. cbn [x y].
  pose proof (Pos2Nat.is_pos n) as Hn.
  destruct (Pos.to_nat n) as [|m]; [lia|].
  cbn [positions map nth]. split; [cbn [List.length]; lia|].
  assert (E0 : Q_toFixed1 0 = 0%Q) by reflexivity.
  assert (E1 : Q_toFixed1 (0 + L / inject_Z (Zpos n))%Q = 0%Q)
    by (apply Q_toFixed1_zero; lra).
  change (0%Q + (L / inject_Z (Zpos n))%Q) with (0 + L / inject_Z (Zpos n))%Q.
  rewrite E0, E1. split; reflexivity.
Qed.

(** In binary64, a run with a step below 0.05 that has recorded two samples
    has recorded the position 0 twice. *)
Lemma float_forLoop_repeats
      (fuel : nat) (sample : float -> float) (T : float) (eq : Equation float) :
  forLoop fuel sample T (T / lit 1000) (lit 0) [] [] = Some eq ->
  (T / lit 1000 <? lit 0.05) = true ->
  (1 < List.length (x eq))%nat ->
  first_two_coincide eq.
Proof.
  intros Hrun Hstep Hlen.
  destruct (@forLoop_first_two _ _ fuel sample T (T / lit 1000) (lit 0) eq (lit 0)
                               Hrun Hlen)
    as (H0 & Hx0 & Hx1 & Hy0 & Hy1).
  pose proof (@float_second_position T H0 Hstep) as E1.
  assert (E0 : toFixed1 (lit 0 : float) = lit 0) by reflexivity.
  unfold first_two_coincide. rewrite Hx0, Hx1, Hy0, Hy1, E0, E1.
  split; reflexivity.
Qed.

(** C10.  In every number system, each of the three two-span equation
    methods records rounded positions and, with each, the piecewise
    evaluator at that rounded position (for the deflection times [1e9]),
    rounded; so the bending moment recorded with a position that is [===] to
    0 or to the total length is the rounded 0, and equal recorded positions
    carry equal recorded values.  With exact arithmetic, for
    a positive total length [L1 + L2] whose step [(L1 + L2) / 1000] is below
    0.05, each method returns, and its first two positions coincide, with
    equal values; in binary64 they coincide whenever the step is below 0.05
    and the method has returned two samples or more.  In binary64, for
    spans 4 and 6 under load 10, the bending moments recorded at the samples
    396 and 996 are those of the rounded positions 4 and 10, namely 35 and
    0, where the loop variable is below 3.97 and 9.97. *)
Theorem twoSpanUnequal_samples :
  (forall (num : Type) (N : JSNumber num)
          (fuel : nat) (beam : Beam num) (load : num) (eq : Equation num),
      let L1 := primarySpan beam in
      let L2 := secondarySpan beam in
      let T := L1 + L2 in
      let EI := EI (properties (material beam)) in
      let j2 := j2 (properties (material beam)) in
      let s := twoSpanUnequal.calculateSupports L1 L2 load in
      let deflection v :=
        toFixed1 (twoSpanUnequal.calculateDeflectionValue
                    v L1 L2 EI j2 (R1 s) (R2 s) (R3 s) load * lit 1e9) in
      let moment v :=
        toFixed1 (twoSpanUnequal.calculateBendingMomentValue v L1 T (R1 s) (R2 s) load) in
      let shear v :=
        toFixed1 (twoSpanUnequal.calculateShearForceValue v L1 (R1 s) (R2 s) load) in
      (twoSpanUnequal.getDeflectionEquation fuel beam load = Some eq ->
       recorded_at_rounded deflection eq)
      /\ (twoSpanUnequal.getBendingMomentEquation fuel beam load = Some eq ->
          recorded_at_rounded moment eq
          /\ forall k, (k < List.length (x eq))%nat ->
               (nth k (x eq) (lit 0) === lit 0) || (nth k (x eq) (lit 0) === T) = true ->
               nth k (y eq) (lit 0) = toFixed1 (lit 0))
      /\ (twoSpanUnequal.getShearForceEquation fuel beam load = Some eq ->
          recorded_at_rounded shear eq))
  /\ (forall (num : Type) (N : JSNumber num) (sample : num -> num)
             (eq : Equation num) (j k : nat) (d : num),
         recorded_at_rounded sample eq ->
         (j < List.length (x eq))%nat -> (k < List.length (x eq))%nat ->
         nth j (x eq) d = nth k (x eq) d -> nth j (y eq) d = nth k (y eq) d)
  /\ (forall (beam : Beam Q) (load : Q) (fuel : nat),
         (0 < primarySpan beam + secondarySpan beam)%Q ->
         ((primarySpan beam + secondarySpan beam) / 1000 < 0.05)%Q ->
         (1001 < fuel)%nat ->
         repeats_at_start (twoSpanUnequal.getDeflectionEquation fuel beam load)
         /\ repeats_at_start (twoSpanUnequal.getBendingMomentEquation fuel beam load)
         /\ repeats_at_start (twoSpanUnequal.getShearForceEquation fuel beam load))
  /\ (forall (beam : Beam float) (load : float) (fuel : nat) (eq : Equation float),
         ((primarySpan beam + secondarySpan beam) / lit 1000 <? lit 0.05) = true ->
         (1 < List.length (x eq))%nat ->
         (twoSpanUnequal.getDeflectionEquation fuel beam load = Some eq ->
          first_two_coincide eq)
         /\ (twoSpanUnequal.getBendingMomentEquation fuel beam load = Some eq ->
             first_two_coincide eq)
         /\ (twoSpanUnequal.getShearForceEquation fuel beam load = Some eq ->
             first_two_coincide eq))
  /\ (exists eq,
         twoSpanUnequal.getBendingMomentEquation 1002 (scenario_beam 4 6) (lit 10 : float)
         = Some eq
         /\ firstn 6 (x eq) = map lit [0; 0; 0; 0; 0; 0.1]%Q
         /\ firstn 5 (y eq) = map lit [0; 0; 0; 0; 0]%Q
         /\ (position 396 (lit 0) (lit 10 / lit 1000) <? lit 3.97) = true
         /\ nth 396 (x eq) (lit 0) = lit 4 /\ nth 396 (y eq) (lit 0) = lit 35
         /\ (position 996 (lit 0) (lit 10 / lit 1000) <? lit 9.97) = true
         /\ nth 996 (x eq) (lit 0) = lit 10 /\ nth 996 (y eq) (lit 0) = lit 0).
Proof.
  split; [|split; [|split; [|split]]].
  - intros num N fuel beam load eq L1 L2 T EI j2 s deflection moment shear.
    split; [|split]; intros Hrun.
    + exact (forLoop_recorded_at_rounded _ _ _ _ _ Hrun).
    + pose proof (forLoop_recorded_at_rounded _ _ _ _ _ Hrun) as Hrec.
      split; [exact Hrec|]. intros k Hk Hend.
      destruct Hrec as [_ Hy]. rewrite Hy.
      rewrite (nth_map_in _ _ (lit 0) (lit 0) Hk).
      unfold twoSpanUnequal.calculateBendingMomentValue.
      fold L1 L2 T. rewrite Hend. reflexivity.
    + exact (forLoop_recorded_at_rounded _ _ _ _ _ Hrun).
  - intros num N sample eq j k d. apply recorded_at_rounded_repeats.
  - intros beam load fuel HT Hstep Hfuel.
    assert (Hn : (S (Pos.to_nat 1000) < fuel)%nat) by lia.
    assert (Hs : ((primarySpan beam + secondarySpan beam) / inject_Z 1000 < 1 # 20)%Q)
      by (change (inject_Z 1000) with 1000%Q; lra).
    split; [|split]; apply (@Q_forLoop_repeats _ _ 1000 fuel HT Hs Hn).
  - intros beam load fuel eq Hstep Hlen.
    split; [|split]; intros Hrun;
      exact (@float_forLoop_repeats fuel _ _ eq Hrun Hstep Hlen).
  - eexists. split; [vm_compute; reflexivity|].
    repeat split; vm_compute; reflexivity.
Qed.

Lemma twoSpanUnequal_samples_witness :
  (0 < 4 + 6)%Q /\ ((4 + 6) / 1000 < 0.05)%Q /\ (1001 < 1002)%nat
  /\ repeats_at_start
       (twoSpanUnequal.getBendingMomentEquation 1002 (scenario_beam 4 6) (lit 10 : Q)).
Proof.
  split; [reflexivity | split; [reflexivity | split; [lia|]]].
  assert (HT : (0 < primarySpan (scenario_beam 4 6 : Beam Q)
                    + secondarySpan (scenario_beam 4 6 : Beam Q))%Q) by reflexivity.
  assert (Hs : ((primarySpan (scenario_beam 4 6 : Beam Q)
                 + secondarySpan (scenario_beam 4 6 : Beam Q)) / 1000 < 0.05)%Q)
    by reflexivity.
  assert (Hfuel : (1001 < 1002)%nat) by lia.
  exact (proj1 (proj2 (proj1 (proj2 (proj2 twoSpanUnequal_samples))
                             (scenario_beam 4 6) 10%Q 1002%nat HT Hs Hfuel))).
Defined.
End TwoSpanUnequal.

(** ** More on the sampling loop, in every number system *)

Section LoopEdges.
Context {num : Type} `{JSNumber num}.
Local Open Scope js_scope.

(** The positions that a run records do not depend on what is sampled. *)
Lemma forLoop_positions fuel (s1 s2 : num -> num) limit step :
  forall i xs v1 v2,
    option_map (@x num) (forLoop fuel s1 limit step i xs v1)
    = option_map (@x num) (forLoop fuel s2 limit step i xs v2).
Proof.
  induction fuel as [|fuel IH]; intros i xs v1 v2; simpl; [reflexivity|].
  destruct (i <=? limit); [apply IH | reflexivity].
Qed.

Lemma forLoop_lengths fuel (sample : num -> num) limit step i :
  option_map (fun eq => List.length (x eq)) (forLoop fuel sample limit step i [] [])
  = option_map (fun eq => List.length (y eq)) (forLoop fuel sample limit step i [] []).
Proof.
  destruct (forLoop fuel sample limit step i [] []) as [eq|] eqn:Hrun; [|reflexivity].
  apply forLoop_sampled in Hrun. simpl. rewrite Hrun, length_map. reflexivity.
Qed.

(** A loop variable that never passes the limit uses up any fuel. *)
Lemma forLoop_None sample limit step :
  forall fuel i xs vs,
    (forall j, (position j i step <=? limit) = true) ->
    forLoop fuel sample limit step i xs vs = None.
Proof.
  induction fuel as [|fuel IH]; intros i xs vs Hin; simpl; [reflexivity|].
  pose proof (Hin O) as H0. simpl in H0. rewrite H0.
  apply IH. intros j. apply (Hin (S j)).
Qed.

Lemma forLoop_empty fuel sample limit step i :
  fuel <> O -> (i <=? limit) = false ->
  forLoop fuel sample limit step i [] [] = Some {| x := []; y := [] |}.
Proof.
  intros Hfuel Hout. destruct fuel as [|fuel]; [contradiction|].
  simpl. rewrite Hout. reflexivity.
Qed.

Lemma forLoop_first fuel sample limit step i eq :
  (i <=? limit) = true ->
  forLoop fuel sample limit step i [] [] = Some eq ->
  exists xs ys, x eq = toFixed1 i :: xs /\ y eq = sample (toFixed1 i) :: ys.
Proof.
  intros Hin Hrun. apply forLoop_Some in Hrun.
  destruct Hrun as (k & _ & _ & Hout & Hx & Hy).
  destruct k as [|k]; [simpl in Hout; congruence|].
  simpl in Hx, Hy. eauto.
Qed.

Lemma positions_nth (k : nat) :
  forall (j : nat) (i step d : num),
    (j < k)%nat -> nth j (positions k i step) d = position j i step.
Proof.
  induction k as [|k IH]; intros j i step d Hj; [lia|].
  destruct j as [|j]; [reflexivity|]. cbn [positions nth position].
  apply IH. lia.
Qed.

Lemma positions_In (k : nat) :
  forall (i step p : num),
    In p (positions k i step) -> exists j, (j < k)%nat /\ p = position j i step.
Proof.
  induction k as [|k IH]; intros i step p Hp; [contradiction|].
  destruct Hp as [<- | Hp].
  - exists O. split; [lia | reflexivity].
  - apply IH in Hp. destruct Hp as (j & Hj & ->).
    exists (S j). split; [lia | reflexivity].
Qed.
End LoopEdges.

Ltac each_equation :=
  unfold equations; repeat (apply Forall_cons); try (apply Forall_nil).

(** ** The six equation methods share their positions *)

Section SharedAxis.
Import BeamAnalysis.
Local Open Scope js_scope.

(** In every number system and for each of the six equation methods, a
    returned equation has as many values as positions. *)
Theorem equations_same_length :
  forall (num : Type) (N : JSNumber num) (fuel : nat) (beam : Beam num) (load : num),
    let same_length (r : option (Equation num)) :=
      option_map (fun eq => List.length (x eq)) r
      = option_map (fun eq => List.length (y eq)) r in
    Forall same_length (equations new_simplySupported fuel beam load)
    /\ Forall same_length (equations new_twoSpanUnequal fuel beam load).
Proof.
  intros num N fuel beam load same_length.
  split; each_equation; apply forLoop_lengths.
Qed.

(** In every number system the recorded positions depend on the spans
    only, not on the load, the material or the quantity: with the same fuel,
    the simply supported moment and shear methods end alike and with the
    same positions, as do the three two-span methods, and the simply
    supported deflection method for any two loads and materials. *)
Theorem positions_shared :
  forall (num : Type) (N : JSNumber num) (fuel : nat)
         (L1 L2 : num) (m m' : Material num) (load load' : num),
    let beam := {| primarySpan := L1; secondarySpan := L2; material := m |} in
    let beam' := {| primarySpan := L1; secondarySpan := L2; material := m' |} in
    option_map (@x num) (simplySupported.getDeflectionEquation fuel beam load)
    = option_map (@x num) (simplySupported.getDeflectionEquation fuel beam' load')
    /\ option_map (@x num) (simplySupported.getBendingMomentEquation fuel beam load)
       = option_map (@x num) (simplySupported.getShearForceEquation fuel beam' load')
    /\ option_map (@x num) (twoSpanUnequal.getDeflectionEquation fuel beam load)
       = option_map (@x num) (twoSpanUnequal.getBendingMomentEquation fuel beam' load')
    /\ option_map (@x num) (twoSpanUnequal.getBendingMomentEquation fuel beam load)
       = option_map (@x num) (twoSpanUnequal.getShearForceEquation fuel beam' load').
Proof.
  intros num N fuel L1 L2 m m' load load' beam beam'.
  repeat split; apply forLoop_positions.
Qed.
End SharedAxis.

(** ** Spans for which the loop does not start, or does not end *)

Section SpanEdgeFacts.
Import Exact Binary64.

Lemma Q_zero_step (L step : Q) :
  (L == 0)%Q -> (step == 0)%Q ->
  forall j, (position j (lit 0) step <=? L)%js = true.
Proof.
  intros HL Hs j. apply Q_leb_iff. rewrite Q_position, HL, Hs.
  cbn [lit Q_JSNumber]. ring_simplify. apply Qle_refl.
Qed.

Lemma Q_zero_span_step (L : Q) (n : positive) :
  (L == 0)%Q -> (L / inject_Z (Zpos n) == 0)%Q.
Proof. intros ->. reflexivity. Qed.

Local Open Scope js_scope.

(** [0 <= L] fails for the negative numbers and for [NaN]. *)
Lemma float_leb_false (L : float) :
  (lit 0 <=? L) = false <-> (L <? lit 0) = true \/ (L === L) = false.
Proof.
  rewrite float_ltb_spec, float_seqb_spec.
  change (lit 0 <=? L) with (PrimFloat.leb (lit 0) L).
  rewrite leb_spec, float_lit_0.
  change (Prim2SF PrimFloat.zero) with (S754_zero false).
  unfold SFleb, SFltb, SFeqb.
  destruct (Prim2SF L) as [[]|[]| |[] m e] eqn:E;
    try rewrite (@SFcompare_refl (S754_finite true m e)) by discriminate;
    try rewrite (@SFcompare_refl (S754_finite false m e)) by discriminate;
    cbn; split; intros; try tauto; try discriminate;
    try (destruct H as [H|H]; discriminate).
Qed.

Lemma float_leb_zero (L : float) : (L === lit 0) = true -> (lit 0 <=? L) = true.
Proof.
  rewrite float_seqb_spec, float_lit_0.
  change (PrimFloat.zero <=? L) with (PrimFloat.leb PrimFloat.zero L).
  rewrite leb_spec.
  change (Prim2SF PrimFloat.zero) with (S754_zero false).
  unfold SFeqb, SFleb.
  destruct (Prim2SF L) as [[]|[]| |[] m' e']; cbn; try discriminate; reflexivity.
Qed.

(** Adding a zero of either sign to [+0] gives [+0]. *)
Lemma float_add_zero (step : float) :
  (step === lit 0) = true -> lit 0 + step = lit 0.
Proof.
  rewrite float_seqb_spec, float_lit_0. intros Hs. apply Prim2SF_inj.
  change (PrimFloat.zero + step) with (PrimFloat.add PrimFloat.zero step).
  rewrite add_spec.
  change (Prim2SF PrimFloat.zero) with (S754_zero false) in *.
  unfold SFeqb in Hs.
  destruct (Prim2SF step) as [[]|[]| |[] m e]; cbn in Hs |- *;
    try discriminate; reflexivity.
Qed.

Lemma float_div_zero (L d : float) (m : positive) (e : Z) :
  Prim2SF d = S754_finite false m e ->
  (L === lit 0) = true -> (L / d === lit 0) = true.
Proof.
  intros Hd. rewrite !float_seqb_spec, float_lit_0.
  change (L / d) with (PrimFloat.div L d). rewrite div_spec, Hd.
  change (Prim2SF PrimFloat.zero) with (S754_zero false).
  unfold SFeqb.
  destruct (Prim2SF L) as [[]|[]| |[] m' e']; cbn; try discriminate; reflexivity.
Qed.

Lemma float_zero_step (L step : float) :
  (lit 0 <=? L) = true -> (step === lit 0) = true ->
  forall j, (position j (lit 0) step <=? L) = true.
Proof.
  intros HL Hs. apply float_add_zero in Hs.
  assert (E : forall j, position j (lit 0) step = lit 0).
  { induction j as [|j IH]; [reflexivity|]. cbn [position]. rewrite Hs. exact IH. }
  intros j. rewrite E. exact HL.
Qed.

Lemma float_infinite_span (n : Q) :
  (infinity / lit n)%js = infinity ->
  forall j, (position j (lit 0) (infinity / lit n) <=? infinity) = true.
Proof.
  intros ->.
  assert (E : forall j, position j infinity infinity = infinity).
  { induction j as [|j IH]; [reflexivity|]. cbn [position].
    change (infinity + infinity) with infinity. exact IH. }
  intros [|j]; [reflexivity|]. cbn [position].
  change (lit 0 + infinity) with infinity. rewrite E. reflexivity.
Qed.
End SpanEdgeFacts.

Section SpanEdges.
Import BeamAnalysis Exact Binary64.
Local Open Scope js_scope.

Lemma equations_empty (num : Type) (N : JSNumber num)
      (fuel : nat) (beam : Beam num) (load : num) :
  fuel <> O ->
  ((lit 0 <=? primarySpan beam) = false ->
   Forall (fun r => r = Some {| x := []; y := [] |})
          (equations new_simplySupported fuel beam load))
  /\ ((lit 0 <=? primarySpan beam + secondarySpan beam) = false ->
      Forall (fun r => r = Some {| x := []; y := [] |})
             (equations new_twoSpanUnequal fuel beam load)).
Proof.
  intros Hfuel. split; intros Hout; each_equation;
    apply forLoop_empty; assumption.
Qed.

Lemma equations_start (num : Type) (N : JSNumber num)
      (fuel : nat) (beam : Beam num) (load : num) :
  toFixed1 (lit 0) = lit 0 ->
  ((lit 0 <=? primarySpan beam) = true ->
   Forall starts_at_zero (equations new_simplySupported fuel beam load))
  /\ ((lit 0 <=? primarySpan beam + secondarySpan beam) = true ->
      Forall starts_at_zero (equations new_twoSpanUnequal fuel beam load)).
Proof.
  intros H0. split; intros Hin; each_equation; intros eq Hrun;
    destruct (@forLoop_first _ _ _ _ _ _ _ _ Hin Hrun) as (xs & ys & Hx & _);
    rewrite H0 in Hx; eauto.
Qed.

Lemma equations_hang (num : Type) (N : JSNumber num)
      (fuel : nat) (beam : Beam num) (load : num) :
  let L := primarySpan beam in
  let T := primarySpan beam + secondarySpan beam in
  ((forall j, (position j (lit 0) (L / lit 8) <=? L) = true) ->
   (forall j, (position j (lit 0) (L / lit 10) <=? L) = true) ->
   Forall (fun r => r = None) (equations new_simplySupported fuel beam load))
  /\ ((forall j, (position j (lit 0) (T / lit 1000) <=? T) = true) ->
      Forall (fun r => r = None) (equations new_twoSpanUnequal fuel beam load)).
Proof.
  intros L T. split; [intros H8 H10 | intros H1000]; each_equation;
    apply forLoop_None; assumption.
Qed.

(** The loop test [0 <= span] decides whether there is a first sample.
    For a span (a total length, for two spans) that is negative, or [NaN] in
    binary64, each of the six methods returns the empty equation
    [{x: [], y: []}]; for any other span a returned equation starts at
    position 0.  With exact arithmetic and in binary64. *)
Theorem span_below_zero_no_samples :
  (forall (beam : Beam Q) (load : Q) (fuel : nat),
      fuel <> O ->
      ((primarySpan beam < 0)%Q ->
       Forall (fun r => r = Some {| x := []; y := [] |})
              (equations new_simplySupported fuel beam load))
      /\ ((primarySpan beam + secondarySpan beam < 0)%Q ->
          Forall (fun r => r = Some {| x := []; y := [] |})
                 (equations new_twoSpanUnequal fuel beam load)))
  /\ (forall (beam : Beam float) (load : float) (fuel : nat),
         let L := primarySpan beam in
         let T := primarySpan beam + secondarySpan beam in
         fuel <> O ->
         ((L <? lit 0) = true \/ (L === L) = false ->
          Forall (fun r => r = Some {| x := []; y := [] |})
                 (equations new_simplySupported fuel beam load))
         /\ ((T <? lit 0) = true \/ (T === T) = false ->
             Forall (fun r => r = Some {| x := []; y := [] |})
                    (equations new_twoSpanUnequal fuel beam load)))
  /\ (forall (beam : Beam Q) (load : Q) (fuel : nat),
         ((0 <= primarySpan beam)%Q ->
          Forall starts_at_zero (equations new_simplySupported fuel beam load))
         /\ ((0 <= primarySpan beam + secondarySpan beam)%Q ->
             Forall starts_at_zero (equations new_twoSpanUnequal fuel beam load)))
  /\ (forall (beam : Beam float) (load : float) (fuel : nat),
         ((lit 0 <=? primarySpan beam) = true ->
          Forall starts_at_zero (equations new_simplySupported fuel beam load))
         /\ ((lit 0 <=? primarySpan beam + secondarySpan beam) = true ->
             Forall starts_at_zero (equations new_twoSpanUnequal fuel beam load))).
Proof.
  split; [|split; [|split]].
  - intros beam load fuel Hfuel.
    destruct (@equations_empty _ _ fuel beam load Hfuel) as [H1 H2].
    split; intros Hneg; [apply H1 | apply H2]; apply Q_leb_false_iff; exact Hneg.
  - intros beam load fuel L T Hfuel.
    destruct (@equations_empty _ _ fuel beam load Hfuel) as [H1 H2].
    split; intros Hneg; [apply H1 | apply H2]; apply float_leb_false; exact Hneg.
  - intros beam load fuel.
    assert (E0 : toFixed1 (lit 0 : Q) = lit 0) by (vm_compute; reflexivity).
    destruct (@equations_start Q _ fuel beam load E0) as [H1 H2].
    split; intros Hpos; [apply H1 | apply H2]; apply Q_leb_iff; exact Hpos.
  - intros beam load fuel.
    assert (E0 : toFixed1 (lit 0 : float) = lit 0) by (vm_compute; reflexivity).
    exact (@equations_start float _ fuel beam load E0).
Qed.

Lemma span_below_zero_no_samples_witness :
  Forall (fun r => r = Some {| x := []; y := [] |})
         (equations new_simplySupported 1 (scenario_beam (-1) 0) (lit 10 : float))
  /\ Forall (fun r => r = Some {| x := []; y := [] |})
            (equations new_twoSpanUnequal 1 (scenario_beam 4 (-6)) (lit 10 : Q)).
Proof.
  assert (Hfuel : 1%nat <> O) by discriminate.
  split.
  - assert (Hneg : ((lit (-1) : float) <? lit 0) = true
                   \/ ((lit (-1) : float) === lit (-1)) = false)
      by (left; vm_compute; reflexivity).
    exact (proj1 (proj1 (proj2 span_below_zero_no_samples)
                        (scenario_beam (-1) 0) (lit 10) 1%nat Hfuel) Hneg).
  - assert (Hneg : (primarySpan (scenario_beam 4 (-6) : Beam Q)
                    + secondarySpan (scenario_beam 4 (-6) : Beam Q) < 0)%Q)
      by reflexivity.
    exact (proj2 (proj1 span_below_zero_no_samples
                        (scenario_beam 4 (-6)) (lit 10) 1%nat Hfuel) Hneg).
Defined.

(** A step of zero never passes the limit: the loops do not end, whatever
    the fuel.  With exact arithmetic this is the span 0 (a total length of
    0, for two spans).  In binary64 it is the span [+0] or [-0], an infinite
    span (whose step is infinite, and [Infinity <= Infinity]), and any span
    so small that the step [span / 8], [span / 10] or [total / 1000] rounds
    to zero. *)
Theorem zero_step_never_returns :
  (forall (beam : Beam Q) (load : Q) (fuel : nat),
      ((primarySpan beam == 0)%Q ->
       Forall (fun r => r = None) (equations new_simplySupported fuel beam load))
      /\ ((primarySpan beam + secondarySpan beam == 0)%Q ->
          Forall (fun r => r = None) (equations new_twoSpanUnequal fuel beam load)))
  /\ (forall (beam : Beam float) (load : float) (fuel : nat),
         let L := primarySpan beam in
         let T := primarySpan beam + secondarySpan beam in
         ((L === lit 0) = true \/ L = infinity ->
          Forall (fun r => r = None) (equations new_simplySupported fuel beam load))
         /\ ((T === lit 0) = true \/ T = infinity ->
             Forall (fun r => r = None) (equations new_twoSpanUnequal fuel beam load))
         /\ ((lit 0 <=? L) = true -> (L / lit 8 === lit 0) = true ->
             simplySupported.getDeflectionEquation fuel beam load = None)
         /\ ((lit 0 <=? L) = true -> (L / lit 10 === lit 0) = true ->
             simplySupported.getBendingMomentEquation fuel beam load = None
             /\ simplySupported.getShearForceEquation fuel beam load = None)
         /\ ((lit 0 <=? T) = true -> (T / lit 1000 === lit 0) = true ->
             Forall (fun r => r = None) (equations new_twoSpanUnequal fuel beam load))).
Proof.
  split.
  - intros beam load fuel.
    destruct (@equations_hang _ _ fuel beam load) as [H1 H2].
    split; intros H0.
    + apply H1; apply Q_zero_step; try exact H0; apply Q_zero_span_step, H0.
    + apply H2; apply Q_zero_step; try exact H0.
      apply (@Q_zero_span_step _ 1000%positive), H0.
  - intros beam load fuel L T.
    destruct (@equations_hang _ _ fuel beam load) as [H1 H2]. subst L T.
    split; [|split; [|split; [|split]]].
    + intros [H0 | E].
      * apply H1; (apply float_zero_step; [apply float_leb_zero, H0|]);
          eapply float_div_zero; try exact H0; reflexivity.
      * apply H1; rewrite E; apply float_infinite_span; reflexivity.
    + intros [H0 | E].
      * apply H2. apply float_zero_step; [apply float_leb_zero, H0|].
        eapply float_div_zero; try exact H0; reflexivity.
      * apply H2. rewrite E. apply float_infinite_span. reflexivity.
    + intros H0 Hs. apply forLoop_None. apply float_zero_step; assumption.
    + intros H0 Hs. split; apply forLoop_None; apply float_zero_step; assumption.
    + intros H0 Hs. apply H2. apply float_zero_step; assumption.
Qed.

(** The smallest positive binary64 number as a span: an eighth of it rounds
    to zero.  And two spans that cancel, with exact arithmetic. *)
Lemma zero_step_never_returns_witness :
  simplySupported.getDeflectionEquation
    1000 {| primarySpan := 0x1p-1074%float; secondarySpan := lit 0;
            material := scenario_material |} (lit 10) = None
  /\ Forall (fun r => r = None)
            (equations new_twoSpanUnequal 1000 (scenario_beam 4 (-4)) (lit 10 : Q)).
Proof.
  split.
  - set (beam := {| primarySpan := 0x1p-1074%float; secondarySpan := lit 0;
                    material := scenario_material |}).
    assert (H0 : (lit 0 <=? primarySpan beam) = true) by (vm_compute; reflexivity).
    assert (Hs : (primarySpan beam / lit 8 === lit 0) = true)
      by (vm_compute; reflexivity).
    exact (proj1 (proj2 (proj2 (proj2 zero_step_never_returns
                                      beam (lit 10) 1000%nat)))
                 H0 Hs).
  - assert (H0 : (primarySpan (scenario_beam 4 (-4) : Beam Q)
                  + secondarySpan (scenario_beam 4 (-4) : Beam Q) == 0)%Q)
      by reflexivity.
    exact (proj2 (proj1 zero_step_never_returns
                        (scenario_beam 4 (-4)) (lit 10) 1000%nat) H0).
Defined.
End SpanEdges.

(** ** The first sample in binary64 *)

Section FirstSample.
Import Binary64.
Local Open Scope js_scope.

Lemma float_mul_zero (a b : float) :
  isFinite a = true -> isZero b = true -> isZero (a * b) = true.
Proof.
  unfold isFinite, isZero. change (a * b) with (PrimFloat.mul a b).
  rewrite mul_spec.
  destruct (Prim2SF a) as [[]|[]| |[] m e], (Prim2SF b) as [[]|[]| |[] m' e'];
    try discriminate; reflexivity.
Qed.

Lemma float_zero_mul (a b : float) :
  isZero a = true -> isFinite b = true -> isZero (a * b) = true.
Proof.
  unfold isFinite, isZero. change (a * b) with (PrimFloat.mul a b).
  rewrite mul_spec.
  destruct (Prim2SF a) as [[]|[]| |[] m e], (Prim2SF b) as [[]|[]| |[] m' e'];
    try discriminate; reflexivity.
Qed.

Lemma float_zero_div (a d : float) (m : positive) (e : Z) :
  Prim2SF d = S754_finite false m e -> isZero a = true -> isZero (a / d) = true.
Proof.
  unfold isZero. change (a / d) with (PrimFloat.div a d).
  rewrite div_spec. intros ->.
  destruct (Prim2SF a) as [[]|[]| |[] m' e']; try discriminate; reflexivity.
Qed.

(** [a - 0] is [a], for every [a]. *)
Lemma float_sub_zero (a : float) : a - lit 0 = a.
Proof.
  apply Prim2SF_inj. change (a - lit 0) with (PrimFloat.sub a (lit 0)).
  rewrite sub_spec, float_lit_0.
  change (Prim2SF PrimFloat.zero) with (S754_zero false).
  destruct (Prim2SF a) as [[]|[]| |[] m e]; reflexivity.
Qed.

Lemma float_opp_zero (a : float) : isZero a = true -> isZero (- a) = true.
Proof.
  unfold isZero. change (- a) with (PrimFloat.opp a). rewrite opp_spec.
  destruct (Prim2SF a) as [[]|[]| |[] m e]; try discriminate; reflexivity.
Qed.

Lemma float_toFixed1_zero (a : float) : isZero a = true -> toFixed1 a = lit 0.
Proof.
  unfold isZero. cbn [toFixed1 float_JSNumber]. unfold float_toFixed1.
  destruct (Prim2SF a) as [[]|[]| |[] m e]; try discriminate; reflexivity.
Qed.

(** In binary64, when the loop starts ([0 <= span]) a returned equation
    begins with the position 0, and there: the simply supported bending
    moment is recorded as 0 for every finite load and span (a zero of either
    sign is recorded as [+0]); the simply supported shear force is [w (L / 2)]
    rounded to one decimal; and the two-span bending moment is 0, whatever
    the reactions are. *)
Theorem first_sample_binary64 :
  forall (beam : Beam float) (load : float) (fuel : nat) (eq : Equation float),
    let L := primarySpan beam in
    let T := primarySpan beam + secondarySpan beam in
    (simplySupported.getBendingMomentEquation fuel beam load = Some eq ->
     (lit 0 <=? L) = true -> isFinite load = true -> isFinite L = true ->
     exists xs ys, x eq = lit 0 :: xs /\ y eq = lit 0 :: ys)
    /\ (simplySupported.getShearForceEquation fuel beam load = Some eq ->
        (lit 0 <=? L) = true ->
        exists xs ys, x eq = lit 0 :: xs /\ y eq = toFixed1 (load * (L / lit 2)) :: ys)
    /\ (twoSpanUnequal.getBendingMomentEquation fuel beam load = Some eq ->
        (lit 0 <=? T) = true ->
        exists xs ys, x eq = lit 0 :: xs /\ y eq = lit 0 :: ys).
Proof.
  intros beam load fuel eq L T.
  assert (E0 : toFixed1 (lit 0 : float) = lit 0) by (vm_compute; reflexivity).
  split; [|split].
  - intros Hrun Hin Hload HL.
    destruct (@forLoop_first _ _ _ _ _ _ _ _ Hin Hrun) as (xs & ys & Hx & Hy).
    exists xs, ys. rewrite Hx, Hy, E0. split; [reflexivity|]. f_equal.
    cbv zeta. rewrite mul_neg_one. apply float_toFixed1_zero, float_opp_zero.
    rewrite float_sub_zero. apply float_zero_mul; [|exact HL].
    eapply float_zero_div; [reflexivity|].
    apply float_mul_zero; [exact Hload | reflexivity].
  - intros Hrun Hin.
    destruct (@forLoop_first _ _ _ _ _ _ _ _ Hin Hrun) as (xs & ys & Hx & Hy).
    exists xs, ys. rewrite Hx, Hy, E0. split; [reflexivity|].
    cbv zeta. rewrite float_sub_zero. reflexivity.
  - intros Hrun Hin.
    destruct (@forLoop_first _ _ _ _ _ _ _ _ Hin Hrun) as (xs & ys & Hx & Hy).
    exists xs, ys. rewrite Hx, Hy, E0. split; [reflexivity|]. reflexivity.
Qed.

Lemma first_sample_binary64_witness :
  exists eq xs ys,
    simplySupported.getBendingMomentEquation 12 (scenario_beam 7 0) (lit 10 : float)
    = Some eq
    /\ x eq = lit 0 :: xs /\ y eq = lit 0 :: ys.
Proof.
  destruct (simplySupported.getBendingMomentEquation 12 (scenario_beam 7 0)
                                                     (lit 10 : float))
    as [eq|] eqn:Hrun; [|vm_compute in Hrun; discriminate].
  assert (Hin : (lit 0 <=? primarySpan (scenario_beam 7 0 : Beam float)) = true)
    by (vm_compute; reflexivity).
  assert (Hload : isFinite (lit 10) = true) by (vm_compute; reflexivity).
  assert (HL : isFinite (primarySpan (scenario_beam 7 0 : Beam float)) = true)
    by (vm_compute; reflexivity).
  destruct (proj1 (first_sample_binary64 (scenario_beam 7 0) (lit 10) 12 eq)
                  Hrun Hin Hload HL) as (xs & ys & Hx & Hy).
  exists eq, xs, ys. repeat split; assumption.
Defined.
End FirstSample.

(** ** The evaluators at a position that is not a number *)

Section NaNPosition.
Import Binary64 twoSpanUnequal.
Local Open Scope js_scope.

(** [x !== x] holds for [NaN] only, and [NaN] compares false with
    everything. *)
Lemma float_nan_compares (x : float) :
  (x === x) = false ->
  forall a, (x === a) = false /\ (x <? a) = false /\ (a <? x) = false.
Proof.
  intros Hx a.
  rewrite !float_seqb_spec, !float_ltb_spec in *.
  unfold SFeqb, SFltb in *.
  destruct (Prim2SF x) as [[]|[]| |[] m e] eqn:E;
    try (rewrite SFcompare_refl in Hx by discriminate; discriminate).
  destruct (Prim2SF a) as [[]|[]| |[] m' e']; repeat split; reflexivity.
Qed.

(** In binary64, for a position that is [NaN] every comparison of the
    evaluators fails: the bending-moment evaluator returns the value over
    the interior support, [-(R1 L1 - 0.5 w L1^2)], which does not depend on
    the position; the shear-force evaluator takes its last branch, the
    formula of the second span. *)
Theorem evaluators_at_NaN_position :
  forall (x L1 T R1 R2 w : float),
    (x === x) = false ->
    calculateBendingMomentValue x L1 T R1 R2 w
    = - (R1 * L1 - lit 0.5 * w * L1 ^ 2)
    /\ calculateShearForceValue x L1 R1 R2 w = R2 - w * (x - L1).
Proof.
  intros x L1 T R1 R2 w Hx.
  destruct (float_nan_compares Hx (lit 0)) as (E0 & _).
  destruct (float_nan_compares Hx T) as (ET & _).
  destruct (float_nan_compares Hx L1) as (Ee & El & Eg).
  unfold calculateBendingMomentValue, calculateShearForceValue.
  rewrite E0, ET, Ee, El, Eg. split; reflexivity.
Qed.

Lemma evaluators_at_NaN_position_witness :
  calculateBendingMomentValue nan (lit 4) (lit 10) (lit 11.25) (lit 64.5) (lit 10)
  = lit 35.
Proof.
  assert (Hx : (nan === nan) = false) by reflexivity.
  exact (proj1 (@evaluators_at_NaN_position nan (lit 4) (lit 10) (lit 11.25) (lit 64.5)
                                            (lit 10) Hx)).
Defined.
End NaNPosition.

(** ** More on rounding to one decimal with exact arithmetic *)

Section ExactRoundingSigns.
Import Exact.
Local Open Scope Q_scope.

Lemma tenths_proper (a b : Q) : a == b -> tenths a = tenths b.
Proof. intros Hab. unfold tenths. rewrite Hab. reflexivity. Qed.

(** Rounding commutes with the sign. *)
Lemma Q_toFixed1_opp (v : Q) : Q_toFixed1 (- v) == - Q_toFixed1 v.
Proof.
  unfold Q_toFixed1. rewrite Qabs_opp.
  destruct (Qle_bool (10 ^ 21) (Qabs v)); [rewrite !Qred_correct; reflexivity|].
  destruct (Qle_bool 0 v) eqn:Ev; destruct (Qle_bool 0 (- v)) eqn:Eo.
  - apply Qle_bool_iff in Ev, Eo.
    assert (E0 : v == 0) by lra.
    rewrite (tenths_proper (a := - v) (b := 0)) by lra.
    rewrite (tenths_proper (a := v) (b := 0)) by lra.
    reflexivity.
  - rewrite (tenths_proper (a := - - v) (b := v)) by ring.
    rewrite !Qred_correct. reflexivity.
  - rewrite !Qred_correct. ring.
  - exfalso.
    assert (H1 : ~ 0 <= v) by (intros Hle; apply Qle_bool_iff in Hle; congruence).
    assert (H2 : ~ 0 <= - v) by (intros Hle; apply Qle_bool_iff in Hle; congruence).
    lra.
Qed.

Lemma Q_toFixed1_nonneg (v : Q) : 0 <= v -> 0 <= Q_toFixed1 v.
Proof.
  intros H0. change 0 with (Q_toFixed1 0).
  apply Q_toFixed1_mono; [apply Qle_refl | exact H0].
Qed.

Lemma Q_toFixed1_nonpos (v : Q) : v <= 0 -> Q_toFixed1 v <= 0.
Proof.
  intros H0.
  assert (E : Q_toFixed1 v = Q_toFixed1 (- - v)) by (apply Q_toFixed1_proper; ring).
  rewrite E, Q_toFixed1_opp.
  assert (Hn : 0 <= Q_toFixed1 (- v)) by (apply Q_toFixed1_nonneg; lra).
  lra.
Qed.

(** Rounding keeps the order of all numbers. *)
Lemma Q_toFixed1_monotone (a b : Q) : a <= b -> Q_toFixed1 a <= Q_toFixed1 b.
Proof.
  intros Hab.
  destruct (Qlt_le_dec a 0) as [Ha|Ha]; [|apply Q_toFixed1_mono; assumption].
  destruct (Qlt_le_dec b 0) as [Hb|Hb].
  - assert (Ea : Q_toFixed1 a = Q_toFixed1 (- - a)) by (apply Q_toFixed1_proper; ring).
    assert (Eb : Q_toFixed1 b = Q_toFixed1 (- - b)) by (apply Q_toFixed1_proper; ring).
    rewrite Ea, Eb, (Q_toFixed1_opp (- a)), (Q_toFixed1_opp (- b)).
    assert (Hm : Q_toFixed1 (- b) <= Q_toFixed1 (- a))
      by (apply Q_toFixed1_mono; lra).
    lra.
  - eapply Qle_trans; [apply Q_toFixed1_nonpos | apply Q_toFixed1_nonneg]; lra.
Qed.

Lemma Q_toFixed1_0 (v : Q) : v == 0 -> Q_toFixed1 v = 0.
Proof. intros E. rewrite (Q_toFixed1_proper E). reflexivity. Qed.

Lemma Q_pow_2 (a : Q) : (a ^ 2)%js == a * a.
Proof. reflexivity. Qed.

Lemma Q_pow_3 (a : Q) : (a ^ 3)%js == a * a * a.
Proof. cbn [pow Q_JSNumber Qpower_positive Pos.iter_op]. simpl. ring. Qed.

Lemma Q_square_nonneg (a : Q) : 0 <= a * a.
Proof.
  destruct (Qlt_le_dec a 0) as [Ha|Ha].
  - assert (E : a * a == (- a) * (- a)) by ring.
    rewrite E. apply Qmult_le_0_compat; lra.
  - apply Qmult_le_0_compat; lra.
Qed.
End ExactRoundingSigns.

(** ** Lists *)

Section ListFacts.
Variables A B : Type.
Variable f : A -> B.

Lemma Sorted_of_map (R : A -> A -> Prop) (R' : B -> B -> Prop) :
  (forall a b, R a b -> R' (f a) (f b)) ->
  forall l, Sorted R l -> Sorted R' (map f l).
Proof.
  intros Hf l Hl. induction Hl as [|a l Hl IH Hhd]; cbn [map]; constructor.
  - exact IH.
  - destruct Hhd as [|b l Hab]; cbn [map]; constructor. apply Hf, Hab.
Qed.

Lemma Forall_of_map (P : A -> Prop) (P' : B -> Prop) (l : list A) :
  (forall a, P a -> P' (f a)) -> Forall P l -> Forall P' (map f l).
Proof.
  intros Hf Hl. induction Hl; cbn [map]; constructor; auto.
Qed.

Lemma last_of_map (l : list A) (d : A) (d' : B) :
  l <> [] -> last (map f l) d' = f (last l d).
Proof.
  induction l as [|a l IH]; intros Hl; [contradiction|].
  destruct l as [|b l]; [reflexivity|].
  change (last (map f (b :: l)) d' = f (last (b :: l) d)).
  apply IH. discriminate.
Qed.

Lemma hd_of_map (l : list A) (d : A) (d' : B) :
  l <> [] -> hd d' (map f l) = f (hd d l).
Proof. destruct l; [contradiction | reflexivity]. Qed.
End ListFacts.

(** ** The runs with exact arithmetic, sample by sample *)

Section ExactRuns.
Import Exact.
Local Open Scope Q_scope.

Lemma Q_position_range (L : Q) (n : positive) (j : nat) :
  0 < L -> (j <= Pos.to_nat n)%nat ->
  0 <= position j 0 (L / inject_Z (Zpos n)) <= L.
Proof.
  intros HL Hj. split; [|apply (Q_loop_bounds n HL), Hj].
  rewrite Q_position.
  assert (Hs : 0 <= L / inject_Z (Zpos n))
    by (apply Qle_shift_div_l; [reflexivity | lra]).
  assert (Hz : 0 <= inject_Z (Z.of_nat j))
    by (change 0 with (inject_Z 0); rewrite <- Zle_Qle; lia).
  assert (Hm : 0 <= inject_Z (Z.of_nat j) * (L / inject_Z (Zpos n)))
    by (apply Qmult_le_0_compat; assumption).
  lra.
Qed.

(** The recorded positions lie between 0 and the rounded span. *)
Lemma Q_recorded_range (L : Q) (n : positive) (p : Q) :
  0 < L ->
  In p (map Q_toFixed1 (positions (S (Pos.to_nat n)) 0 (L / inject_Z (Zpos n)))) ->
  0 <= p <= Q_toFixed1 L.
Proof.
  intros HL Hp. apply in_map_iff in Hp. destruct Hp as (i & <- & Hi).
  apply positions_In in Hi. destruct Hi as (j & Hj & ->).
  assert (Hr : 0 <= position j 0 (L / inject_Z (Zpos n)) <= L)
    by (apply Q_position_range; [exact HL | lia]).
  split; [apply Q_toFixed1_nonneg | apply Q_toFixed1_monotone]; apply Hr.
Qed.

Lemma Q_forLoop_sampled_every (sample : Q -> Q) (L : Q) (n : positive) (fuel : nat) :
  0 < L -> (S (Pos.to_nat n) < fuel)%nat ->
  sampled_every n L (forLoop fuel sample L (L / inject_Z (Zpos n)) 0 [] []).
Proof.
  intros HL Hfuel. eexists. split; [apply Q_forLoop_exact; assumption|].
  cbn [x]. split; [rewrite length_map, positions_length; reflexivity|].
  intros j Hj.
  rewrite (@nth_map_in _ _ Q_toFixed1 _ j 0 0) by (rewrite positions_length; lia).
  rewrite positions_nth by lia.
  apply Q_toFixed1_proper. rewrite Q_position.
  field. change (~ inject_Z (Zpos n) == inject_Z 0). rewrite inject_Z_injective. lia.
Qed.

(** What a run over a positive span gives, with exact arithmetic and enough
    fuel: besides [Q_forLoop_facts], every recorded position lies between 0
    and the rounded span. *)
Lemma Q_forLoop_range (sample : Q -> Q) (L : Q) (n : positive) (fuel : nat) :
  0 < L -> (S (Pos.to_nat n) < fuel)%nat ->
  exists eq,
    forLoop fuel sample L (L / inject_Z (Zpos n)) 0 [] [] = Some eq
    /\ x eq <> []
    /\ y eq = map sample (x eq)
    /\ Sorted Qle (x eq)
    /\ hd 0 (x eq) = 0
    /\ last (x eq) 0 = Q_toFixed1 L
    /\ Forall (fun p => 0 <= p <= Q_toFixed1 L) (x eq).
Proof.
  intros HL Hfuel. eexists. split; [apply Q_forLoop_exact; assumption|].
  cbn [x y].
  assert (Hs : 0 <= L / inject_Z (Zpos n)).
  { apply Qle_shift_div_l; [reflexivity | lra]. }
  split; [cbn [positions map]; discriminate|].
  split; [reflexivity|].
  split; [apply Q_positions_sorted; [apply Qle_refl | exact Hs]|].
  split; [reflexivity|].
  split; [rewrite Q_positions_last; apply Q_toFixed1_proper, Q_position_last, HL|].
  apply Forall_forall. intros p Hp. exact (@Q_recorded_range L n p HL Hp).
Qed.

(** What a run over a positive span gives, with exact arithmetic and enough
    fuel: [Q_forLoop_range] and the position of each sample. *)
Lemma Q_forLoop_samples (sample : Q -> Q) (L : Q) (n : positive) (fuel : nat) :
  0 < L -> (S (Pos.to_nat n) < fuel)%nat ->
  exists eq,
    forLoop fuel sample L (L / inject_Z (Zpos n)) 0 [] [] = Some eq
    /\ y eq = map sample (x eq)
    /\ Forall (fun p => 0 <= p <= Q_toFixed1 L) (x eq)
    /\ forall j, (j <= Pos.to_nat n)%nat ->
                 nth j (x eq) 0
                 = Q_toFixed1 (inject_Z (Z.of_nat j) * L / inject_Z (Zpos n))
                 /\ nth j (y eq) 0 = sample (nth j (x eq) 0).
Proof.
  intros HL Hfuel.
  destruct (Q_forLoop_range sample n HL Hfuel)
    as (eq & Hrun & _ & Hy & _ & _ & _ & Hrange).
  destruct (Q_forLoop_sampled_every sample n HL Hfuel) as (eq' & Hrun' & Hlen & Hnth).
  rewrite Hrun in Hrun'. injection Hrun' as <-.
  exists eq. repeat (split; [assumption|]).
  intros j Hj. split; [apply Hnth, Hj|].
  rewrite Hy. apply nth_map_in. rewrite Hlen. lia.
Qed.

(** With exact arithmetic the samples are equally spaced before rounding:
    for a positive span [L] the simply supported deflection method returns
    9 samples, the [j]-th at [j L / 8] rounded to one decimal, and the moment
    and shear methods 11 samples, the [j]-th at [j L / 10] rounded; for a
    positive total length [T] each two-span method returns 1001 samples, the
    [j]-th at [j T / 1000] rounded. *)
Theorem sample_positions_exact :
  forall (beam : Beam Q) (load : Q) (fuel : nat),
    let L := primarySpan beam in
    let T := primarySpan beam + secondarySpan beam in
    (0 < L -> (11 < fuel)%nat ->
     sampled_every 8 L (simplySupported.getDeflectionEquation fuel beam load)
     /\ sampled_every 10 L (simplySupported.getBendingMomentEquation fuel beam load)
     /\ sampled_every 10 L (simplySupported.getShearForceEquation fuel beam load))
    /\ (0 < T -> (1001 < fuel)%nat ->
        sampled_every 1000 T (twoSpanUnequal.getDeflectionEquation fuel beam load)
        /\ sampled_every 1000 T (twoSpanUnequal.getBendingMomentEquation fuel beam load)
        /\ sampled_every 1000 T (twoSpanUnequal.getShearForceEquation fuel beam load)).
Proof.
  intros beam load fuel L T. split.
  - intros HL Hfuel.
    assert (H8 : (S (Pos.to_nat 8) < fuel)%nat) by (simpl; lia).
    assert (H10 : (S (Pos.to_nat 10) < fuel)%nat) by (simpl; lia).
    split; [|split].
    + exact (Q_forLoop_sampled_every _ 8 HL H8).
    + exact (Q_forLoop_sampled_every _ 10 HL H10).
    + exact (Q_forLoop_sampled_every _ 10 HL H10).
  - intros HT Hfuel.
    assert (Hn : (S (Pos.to_nat 1000) < fuel)%nat)
      by (replace (Pos.to_nat 1000) with 1000%nat by (vm_compute; reflexivity); lia).
    split; [|split]; exact (Q_forLoop_sampled_every _ 1000 HT Hn).
Qed.

Lemma sample_positions_exact_witness :
  sampled_every 10 8
    (simplySupported.getShearForceEquation 12 (scenario_beam 8 0) (lit 10 : Q)).
Proof.
  assert (HL : 0 < primarySpan (scenario_beam 8 0 : Beam Q)) by reflexivity.
  assert (Hfuel : (11 < 12)%nat) by lia.
  exact (proj2 (proj2 (proj1 (sample_positions_exact (scenario_beam 8 0) 10 12)
                             HL Hfuel))).
Defined.
End ExactRuns.

(** ** The simply supported beam with exact arithmetic *)

Section SimplySupportedExact.
Import Exact.
Local Open Scope Q_scope.

(** With exact arithmetic, for a positive span [L] that has one decimal
    ([L] rounded is [L]), the last sample is taken at [L]; the bending
    moment and the deflection recorded at both ends are 0, and the shear
    force recorded at the ends is [w L / 2] rounded and its opposite.  (The
    deflection divides by [24 EI], so [EI] is not 0.) *)
Theorem simplySupported_ends_exact :
  forall (beam : Beam Q) (load : Q) (fuel : nat),
    let L := primarySpan beam in
    let EI := EI (properties (material beam)) in
    0 < L -> Q_toFixed1 L == L -> (11 < fuel)%nat ->
    (exists eq,
        simplySupported.getBendingMomentEquation fuel beam load = Some eq
        /\ last (x eq) 0 == L
        /\ hd 0 (y eq) = 0 /\ last (y eq) 0 = 0)
    /\ (exists eq,
           simplySupported.getShearForceEquation fuel beam load = Some eq
           /\ last (x eq) 0 == L
           /\ hd 0 (y eq) = Q_toFixed1 (load * L / 2)
           /\ last (y eq) 0 == - Q_toFixed1 (load * L / 2))
    /\ (~ EI == 0 ->
        exists eq,
          simplySupported.getDeflectionEquation fuel beam load = Some eq
          /\ last (x eq) 0 == L
          /\ hd 0 (y eq) = 0 /\ last (y eq) 0 = 0).
Proof.
  intros beam load fuel L EI HL Hround Hfuel.
  assert (H8 : (S (Pos.to_nat 8) < fuel)%nat) by (simpl; lia).
  assert (H10 : (S (Pos.to_nat 10) < fuel)%nat) by (simpl; lia).
  split; [|split].
  - unfold simplySupported.getBendingMomentEquation. cbv zeta. fold L.
    match goal with |- context [forLoop fuel ?s _ _ _ _ _] =>
      destruct (Q_forLoop_range s 10 HL H10)
        as (eq & Hrun & Hne & Hy & _ & Hhd & Hlast & _) end.
    exists eq. split; [exact Hrun|].
    split; [rewrite Hlast; exact Hround|].
    rewrite Hy. rewrite (@hd_of_map _ _ _ _ 0 0 Hne), (@last_of_map _ _ _ _ 0 0 Hne), Hhd, Hlast.
    split; apply Q_toFixed1_0; cbn [lit add sub mul div neg Q_JSNumber].
    + field.
    + rewrite Hround. field.
  - unfold simplySupported.getShearForceEquation. cbv zeta. fold L.
    match goal with |- context [forLoop fuel ?s _ _ _ _ _] =>
      destruct (Q_forLoop_range s 10 HL H10)
        as (eq & Hrun & Hne & Hy & _ & Hhd & Hlast & _) end.
    exists eq. split; [exact Hrun|].
    split; [rewrite Hlast; exact Hround|].
    rewrite Hy. rewrite (@hd_of_map _ _ _ _ 0 0 Hne), (@last_of_map _ _ _ _ 0 0 Hne), Hhd, Hlast.
    split.
    + apply Q_toFixed1_proper. cbn [lit add sub mul div neg Q_JSNumber].
      field.
    + rewrite <- Q_toFixed1_opp.
      assert (E : forall a b : Q, a = b -> a == b) by (intros a b ->; reflexivity).
      apply E, Q_toFixed1_proper. cbn [lit add sub mul div neg Q_JSNumber].
      rewrite Hround. field.
  - intros HEI.
    unfold simplySupported.getDeflectionEquation. cbv zeta. fold L EI.
    match goal with |- context [forLoop fuel ?s _ _ _ _ _] =>
      destruct (Q_forLoop_range s 8 HL H8)
        as (eq & Hrun & Hne & Hy & _ & Hhd & Hlast & _) end.
    exists eq. split; [exact Hrun|].
    split; [rewrite Hlast; exact Hround|].
    rewrite Hy. rewrite (@hd_of_map _ _ _ _ 0 0 Hne), (@last_of_map _ _ _ _ 0 0 Hne), Hhd, Hlast.
    split; apply Q_toFixed1_0.
    + rewrite !Q_pow_2, !Q_pow_3. cbn [lit add sub mul div neg Q_JSNumber].
      field. exact HEI.
    + rewrite !Q_pow_2, !Q_pow_3. cbn [lit add sub mul div neg Q_JSNumber].
      rewrite Hround. field. exact HEI.
Qed.

Lemma simplySupported_ends_exact_witness :
  exists eq,
    simplySupported.getBendingMomentEquation 12 (scenario_beam 8 0) (lit 10 : Q) = Some eq
    /\ last (x eq) 0 == 8
    /\ hd 0 (y eq) = 0 /\ last (y eq) 0 = 0.
Proof.
  assert (HL : 0 < primarySpan (scenario_beam 8 0 : Beam Q)) by reflexivity.
  assert (Hr : Q_toFixed1 (primarySpan (scenario_beam 8 0 : Beam Q))
               == primarySpan (scenario_beam 8 0 : Beam Q)) by reflexivity.
  assert (Hfuel : (11 < 12)%nat) by lia.
  exact (proj1 (simplySupported_ends_exact (scenario_beam 8 0) 10 HL Hr Hfuel)).
Defined.

(** With exact arithmetic, for a positive span with one decimal and a load
    that is not negative, no recorded bending moment is positive; nor is a
    recorded deflection, for [EI > 0] and [j2 >= 0]. *)
Theorem simplySupported_sagging_exact :
  forall (beam : Beam Q) (load : Q) (fuel : nat),
    let L := primarySpan beam in
    let EI := EI (properties (material beam)) in
    let j2 := j2 (properties (material beam)) in
    0 < L -> Q_toFixed1 L == L -> 0 <= load -> (11 < fuel)%nat ->
    (exists eq,
        simplySupported.getBendingMomentEquation fuel beam load = Some eq
        /\ Forall (fun v => v <= 0) (y eq))
    /\ (0 < EI -> 0 <= j2 ->
        exists eq,
          simplySupported.getDeflectionEquation fuel beam load = Some eq
          /\ Forall (fun v => v <= 0) (y eq)).
Proof.
  intros beam load fuel L EI j2 HL Hround Hw Hfuel.
  assert (H8 : (S (Pos.to_nat 8) < fuel)%nat) by (simpl; lia).
  assert (H10 : (S (Pos.to_nat 10) < fuel)%nat) by (simpl; lia).
  split.
  - unfold simplySupported.getBendingMomentEquation. cbv zeta. fold L.
    match goal with |- context [forLoop fuel ?s _ _ _ _ _] =>
      destruct (Q_forLoop_range s 10 HL H10)
        as (eq & Hrun & _ & Hy & _ & _ & _ & Hrange) end.
    exists eq. split; [exact Hrun|]. rewrite Hy.
    apply (@Forall_of_map _ _ _ (fun p => 0 <= p <= Q_toFixed1 L) _ _); [|exact Hrange].
    intros p [H0 Hp]. rewrite Hround in Hp.
    apply Q_toFixed1_nonpos. cbn [lit add sub mul div neg Q_JSNumber].
    assert (Hm : 0 <= load * p * (L - p))
      by (apply Qmult_le_0_compat; [apply Qmult_le_0_compat|]; lra).
    assert (E : load * p / 2 * (L - p) * - (1) == - (load * p * (L - p)) * (1 # 2))
      by field.
    rewrite E. lra.
  - intros HEI Hj2.
    unfold simplySupported.getDeflectionEquation. cbv zeta. fold L EI j2.
    match goal with |- context [forLoop fuel ?s _ _ _ _ _] =>
      destruct (Q_forLoop_range s 8 HL H8)
        as (eq & Hrun & _ & Hy & _ & _ & _ & Hrange) end.
    exists eq. split; [exact Hrun|]. rewrite Hy.
    apply (@Forall_of_map _ _ _ (fun p => 0 <= p <= Q_toFixed1 L) _ _); [|exact Hrange].
    intros p [H0 Hp]. rewrite Hround in Hp.
    apply Q_toFixed1_nonpos.
    rewrite !Q_pow_2, !Q_pow_3. cbn [lit add sub mul div neg Q_JSNumber].
    assert (Hpoly : 0 <= L * L * L - 2 * L * (p * p) + p * p * p).
    { assert (E : L * L * L - 2 * L * (p * p) + p * p * p
                  == (L - p) * (L * L + p * (L - p))) by ring.
      rewrite E.
      apply Qmult_le_0_compat; [lra|].
      assert (H1 : 0 <= L * L) by (apply Qmult_le_0_compat; lra).
      assert (H2 : 0 <= p * (L - p)) by (apply Qmult_le_0_compat; lra).
      lra. }
    set (P := L * L * L - 2 * L * (p * p) + p * p * p) in *.
    assert (Hq : 0 <= load * p / (24 * EI)).
    { apply Qle_shift_div_l; [lra|].
      assert (H1 : 0 <= load * p) by (apply Qmult_le_0_compat; lra). lra. }
    set (q := load * p / (24 * EI)) in *.
    assert (H1 : 0 <= q * P) by (apply Qmult_le_0_compat; assumption).
    assert (H2 : 0 <= q * P * j2) by (apply Qmult_le_0_compat; assumption).
    change 1e9 with 1000000000.
    assert (E : - q * P * j2 * 1000 * 1000000000 == - (q * P * j2) * 1000000000000)
      by ring.
    rewrite E. lra.
Qed.

Lemma simplySupported_sagging_exact_witness :
  exists eq,
    simplySupported.getBendingMomentEquation 12 (scenario_beam 8 0) (lit 10 : Q) = Some eq
    /\ Forall (fun v => v <= 0) (y eq).
Proof.
  assert (HL : 0 < primarySpan (scenario_beam 8 0 : Beam Q)) by reflexivity.
  assert (Hr : Q_toFixed1 (primarySpan (scenario_beam 8 0 : Beam Q))
               == primarySpan (scenario_beam 8 0 : Beam Q)) by reflexivity.
  assert (Hw : 0 <= (lit 10 : Q)) by discriminate.
  assert (Hfuel : (11 < 12)%nat) by lia.
  exact (proj1 (simplySupported_sagging_exact (scenario_beam 8 0) HL Hr Hw Hfuel)).
Defined.

(** With exact arithmetic, for a positive span and a load that is not
    negative, the recorded shear force never increases along the beam. *)
Theorem simplySupported_shear_descends_exact :
  forall (beam : Beam Q) (load : Q) (fuel : nat),
    0 < primarySpan beam -> 0 <= load -> (11 < fuel)%nat ->
    exists eq,
      simplySupported.getShearForceEquation fuel beam load = Some eq
      /\ Sorted (fun a b => b <= a) (y eq).
Proof.
  intros beam load fuel HL Hw Hfuel.
  assert (H10 : (S (Pos.to_nat 10) < fuel)%nat) by (simpl; lia).
  unfold simplySupported.getShearForceEquation. cbv zeta.
  match goal with |- context [forLoop fuel ?s _ _ _ _ _] =>
    destruct (Q_forLoop_range s 10 HL H10)
      as (eq & Hrun & _ & Hy & Hsorted & _) end.
  exists eq. split; [exact Hrun|]. rewrite Hy.
  apply (@Sorted_of_map _ _ _ Qle _); [|exact Hsorted].
  intros a b Hab. apply Q_toFixed1_monotone.
  cbn [lit add sub mul div neg Q_JSNumber].
  assert (Hm : 0 <= load * (b - a)) by (apply Qmult_le_0_compat; lra).
  assert (E : load * (primarySpan beam / 2 - a)
              == load * (primarySpan beam / 2 - b) + load * (b - a)) by field.
  rewrite E. lra.
Qed.

Lemma simplySupported_shear_descends_exact_witness :
  exists eq,
    simplySupported.getShearForceEquation 12 (scenario_beam 7.5 0) (lit 10 : Q) = Some eq
    /\ Sorted (fun a b => b <= a) (y eq).
Proof.
  assert (HL : 0 < primarySpan (scenario_beam 7.5 0 : Beam Q)) by reflexivity.
  assert (Hw : 0 <= (lit 10 : Q)) by discriminate.
  assert (Hfuel : (11 < 12)%nat) by lia.
  exact (simplySupported_shear_descends_exact (scenario_beam 7.5 0) HL Hw Hfuel).
Defined.
(** With exact arithmetic, for a positive span [L] and a load [w >= 0], no
    recorded bending moment is below the midspan value [-w L^2 / 8] rounded
    to one decimal, and the sample in the middle (the sixth) carries that
    value when [L / 2] has one decimal.  For a span with one decimal,
    [EI > 0] and [j2 >= 0], no recorded deflection is below the midspan value
    [-5 w L^4 j2 1000 / (384 EI)] times [1e9], rounded, and the sample in
    the middle (the fifth) carries it when [L / 2] has one decimal. *)
Theorem simplySupported_peak_exact :
  forall (beam : Beam Q) (load : Q) (fuel : nat),
    let L := primarySpan beam in
    let EI := EI (properties (material beam)) in
    let j2 := j2 (properties (material beam)) in
    let M := - (load * L * L / 8) in
    let D := - (5 * load * (L * L * L * L) * j2 * 1000000000000 / (384 * EI)) in
    0 < L -> 0 <= load -> (11 < fuel)%nat ->
    (exists eq,
        simplySupported.getBendingMomentEquation fuel beam load = Some eq
        /\ Forall (fun v => Q_toFixed1 M <= v) (y eq)
        /\ (Q_toFixed1 (L / 2) == L / 2 -> nth 5 (y eq) 0 = Q_toFixed1 M))
    /\ (Q_toFixed1 L == L -> 0 < EI -> 0 <= j2 ->
        exists eq,
          simplySupported.getDeflectionEquation fuel beam load = Some eq
          /\ Forall (fun v => Q_toFixed1 D <= v) (y eq)
          /\ (Q_toFixed1 (L / 2) == L / 2 -> nth 4 (y eq) 0 = Q_toFixed1 D)).
Proof.
  intros beam load fuel L EI j2 M D HL Hw Hfuel.
  assert (H8 : (S (Pos.to_nat 8) < fuel)%nat) by (simpl; lia).
  assert (H10 : (S (Pos.to_nat 10) < fuel)%nat) by (simpl; lia).
  split.
  - unfold simplySupported.getBendingMomentEquation. cbv zeta. fold L.
    match goal with |- context [forLoop fuel ?s _ _ _ _ _] =>
      destruct (Q_forLoop_samples s 10 HL H10)
        as (eq & Hrun & Hy & _ & Hnth) end.
    exists eq. split; [exact Hrun|]. split.
    + rewrite Hy. apply Forall_forall. intros v Hv.
      apply in_map_iff in Hv. destruct Hv as (p & <- & _).
      apply Q_toFixed1_monotone. cbn [lit add sub mul div neg Q_JSNumber].
      assert (Hs : 0 <= load * ((L - 2 * p) * (L - 2 * p)))
        by (apply Qmult_le_0_compat; [exact Hw | apply Q_square_nonneg]).
      assert (E : load * p / 2 * (L - p) * - (1)
                  == M + load * ((L - 2 * p) * (L - 2 * p)) * (1 # 8))
        by (unfold M; field).
      rewrite E. lra.
    + intros Hmid. destruct (Hnth 5%nat) as [Hx5 Hy5]; [simpl; lia|].
      rewrite Hy5. apply Q_toFixed1_proper.
      assert (Ex : nth 5 (x eq) 0 == L / 2).
      { rewrite Hx5.
        assert (E5 : Q_toFixed1 (inject_Z (Z.of_nat 5) * L / inject_Z 10)
                     = Q_toFixed1 (L / 2)).
        { apply Q_toFixed1_proper.
          change (inject_Z (Z.of_nat 5)) with 5. change (inject_Z 10) with 10. field. }
        rewrite E5. exact Hmid. }
      cbn [lit add sub mul div neg Q_JSNumber]. rewrite Ex. unfold M. field.
  - intros Hround HEI Hj2.
    unfold simplySupported.getDeflectionEquation. cbv zeta. fold L EI j2.
    match goal with |- context [forLoop fuel ?s _ _ _ _ _] =>
      destruct (Q_forLoop_samples s 8 HL H8)
        as (eq & Hrun & Hy & Hrange & Hnth) end.
    exists eq. split; [exact Hrun|]. split.
    + rewrite Hy.
      apply (@Forall_of_map _ _ _ (fun p => 0 <= p <= Q_toFixed1 L) _ _);
        [|exact Hrange].
      intros p [H0 Hp]. rewrite Hround in Hp.
      apply Q_toFixed1_monotone.
      rewrite !Q_pow_2, !Q_pow_3. cbn [lit add sub mul div neg Q_JSNumber].
      change 1e9 with 1000000000.
      set (t := p * (L - p)).
      assert (Ht : 0 <= t) by (apply Qmult_le_0_compat; lra).
      assert (Hs : 0 <= (L - 2 * p) * (L - 2 * p)) by apply Q_square_nonneg.
      assert (H5 : 0 <= 5 * (L * L) * (1 # 4) + t).
      { assert (HLL : 0 <= L * L) by (apply Qmult_le_0_compat; lra). lra. }
      assert (Hprod : 0 <= (L - 2 * p) * (L - 2 * p) * (5 * (L * L) * (1 # 4) + t))
        by (apply Qmult_le_0_compat; assumption).
      assert (Hk : 0 <= load * j2 / (24 * EI)).
      { apply Qle_shift_div_l; [lra|].
        assert (H1 : 0 <= load * j2) by (apply Qmult_le_0_compat; assumption). lra. }
      set (k := load * j2 / (24 * EI)) in *.
      assert (Hkp : 0 <= k * ((L - 2 * p) * (L - 2 * p) * (5 * (L * L) * (1 # 4) + t)))
        by (apply Qmult_le_0_compat; assumption).
      assert (E : - (load * p / (24 * EI)) * (L * L * L - 2 * L * (p * p) + p * p * p)
                  * j2 * 1000 * 1000000000
                  == D + k * ((L - 2 * p) * (L - 2 * p) * (5 * (L * L) * (1 # 4) + t))
                         * 250000000000).
      { unfold D, k, t. field. lra. }
      rewrite E. lra.
    + intros Hmid. destruct (Hnth 4%nat) as [Hx4 Hy4]; [simpl; lia|].
      rewrite Hy4. apply Q_toFixed1_proper.
      assert (Ex : nth 4 (x eq) 0 == L / 2).
      { rewrite Hx4.
        assert (E4 : Q_toFixed1 (inject_Z (Z.of_nat 4) * L / inject_Z 8)
                     = Q_toFixed1 (L / 2)).
        { apply Q_toFixed1_proper.
          change (inject_Z (Z.of_nat 4)) with 4. change (inject_Z 8) with 8. field. }
        rewrite E4. exact Hmid. }
      rewrite !Q_pow_2, !Q_pow_3. cbn [lit add sub mul div neg Q_JSNumber].
      change 1e9 with 1000000000.
      rewrite Ex. unfold D. field. lra.
Qed.

Lemma simplySupported_peak_exact_witness :
  exists eq,
    simplySupported.getBendingMomentEquation 12 (scenario_beam 8 0) (lit 10 : Q) = Some eq
    /\ Forall (fun v => - (80) <= v) (y eq)
    /\ (Q_toFixed1 (8 / 2) == 8 / 2 -> nth 5 (y eq) 0 = - (80)).
Proof.
  assert (HL : 0 < primarySpan (scenario_beam 8 0 : Beam Q)) by reflexivity.
  assert (Hw : 0 <= (lit 10 : Q)) by discriminate.
  assert (Hfuel : (11 < 12)%nat) by lia.
  exact (proj1 (simplySupported_peak_exact (scenario_beam 8 0) HL Hw Hfuel)).
Defined.
End SimplySupportedExact.

(** ** The two spans with exact arithmetic *)

Section TwoSpanExact.
Import Exact twoSpanUnequal.
Local Open Scope Q_scope.

(** The evaluators respect equality of rationals: at a position equal to
    the first span they return the values over the interior support. *)
Lemma moment_over_support (x L1 L2 w : Q) :
  0 < L1 -> 0 < L2 -> x == L1 ->
  let s := calculateSupports L1 L2 w in
  calculateBendingMomentValue x L1 (L1 + L2)%js (R1 s) (R2 s) w == - M1 s.
Proof.
  intros H1 H2 Hx s. unfold calculateBendingMomentValue.
  assert (E0 : (x === lit 0)%js = false) by (apply Q_seqb_false_iff; cbn; lra).
  assert (ET : (x === L1 + L2)%js = false)
    by (apply Q_seqb_false_iff; cbn [add Q_JSNumber]; lra).
  assert (El : (x <? L1)%js = false) by (apply Q_ltb_false_iff; lra).
  assert (Eg : (L1 <? x)%js = false) by (apply Q_ltb_false_iff; lra).
  rewrite E0, ET, El, Eg. cbn [orb].
  unfold s, calculateSupports. cbn [M1 R1]. rewrite !Q_pow_2, !Q_pow_3.
  cbn [lit add sub mul div neg Q_JSNumber]. field. lra.
Qed.

Lemma shear_over_support (x L1 R1 R2 w : Q) :
  x == L1 -> calculateShearForceValue x L1 R1 R2 w == R2 - w * L1.
Proof.
  intros Hx. unfold calculateShearForceValue.
  assert (El : (x <? L1)%js = false) by (apply Q_ltb_false_iff; lra).
  assert (Ee : (x === L1)%js = true) by (apply Q_seqb_iff; exact Hx).
  rewrite El, Ee. cbn [sub mul Q_JSNumber]. rewrite Hx. reflexivity.
Qed.

Lemma deflection_at_supports (L1 L2 EI j2 R1 R2 R3 w x : Q) :
  0 < L1 -> ~ EI == 0 -> x == 0 \/ x == L1 ->
  calculateDeflectionValue x L1 L2 EI j2 R1 R2 R3 w == 0.
Proof.
  intros H1 HEI Hx. unfold calculateDeflectionValue.
  assert (Hle : (x <=? L1)%js = true)
    by (apply Q_leb_iff; destruct Hx as [-> | ->]; lra).
  rewrite Hle. rewrite !Q_pow_2, !Q_pow_3.
  cbn [lit add sub mul div neg Q_JSNumber].
  destruct Hx as [-> | ->]; field; exact HEI.
Qed.

(** With exact arithmetic and positive spans, the bending moment that the
    evaluator returns over the interior support is the opposite of the
    support moment [M1] of the reaction solver, which is
    [-w (L1^2 - L1 L2 + L2^2) / 8], negative for a positive load. *)
Theorem interior_support_moment_exact :
  forall (L1 L2 w : Q),
    0 < L1 -> 0 < L2 ->
    let s := calculateSupports L1 L2 w in
    calculateBendingMomentValue L1 L1 (L1 + L2)%js (R1 s) (R2 s) w == - M1 s
    /\ M1 s == - (w * (L1 * L1 - L1 * L2 + L2 * L2)) / 8
    /\ (0 < w -> M1 s < 0).
Proof.
  intros L1 L2 w H1 H2 s.
  assert (Hm : M1 s == - (w * (L1 * L1 - L1 * L2 + L2 * L2)) / 8).
  { unfold s, calculateSupports. cbn [M1]. rewrite !Q_pow_3.
    cbn [lit add sub mul div neg Q_JSNumber]. field. lra. }
  split; [|split; [exact Hm|]].
  - unfold calculateBendingMomentValue.
    assert (E0 : (L1 === lit 0)%js = false) by (apply Q_seqb_false_iff; cbn; lra).
    assert (ET : (L1 === L1 + L2)%js = false)
      by (apply Q_seqb_false_iff; cbn [add Q_JSNumber]; lra).
    assert (El : (L1 <? L1)%js = false) by (apply Q_ltb_false_iff; lra).
    rewrite E0, ET, El. cbn [orb].
    unfold s, calculateSupports. cbn [M1 R1]. rewrite !Q_pow_2, !Q_pow_3.
    cbn [lit add sub mul div neg Q_JSNumber]. field. lra.
  - intros Hw. rewrite Hm.
    assert (Hq : 0 < L1 * L1 - L1 * L2 + L2 * L2).
    { assert (E : L1 * L1 - L1 * L2 + L2 * L2
                  == (L1 - L2) * (L1 - L2) + L1 * L2) by ring.
      rewrite E.
      assert (Ha : 0 <= (L1 - L2) * (L1 - L2)).
      { destruct (Qlt_le_dec L1 L2).
        - assert (E' : (L1 - L2) * (L1 - L2) == (L2 - L1) * (L2 - L1)) by ring.
          rewrite E'. apply Qmult_le_0_compat; lra.
        - apply Qmult_le_0_compat; lra. }
      assert (Hb : 0 < L1 * L2) by (apply Qmult_lt_0_compat; assumption).
      lra. }
    assert (Hp : 0 < w * (L1 * L1 - L1 * L2 + L2 * L2))
      by (apply Qmult_lt_0_compat; assumption).
    set (t := w * (L1 * L1 - L1 * L2 + L2 * L2)) in *.
    assert (E : - t / 8 == - (t * (1 # 8))) by field.
    rewrite E. lra.
Qed.

Lemma interior_support_moment_exact_witness :
  calculateBendingMomentValue 4 4 10 (R1 (calculateSupports 4 6 10))
                              (R2 (calculateSupports 4 6 10)) 10
  == - M1 (calculateSupports 4 6 (10 : Q)).
Proof.
  assert (H1 : 0 < 4) by reflexivity.
  assert (H2 : 0 < 6) by reflexivity.
  exact (proj1 (@interior_support_moment_exact 4 6 10 H1 H2)).
Defined.

(** With exact arithmetic, a positive first span and [EI] not 0, the
    deflection evaluator returns 0 at the left support and at the interior
    support, whatever the reactions; so every sample of the two-span
    deflection equation that is recorded at position 0 or [L1] has the value
    0.  (The reaction solver divides by the spans, which are positive.) *)
Theorem deflection_zero_at_supports_exact :
  (forall (L1 L2 EI j2 R1 R2 R3 w : Q),
      0 < L1 -> ~ EI == 0 ->
      calculateDeflectionValue 0 L1 L2 EI j2 R1 R2 R3 w == 0
      /\ calculateDeflectionValue L1 L1 L2 EI j2 R1 R2 R3 w == 0)
  /\ (forall (beam : Beam Q) (load : Q) (fuel : nat) (eq : Equation Q) (j : nat),
         let L1 := primarySpan beam in
         let L2 := secondarySpan beam in
         let EI := EI (properties (material beam)) in
         0 < L1 -> 0 < L2 -> ~ EI == 0 ->
         getDeflectionEquation fuel beam load = Some eq ->
         (j < List.length (x eq))%nat ->
         nth j (x eq) 0 == 0 \/ nth j (x eq) 0 == L1 ->
         nth j (y eq) 0 = 0).
Proof.
  pose proof deflection_at_supports as Hval.
  split.
  - intros L1 L2 EI j2 R1 R2 R3 w H1 HEI.
    split; apply Hval; try assumption; [left | right]; reflexivity.
  - intros beam load fuel eq j L1 L2 EI H1 H2 HEI Hrun Hj Hx.
    subst L1 L2 EI.
    apply forLoop_sampled in Hrun. rewrite Hrun.
    rewrite (@nth_map_in _ _ _ _ j 0 0 Hj). cbv beta zeta.
    apply Q_toFixed1_0.
    match goal with |- (?v * _)%js == 0 =>
      assert (E : v == 0) by (apply Hval; assumption) end.
    cbn [mul Q_JSNumber]. rewrite E. ring.
Qed.

Lemma deflection_zero_at_supports_exact_witness :
  calculateDeflectionValue 4 4 6 210000000 1 (45 # 4) (775 # 12) (145 # 6) 10 == 0.
Proof.
  assert (H1 : 0 < 4) by reflexivity.
  assert (HEI : ~ 210000000 == 0) by discriminate.
  exact (proj2 (proj1 deflection_zero_at_supports_exact
                      4 6 210000000 1 (45 # 4) (775 # 12) (145 # 6) 10 H1 HEI)).
Defined.
(** With exact arithmetic, for two equal spans [L] the deflection evaluator
    returns [3 w L^4 j2 1000 / (8 EI)] at the far end [x = 2 L], where the
    beam is supported: a positive number for a positive load, [EI] and
    [j2], not 0. *)
Theorem deflection_far_end_equal_spans_exact :
  forall (L EI j2 w : Q),
    0 < L -> ~ EI == 0 ->
    let s := calculateSupports L L w in
    let far := calculateDeflectionValue (L + L)%js L L EI j2 (R1 s) (R2 s) (R3 s) w in
    far == 3 * w * (L * L * L * L) * j2 * 1000 / (8 * EI)
    /\ (0 < w -> 0 < j2 -> 0 < EI -> 0 < far).
Proof.
  intros L EI j2 w HL HEI s far.
  assert (E : far == 3 * w * (L * L * L * L) * j2 * 1000 / (8 * EI)).
  { unfold far, calculateDeflectionValue.
    assert (Hle : (L + L <=? L)%js = false)
      by (apply Q_leb_false_iff; cbn [add Q_JSNumber]; lra).
    rewrite Hle. unfold s, calculateSupports. cbn [R1 R2 R3].
    rewrite !Q_pow_2, !Q_pow_3. cbn [lit add sub mul div neg Q_JSNumber].
    field. repeat split; first [exact HEI | lra]. }
  split; [exact E|].
  intros Hw Hj HE. rewrite E.
  assert (H2 : 0 < L * L) by (apply Qmult_lt_0_compat; assumption).
  assert (H4 : 0 < L * L * L * L)
    by (repeat apply Qmult_lt_0_compat; assumption).
  assert (Hn : 0 < 3 * w * (L * L * L * L) * j2 * 1000)
    by (repeat apply Qmult_lt_0_compat; try assumption; reflexivity).
  apply Qlt_shift_div_l; [lra|]. lra.
Qed.

Lemma deflection_far_end_equal_spans_exact_witness :
  0 < calculateDeflectionValue
        (5 + 5)%js 5 5 210000000 1
        (R1 (calculateSupports 5 5 10)) (R2 (calculateSupports 5 5 10))
        (R3 (calculateSupports 5 5 (10 : Q))) 10.
Proof.
  assert (HL : 0 < 5) by reflexivity.
  assert (HEI : ~ 210000000 == 0) by discriminate.
  assert (Hw : 0 < 10) by reflexivity.
  assert (Hj : 0 < 1) by reflexivity.
  assert (HE : 0 < 210000000) by reflexivity.
  exact (proj2 (@deflection_far_end_equal_spans_exact 5 210000000 1 10 HL HEI)
               Hw Hj HE).
Defined.
End TwoSpanExact.

(** ** Which positions of the two spans are sampled, with exact arithmetic *)

Section TwoSpanSampling.
Import BeamAnalysis Exact twoSpanUnequal.
Local Open Scope Q_scope.

(** A number that is not negative and lies within a twentieth of [k / 10]
    (the lower end included) is rounded to [k / 10]. *)
Lemma Q_toFixed1_near (v : Q) (k : Z) :
  0 <= v -> v < 10 ^ 21 ->
  inject_Z k / 10 - (1 # 20) <= v -> v < inject_Z k / 10 + (1 # 20) ->
  Q_toFixed1 v == inject_Z k / 10.
Proof.
  intros H0 Hbig Hlo Hhi.
  rewrite (Q_toFixed1_small H0 Hbig).
  assert (Ek : tenths v = k).
  { destruct (tenths_bounds v) as [Hl Hh].
    assert (E : inject_Z k / 10 == inject_Z k * (1 # 10)) by (unfold Qdiv; reflexivity).
    rewrite E in Hlo, Hhi.
    assert (H1 : (tenths v < k + 1)%Z).
    { rewrite Zlt_Qlt, inject_Z_plus. change (inject_Z 1) with 1. lra. }
    assert (H2 : (k < tenths v + 1)%Z).
    { rewrite Zlt_Qlt, inject_Z_plus. change (inject_Z 1) with 1. lra. }
    lia. }
  rewrite Ek. reflexivity.
Qed.

(** The multiple of the step [T / 1000] nearest to a position [p] of the
    beam is within half a step of [p]. *)
Lemma Q_nearest_step (T p : Q) :
  0 < T -> 0 <= p -> p <= T ->
  exists j : nat,
    (j <= 1000)%nat
    /\ p - T / 2000 < inject_Z (Z.of_nat j) * T / 1000
    /\ inject_Z (Z.of_nat j) * T / 1000 <= p + T / 2000.
Proof.
  intros HT H0 Hp.
  set (q := 1000 * p / T).
  assert (HqT : q * T == 1000 * p) by (unfold q; field; lra).
  assert (Hq0 : 0 <= q).
  { unfold q. apply Qle_shift_div_l; [exact HT | lra]. }
  assert (Hq1 : q <= 1000).
  { unfold q. apply Qle_shift_div_r; [exact HT | lra]. }
  set (z := Qfloor (q + (1 # 2))).
  assert (Hz0 : (0 <= z)%Z).
  { change 0%Z with (Qfloor 0). apply Qfloor_resp_le. lra. }
  assert (Hz1 : (z <= 1000)%Z).
  { change 1000%Z with (Qfloor (1000 + (1 # 2))). apply Qfloor_resp_le. lra. }
  assert (Hlo : inject_Z z <= q + (1 # 2)) by apply Qfloor_le.
  assert (Hhi : q + (1 # 2) < inject_Z z + 1).
  { pose proof (Qlt_floor (q + (1 # 2))) as Hlt. fold z in Hlt.
    rewrite inject_Z_plus in Hlt. exact Hlt. }
  exists (Z.to_nat z). rewrite Z2Nat.id by exact Hz0.
  split; [lia|].
  assert (Hm1 : inject_Z z * T <= (q + (1 # 2)) * T)
    by (apply Qmult_le_compat_r; lra).
  assert (Hm2 : (q + (1 # 2)) * T < (inject_Z z + 1) * T)
    by (apply Qmult_lt_compat_r; assumption).
  assert (E1 : (q + (1 # 2)) * T == q * T + T * (1 # 2)) by ring.
  assert (E2 : (inject_Z z + 1) * T == inject_Z z * T + T) by ring.
  rewrite E1, HqT in Hm1, Hm2. rewrite E2 in Hm2.
  assert (E3 : inject_Z z * T / 1000 == inject_Z z * T * (1 # 1000)) by field.
  assert (E4 : T / 2000 == T * (1 # 2000)) by field.
  rewrite E3, E4. split; lra.
Qed.

(** With a total length below 100 the step is below a tenth, and every
    tenth of the beam is the position of some sample. *)
Lemma Q_forLoop_tenth (sample : Q -> Q) (T : Q) (fuel : nat) (k : Z) :
  0 < T -> T < 100 -> (1001 < fuel)%nat ->
  (0 <= k)%Z -> inject_Z k / 10 <= T ->
  exists eq j,
    forLoop fuel sample T (T / inject_Z 1000) 0 [] [] = Some eq
    /\ (j < List.length (x eq))%nat
    /\ nth j (x eq) 0 == inject_Z k / 10
    /\ nth j (y eq) 0 = sample (nth j (x eq) 0).
Proof.
  intros HT H100 Hfuel Hk Hp.
  assert (Hn : (S (Pos.to_nat 1000) < fuel)%nat)
    by (replace (Pos.to_nat 1000) with 1000%nat by (vm_compute; reflexivity); lia).
  destruct (Q_forLoop_sampled_every sample 1000 HT Hn) as (eq & Hrun & Hlen & Hnth).
  assert (Hp0 : 0 <= inject_Z k / 10).
  { apply Qle_shift_div_l; [reflexivity|].
    change (0 * 10) with (inject_Z 0). rewrite <- Zle_Qle. exact Hk. }
  destruct (Q_nearest_step HT Hp0 Hp) as (j & Hj & Hlo & Hhi).
  assert (E1000 : Pos.to_nat 1000 = 1000%nat) by (vm_compute; reflexivity).
  exists eq, j. split; [exact Hrun|].
  split; [rewrite Hlen, E1000; lia|].
  assert (Hy : y eq = map sample (x eq)) by (eapply forLoop_sampled; exact Hrun).
  split.
  - rewrite Hnth by (rewrite E1000; exact Hj).
    change (inject_Z (Zpos 1000)) with 1000.
    assert (E4 : T / 2000 == T * (1 # 2000)) by field.
    rewrite E4 in Hlo, Hhi.
    assert (Hv0 : 0 <= inject_Z (Z.of_nat j) * T / 1000).
    { apply Qle_shift_div_l; [reflexivity|].
      assert (Hz : 0 <= inject_Z (Z.of_nat j))
        by (change 0 with (inject_Z 0); rewrite <- Zle_Qle; lia).
      assert (Hm : 0 <= inject_Z (Z.of_nat j) * T)
        by (apply Qmult_le_0_compat; lra).
      lra. }
    set (v := inject_Z (Z.of_nat j) * T / 1000) in *.
    apply Q_toFixed1_near; [exact Hv0 | rewrite toFixed_limit; lra | lra | lra].
  - rewrite Hy. apply nth_map_in. rewrite Hlen, E1000. lia.
Qed.

(** With exact arithmetic and a total length below 100 (a step below a
    tenth), every tenth [k / 10] of the beam, from 0 to the total length, is
    the recorded position of some sample of each two-span equation. *)
Theorem tenths_sampled_exact :
  forall (beam : Beam Q) (load : Q) (fuel : nat) (k : Z),
    let T := primarySpan beam + secondarySpan beam in
    0 < T -> T < 100 -> (1001 < fuel)%nat ->
    (0 <= k)%Z -> inject_Z k / 10 <= T ->
    Forall (fun r => exists eq j,
                r = Some eq /\ (j < List.length (x eq))%nat
                /\ nth j (x eq) 0 == inject_Z k / 10)
           (equations new_twoSpanUnequal fuel beam load).
Proof.
  intros beam load fuel k T HT H100 Hfuel Hk Hp.
  unfold equations, new_twoSpanUnequal;
    cbn [BeamAnalysis.getDeflectionEquation BeamAnalysis.getBendingMomentEquation
         BeamAnalysis.getShearForceEquation];
    repeat (apply Forall_cons); try (apply Forall_nil);
    unfold twoSpanUnequal.getDeflectionEquation,
      twoSpanUnequal.getBendingMomentEquation,
      twoSpanUnequal.getShearForceEquation; cbv zeta;
    match goal with |- context [forLoop fuel ?s _ _ _ _ _] =>
      destruct (@Q_forLoop_tenth s T fuel k HT H100 Hfuel Hk Hp)
        as (eq & j & Hrun & Hj & Hx & _) end;
    exists eq, j; (split; [exact Hrun|]); split; assumption.
Qed.

Lemma tenths_sampled_exact_witness :
  Forall (fun r => exists eq j,
              r = Some eq /\ (j < List.length (x eq))%nat
              /\ nth j (x eq) 0 == inject_Z 73 / 10)
         (equations new_twoSpanUnequal 1002 (scenario_beam 4 6) (lit 10 : Q)).
Proof.
  assert (HT : 0 < primarySpan (scenario_beam 4 6 : Beam Q)
                   + secondarySpan (scenario_beam 4 6 : Beam Q)) by reflexivity.
  assert (H100 : primarySpan (scenario_beam 4 6 : Beam Q)
                 + secondarySpan (scenario_beam 4 6 : Beam Q) < 100) by reflexivity.
  assert (Hfuel : (1001 < 1002)%nat) by lia.
  assert (Hk : (0 <= 73)%Z) by lia.
  assert (Hp : inject_Z 73 / 10 <= primarySpan (scenario_beam 4 6 : Beam Q)
                                   + secondarySpan (scenario_beam 4 6 : Beam Q))
    by discriminate.
  exact (@tenths_sampled_exact (scenario_beam 4 6) 10 1002 73 HT H100 Hfuel Hk Hp).
Defined.

(** With exact arithmetic, positive spans of total length below 100 and a
    first span with one decimal, the interior support is among the samples
    of each two-span equation; the sample recorded there carries the
    opposite of the support moment [M1] rounded to one decimal in the
    bending-moment equation, [R2 - w L1] rounded in the shear-force equation,
    and 0 in the deflection equation. *)
Theorem interior_support_sampled_exact :
  forall (beam : Beam Q) (load : Q) (fuel : nat) (k : Z),
    let L1 := primarySpan beam in
    let L2 := secondarySpan beam in
    let EI := EI (properties (material beam)) in
    let s := calculateSupports L1 L2 load in
    0 < L1 -> 0 < L2 -> L1 + L2 < 100 -> L1 == inject_Z k / 10 ->
    (1001 < fuel)%nat ->
    (exists eq j,
        getBendingMomentEquation fuel beam load = Some eq
        /\ (j < List.length (x eq))%nat
        /\ nth j (x eq) 0 == L1
        /\ nth j (y eq) 0 = Q_toFixed1 (- M1 s))
    /\ (exists eq j,
           getShearForceEquation fuel beam load = Some eq
           /\ (j < List.length (x eq))%nat
           /\ nth j (x eq) 0 == L1
           /\ nth j (y eq) 0 = Q_toFixed1 (R2 s - load * L1))
    /\ (~ EI == 0 ->
        exists eq j,
          getDeflectionEquation fuel beam load = Some eq
          /\ (j < List.length (x eq))%nat
          /\ nth j (x eq) 0 == L1
          /\ nth j (y eq) 0 = 0).
Proof.
  intros beam load fuel k L1 L2 EI s H1 H2 H100 HL1 Hfuel.
  assert (HT : 0 < L1 + L2) by lra.
  assert (Hk : (0 <= k)%Z).
  { rewrite Zle_Qle. change (inject_Z 0) with 0.
    assert (E : inject_Z k / 10 == inject_Z k * (1 # 10)) by field.
    rewrite E in HL1. lra. }
  assert (Hp : inject_Z k / 10 <= L1 + L2) by (rewrite <- HL1; lra).
  split; [|split].
  - unfold getBendingMomentEquation. cbv zeta. fold L1 L2.
    match goal with |- context [forLoop fuel ?f _ _ _ _ _] =>
      destruct (@Q_forLoop_tenth f (L1 + L2) fuel k HT H100 Hfuel Hk Hp)
        as (eq & j & Hrun & Hj & Hx & Hy) end.
    rewrite <- HL1 in Hx.
    exists eq, j. repeat (split; [assumption|]).
    rewrite Hy. cbv beta zeta. apply Q_toFixed1_proper.
    apply moment_over_support; assumption.
  - unfold getShearForceEquation. cbv zeta. fold L1 L2.
    match goal with |- context [forLoop fuel ?f _ _ _ _ _] =>
      destruct (@Q_forLoop_tenth f (L1 + L2) fuel k HT H100 Hfuel Hk Hp)
        as (eq & j & Hrun & Hj & Hx & Hy) end.
    rewrite <- HL1 in Hx.
    exists eq, j. repeat (split; [assumption|]).
    rewrite Hy. cbv beta zeta. apply Q_toFixed1_proper.
    apply shear_over_support; assumption.
  - intros HEI. unfold getDeflectionEquation. cbv zeta. fold L1 L2 EI.
    match goal with |- context [forLoop fuel ?f _ _ _ _ _] =>
      destruct (@Q_forLoop_tenth f (L1 + L2) fuel k HT H100 Hfuel Hk Hp)
        as (eq & j & Hrun & Hj & Hx & Hy) end.
    rewrite <- HL1 in Hx.
    exists eq, j. repeat (split; [assumption|]).
    rewrite Hy. cbv beta zeta. apply Q_toFixed1_0.
    match goal with |- (?v * _)%js == 0 =>
      assert (E : v == 0) by (apply deflection_at_supports; auto) end.
    cbn [mul Q_JSNumber]. rewrite E. ring.
Qed.

Lemma interior_support_sampled_exact_witness :
  exists eq j,
    getBendingMomentEquation 1002 (scenario_beam 4 6) (lit 10 : Q) = Some eq
    /\ (j < List.length (x eq))%nat
    /\ nth j (x eq) 0 == 4
    /\ nth j (y eq) 0 = 35.
Proof.
  assert (H1 : 0 < primarySpan (scenario_beam 4 6 : Beam Q)) by reflexivity.
  assert (H2 : 0 < secondarySpan (scenario_beam 4 6 : Beam Q)) by reflexivity.
  assert (H100 : primarySpan (scenario_beam 4 6 : Beam Q)
                 + secondarySpan (scenario_beam 4 6 : Beam Q) < 100) by reflexivity.
  assert (HL1 : primarySpan (scenario_beam 4 6 : Beam Q) == inject_Z 40 / 10)
    by reflexivity.
  assert (Hfuel : (1001 < 1002)%nat) by lia.
  exact (proj1 (@interior_support_sampled_exact (scenario_beam 4 6) 10 1002 40
                                                H1 H2 H100 HL1 Hfuel)).
Defined.

(** With exact arithmetic, for positive spans whose total length [T] has
    one decimal, the last sample of each two-span equation is recorded at
    [T]; the bending moment recorded at the first and at the last sample is
    0, the shear force recorded there is [R1] and [R2 - w L2], each rounded
    to one decimal, and the deflection recorded at the first sample is 0. *)
Theorem twoSpanUnequal_ends_exact :
  forall (beam : Beam Q) (load : Q) (fuel : nat),
    let L1 := primarySpan beam in
    let L2 := secondarySpan beam in
    let T := L1 + L2 in
    let EI := EI (properties (material beam)) in
    let s := calculateSupports L1 L2 load in
    0 < L1 -> 0 < L2 -> Q_toFixed1 T == T -> (1001 < fuel)%nat ->
    (exists eq,
        getBendingMomentEquation fuel beam load = Some eq
        /\ last (x eq) 0 == T
        /\ hd 0 (y eq) = 0 /\ last (y eq) 0 = 0)
    /\ (exists eq,
           getShearForceEquation fuel beam load = Some eq
           /\ last (x eq) 0 == T
           /\ hd 0 (y eq) = Q_toFixed1 (R1 s)
           /\ last (y eq) 0 = Q_toFixed1 (R2 s - load * L2))
    /\ (~ EI == 0 ->
        exists eq,
          getDeflectionEquation fuel beam load = Some eq
          /\ last (x eq) 0 == T
          /\ hd 0 (y eq) = 0).
Proof.
  intros beam load fuel L1 L2 T EI s H1 H2 Hround Hfuel.
  assert (HT : 0 < T) by (unfold T; lra).
  assert (Hn : (S (Pos.to_nat 1000) < fuel)%nat)
    by (replace (Pos.to_nat 1000) with 1000%nat by (vm_compute; reflexivity); lia).
  split; [|split].
  - unfold getBendingMomentEquation. cbv zeta. fold L1 L2. fold T.
    match goal with |- context [forLoop fuel ?f _ _ _ _ _] =>
      destruct (Q_forLoop_range f 1000 HT Hn)
        as (eq & Hrun & Hne & Hy & _ & Hhd & Hlast & _) end.
    exists eq. split; [exact Hrun|].
    split; [rewrite Hlast; exact Hround|].
    rewrite Hy.
    rewrite (@hd_of_map _ _ _ _ 0 0 Hne), (@last_of_map _ _ _ _ 0 0 Hne), Hhd, Hlast.
    split; apply Q_toFixed1_0; unfold calculateBendingMomentValue.
    + reflexivity.
    + assert (E : (Q_toFixed1 T === (L1 + L2)%js)%js = true)
        by (apply Q_seqb_iff; exact Hround).
      rewrite E, orb_true_r. reflexivity.
  - unfold getShearForceEquation. cbv zeta. fold L1 L2. fold T.
    match goal with |- context [forLoop fuel ?f _ _ _ _ _] =>
      destruct (Q_forLoop_range f 1000 HT Hn)
        as (eq & Hrun & Hne & Hy & _ & Hhd & Hlast & _) end.
    exists eq. split; [exact Hrun|].
    split; [rewrite Hlast; exact Hround|].
    rewrite Hy.
    rewrite (@hd_of_map _ _ _ _ 0 0 Hne), (@last_of_map _ _ _ _ 0 0 Hne), Hhd, Hlast.
    split; apply Q_toFixed1_proper; unfold calculateShearForceValue.
    + assert (E : (0 <? L1)%js = true) by (apply Q_ltb_iff; exact H1).
      rewrite E. cbn [sub mul Q_JSNumber]. unfold s. ring.
    + assert (E : (Q_toFixed1 T <? L1)%js = false)
        by (apply Q_ltb_false_iff; rewrite Hround; unfold T; lra).
      assert (E' : (Q_toFixed1 T === L1)%js = false)
        by (apply Q_seqb_false_iff; rewrite Hround; unfold T; lra).
      rewrite E, E'. cbn [sub mul Q_JSNumber]. rewrite Hround. unfold T, s. ring.
  - intros HEI. unfold getDeflectionEquation. cbv zeta. fold L1 L2 EI. fold T.
    match goal with |- context [forLoop fuel ?f _ _ _ _ _] =>
      destruct (Q_forLoop_range f 1000 HT Hn)
        as (eq & Hrun & Hne & Hy & _ & Hhd & Hlast & _) end.
    exists eq. split; [exact Hrun|].
    split; [rewrite Hlast; exact Hround|].
    rewrite Hy. rewrite (@hd_of_map _ _ _ _ 0 0 Hne), Hhd.
    apply Q_toFixed1_0.
    match goal with |- (?v * _)%js == 0 =>
      assert (E : v == 0)
        by (apply deflection_at_supports; [exact H1 | exact HEI | left; reflexivity])
    end.
    cbn [mul Q_JSNumber]. rewrite E. ring.
Qed.

Lemma twoSpanUnequal_ends_exact_witness :
  exists eq,
    getBendingMomentEquation 1002 (scenario_beam 4 6) (lit 10 : Q) = Some eq
    /\ last (x eq) 0 == 10
    /\ hd 0 (y eq) = 0 /\ last (y eq) 0 = 0.
Proof.
  assert (H1 : 0 < primarySpan (scenario_beam 4 6 : Beam Q)) by reflexivity.
  assert (H2 : 0 < secondarySpan (scenario_beam 4 6 : Beam Q)) by reflexivity.
  assert (Hr : Q_toFixed1 (primarySpan (scenario_beam 4 6 : Beam Q)
                           + secondarySpan (scenario_beam 4 6 : Beam Q))
               == primarySpan (scenario_beam 4 6 : Beam Q)
                  + secondarySpan (scenario_beam 4 6 : Beam Q)) by reflexivity.
  assert (Hfuel : (1001 < 1002)%nat) by lia.
  exact (proj1 (@twoSpanUnequal_ends_exact (scenario_beam 4 6) 10 1002
                                           H1 H2 Hr Hfuel)).
Defined.
End TwoSpanSampling.

(** ** Exchanging the two spans *)

Section AdditionCommutes.
Local Open Scope Z_scope.

Lemma SFadd_comm (a b : spec_float) : SFadd prec emax a b = SFadd prec emax b a.
Proof.
  destruct a as [[]|[]| |[] m1 e1], b as [[]|[]| |[] m2 e2]; try reflexivity;
    cbn [SFadd]; rewrite (Z.min_comm e2 e1); f_equal; apply Z.add_comm.
Qed.
End AdditionCommutes.

Section TwoSpanSymmetry.
Import Exact Binary64 twoSpanUnequal.
Local Open Scope js_scope.

Lemma float_add_comm (a b : float) : a + b = b + a.
Proof.
  apply Prim2SF_inj.
  change (a + b) with (PrimFloat.add a b). change (b + a) with (PrimFloat.add b a).
  rewrite !add_spec. apply SFadd_comm.
Qed.

(** Exchanging the two spans exchanges the end reactions [R1] and [R3] and
    keeps [M1] and [R2]: with exact arithmetic for positive spans, and in
    binary64, for [M1], [R1] and [R3], for all numbers.  For two equal spans
    [L], with exact arithmetic, [M1 = -w L^2 / 8], [R1 = R3 = 3 w L / 8] and
    [R2 = 5 w L / 4]. *)
Theorem calculateSupports_exchange_spans :
  (forall (L1 L2 w : Q),
      (0 < L1)%Q -> (0 < L2)%Q ->
      let s := calculateSupports L1 L2 w in
      let s' := calculateSupports L2 L1 w in
      (M1 s' == M1 s /\ R1 s' == R3 s /\ R3 s' == R1 s /\ R2 s' == R2 s)%Q)
  /\ (forall (L w : Q),
         (0 < L)%Q ->
         let s := calculateSupports L L w in
         (M1 s == - (w * L * L) / 8 /\ R1 s == 3 * w * L / 8
          /\ R3 s == 3 * w * L / 8 /\ R2 s == 5 * w * L / 4)%Q)
  /\ (forall (L1 L2 w : float),
         let s := calculateSupports L1 L2 w in
         let s' := calculateSupports L2 L1 w in
         M1 s' = M1 s /\ R1 s' = R3 s /\ R3 s' = R1 s).
Proof.
  split; [|split].
  - intros L1 L2 w H1 H2 s s'. unfold s, s', calculateSupports. cbn [M1 R1 R2 R3].
    rewrite !Q_pow_3. cbn [lit add sub mul div neg Q_JSNumber].
    repeat split; field; lra.
  - intros L w HL s. unfold s, calculateSupports. cbn [M1 R1 R2 R3].
    rewrite !Q_pow_3. cbn [lit add sub mul div neg Q_JSNumber].
    repeat split; field; lra.
  - intros L1 L2 w s s'.
    assert (E : M1 s' = M1 s).
    { unfold s, s', calculateSupports. cbn [M1].
      rewrite (float_add_comm (w * L1 ^ 3) (w * L2 ^ 3)), (float_add_comm L2 L1).
      reflexivity. }
    split; [exact E|].
    unfold s, s', calculateSupports in *. cbn [M1 R1 R3] in *.
    split; rewrite E; reflexivity.
Qed.

Lemma calculateSupports_exchange_spans_witness :
  (R1 (calculateSupports 6 4 (10 : Q)) == R3 (calculateSupports 4 6 (10 : Q)))%Q.
Proof.
  assert (H1 : (0 < 4)%Q) by reflexivity.
  assert (H2 : (0 < 6)%Q) by reflexivity.
  exact (proj1 (proj2 (proj1 calculateSupports_exchange_spans 4 6 10 H1 H2)%Q)).
Defined.
End TwoSpanSymmetry.

(** ** The plotter *)

Section PlotterFacts.
Import BeamAnalysis AnalysisPlotter Binary64.

Ltac answer browser :=
  match goal with
  | |- context [browser ?B ?c ?w] =>
      let a := fresh "a" in
      let w' := fresh "w" in
      destruct (browser B c w) as [a w'] eqn:?
  end.

(** For a container other than the three plot ids, in every environment,
    [plot] returns after the log entry and [destroyChart]: a chart found
    under the container id is destroyed, the document is not consulted and
    no chart is created. *)
Theorem plot_unknown_container :
  forall (num : Type) (N : JSNumber num) (ChartInstance Element Context2D World : Type)
         (browser : forall B : Type,
             Call num ChartInstance Element Context2D B -> World -> B * World)
         (w : World) (this : Plotter) (data : Result num),
    container this <> "deflection_plot"%string ->
    container this <> "shear_force_plot"%string ->
    container this <> "bending_moment_plot"%string ->
    exists found w',
      run browser (plot this data) w = (Return tt, w', opening this data found).
Proof.
  intros num N CI E C W browser w this data H1 H2 H3.
  apply String.eqb_neq in H1, H2, H3.
  unfold plot, destroyChart, opening. rewrite H1, H2, H3.
  cbn [bind perform run].
  answer browser. destruct a. answer browser.
  destruct a as [c|]; cbn [bind perform run].
  - answer browser. destruct a. exists (Some c). eexists. reflexivity.
  - exists None. eexists. reflexivity.
Qed.

Lemma plot_unknown_container_witness :
  exists found w',
    run page_browser (plot {| container := "plot" |} (scenario_result (num := float)))
        scenario_page
    = (Return tt, w', opening {| container := "plot" |} scenario_result found).
Proof.
  apply plot_unknown_container; discriminate.
Defined.

(** In every environment [plot] first logs, asks Chart.js for the chart of
    the container and destroys it if there is one; it destroys nothing
    else.  Then, for an unknown container, it returns.  For one of the
    three plot ids it looks up the container and then the condition field,
    and either returns, having created one chart with its last call, or
    throws a TypeError (an element is missing, or is no canvas), having
    created none. *)
Theorem plot_protocol :
  forall (num : Type) (N : JSNumber num) (ChartInstance Element Context2D World : Type)
         (browser : forall B : Type,
             Call num ChartInstance Element Context2D B -> World -> B * World)
         (w : World) (this : Plotter) (data : Result num),
    let known :=
      container this = "deflection_plot"%string
      \/ container this = "shear_force_plot"%string
      \/ container this = "bending_moment_plot"%string in
    exists found w' r rest,
      run browser (plot this data) w = (r, w', (opening this data found ++ rest)%list)
      /\ Forall (fun e => destroyed e = None) rest
      /\ (r = Return tt /\ ~ known /\ rest = []
          \/ r = Return tt /\ known
             /\ lookups rest = [container this; "condition"%string]
             /\ (exists ctx config before,
                    rest = (before ++ [Called (new_Chart ctx config) tt])%list
                    /\ charts_created before = [])
          \/ r = Throw TypeError /\ known
             /\ charts_created rest = []
             /\ (lookups rest = [container this]
                 \/ lookups rest = [container this; "condition"%string])).
Proof.
  intros num N CI E C W browser w [container] data known. subst known.
  cbn [AnalysisPlotter.container].
  unfold plot, destroyChart, drawChart, opening. cbn [AnalysisPlotter.container].
  cbn [bind perform run].
  answer browser. destruct a. answer browser.
  destruct a as [c|]; cbn [bind perform run]; [answer browser; destruct a|];
    [exists (Some c) | exists None];
    (destruct (String.eqb_spec container "deflection_plot") as [->|Hd];
     [|destruct (String.eqb_spec container "shear_force_plot") as [->|Hs];
       [|destruct (String.eqb_spec container "bending_moment_plot") as [->|Hb]]]);
    cbn [bind perform run];
    try (answer browser; destruct a as [canvas|]; cbn [bind perform run];
         [answer browser; destruct a as [ctx|]; cbn [bind perform run];
          [answer browser; destruct a as [select|]; cbn [bind perform run];
           [answer browser; answer browser; destruct a0|]|]|]);
    eexists; eexists; eexists;
    (split; [cbn [app]; reflexivity|]);
    (split; [repeat constructor|]);
    try (left; split; [reflexivity|]; split; [intros [?|[?|?]]; congruence | reflexivity]);
    try (right; left; split; [reflexivity|]; split; [tauto|]; split; [reflexivity|];
         match goal with
         | |- exists ctx config before,
             [?e1; ?e2; ?e3; ?e4; Called (new_Chart ?c ?cfg) tt] = _ /\ _ =>
             exists c, cfg, [e1; e2; e3; e4]
         end; split; reflexivity);
    try (right; right; split; [reflexivity|]; split; [tauto|]; split; [reflexivity|];
         first [left; reflexivity | right; reflexivity]).
Qed.

(** In every environment, a chart that [plot] creates is a line chart whose
    labels are the positions and whose one dataset holds the values of the
    equation it was given.  The shear force plot has a transparent line, the
    default interpolation and a segment colour that is transparent next to a
    skipped point, red where the value drops and undefined elsewhere; the
    other two have a red line and monotone interpolation.  The background is
    transparent for the deflection plot when the condition field reads
    two-span-unequal, and undefined otherwise. *)
Theorem plot_chart_contents :
  forall (num : Type) (N : JSNumber num) (ChartInstance Element Context2D World : Type)
         (browser : forall B : Type,
             Call num ChartInstance Element Context2D B -> World -> B * World)
         (w w' : World) (this : Plotter) (result : Result num)
         (r : Completion unit) (events : list (Event num ChartInstance Element Context2D))
         (ctx : Context2D) (config : Configuration num),
    run browser (plot this result) w = (r, w', events) ->
    In (ctx, config) (charts_created events) ->
    exists dataset condition,
      values_read events = [condition]
      /\ type config = "line"%string
      /\ labels (chart_data config) = x (equation result)
      /\ datasets (chart_data config) = [dataset]
      /\ data dataset = y (equation result)
      /\ text (title (scales_x (options config))) = "Span (m)"%string
      /\ (container this = "deflection_plot"%string
          /\ text (title (scales_y (options config))) = "Deflection (kN)"%string
          /\ borderColor dataset = "red"%string
          /\ cubicInterpolationMode dataset = Some "monotone"%string
          /\ segment dataset = None
          /\ backgroundColor dataset
             = match condition with
               | Some c => if String.eqb c "two-span-unequal"
                           then Some "rgba(0, 0, 0, 0)"%string else None
               | None => None
               end
          \/ container this = "shear_force_plot"%string
             /\ text (title (scales_y (options config))) = "Shear Force (kN)"%string
             /\ borderColor dataset = "rgba(0, 0, 0, 0)"%string
             /\ cubicInterpolationMode dataset = Some "default"%string
             /\ backgroundColor dataset = None
             /\ (exists s,
                    segment dataset = Some s
                    /\ forall p,
                        segment_borderColor s p
                        = if skip (p0 p) || skip (p1 p)
                          then Some "rgba(0, 0, 0, 0)"%string
                          else if ltb (parsed_y (p1 p)) (parsed_y (p0 p))
                               then Some "red"%string else None)
          \/ container this = "bending_moment_plot"%string
             /\ text (title (scales_y (options config))) = "Bending Moment (kNm)"%string
             /\ borderColor dataset = "red"%string
             /\ cubicInterpolationMode dataset = Some "monotone"%string
             /\ segment dataset = None
             /\ backgroundColor dataset = None).
Proof.
  intros num N CI E C W browser w w' [container] result r events ctx0 config.
  cbn [AnalysisPlotter.container].
  unfold plot, destroyChart, drawChart. cbn [AnalysisPlotter.container].
  cbn [bind perform run].
  answer browser. destruct a. answer browser.
  destruct a as [c|]; cbn [bind perform run]; [answer browser; destruct a|];
    (destruct (String.eqb_spec container "deflection_plot") as [->|Hd];
     [|destruct (String.eqb_spec container "shear_force_plot") as [->|Hs];
       [|destruct (String.eqb_spec container "bending_moment_plot") as [->|Hb]]]);
    cbn [bind perform run];
    try (answer browser; destruct a as [canvas|]; cbn [bind perform run];
         [answer browser; destruct a as [ctx|]; cbn [bind perform run];
          [answer browser; destruct a as [select|]; cbn [bind perform run];
           [answer browser; answer browser; destruct a0|]|]|]);
    intros Hrun Hin; injection Hrun as <- <- <-;
    cbn in Hin; try contradiction;
    destruct Hin as [Hin|[]]; injection Hin as <- <-;
    eexists; exists a;
    (split; [reflexivity|]); cbn;
    repeat (split; [reflexivity|]).
  - left. repeat (split; [reflexivity|]). destruct a as [s|]; reflexivity.
  - right; left. repeat (split; [reflexivity|]). eexists. split; [reflexivity|].
    intros p. cbn. unfold skipped, down.
    destruct (skip (p0 p) || skip (p1 p)); cbn; [reflexivity|].
    destruct (ltb (parsed_y (p1 p)) (parsed_y (p0 p))); reflexivity.
  - right; right. repeat split; reflexivity.
  - left. repeat (split; [reflexivity|]). destruct a as [s|]; reflexivity.
  - right; left. repeat (split; [reflexivity|]). eexists. split; [reflexivity|].
    intros p. cbn. unfold skipped, down.
    destruct (skip (p0 p) || skip (p1 p)); cbn; [reflexivity|].
    destruct (ltb (parsed_y (p1 p)) (parsed_y (p0 p))); reflexivity.
  - right; right. repeat split; reflexivity.
Qed.

Lemma plot_chart_contents_witness :
  exists ctx config,
    In (ctx, config)
       (charts_created
          (snd (run page_browser
                    (plot {| container := "shear_force_plot" |}
                          (scenario_result (num := float)))
                    scenario_page)))
    /\ labels (chart_data config) = [lit 0; lit 4; lit 8]
    /\ exists dataset,
        datasets (chart_data config) = [dataset]
        /\ data dataset = [lit 40; lit 0; lit (-40)].
Proof.
  destruct (run page_browser
                (plot {| container := "shear_force_plot" |}
                      (scenario_result (num := float)))
                scenario_page) as [[r w'] events] eqn:Hrun.
  assert (Hin : exists ctx config, In (ctx, config) (charts_created events)).
  { vm_compute in Hrun. injection Hrun as <- <- <-.
    eexists. eexists. left. reflexivity. }
  destruct Hin as (ctx & config & Hin).
  exists ctx, config. split; [exact Hin|].
  destruct (@plot_chart_contents _ _ _ _ _ _ _ _ _ _ _ _ _ _ _ Hrun Hin)
    as (dataset & condition & _ & _ & Hlabels & Hsets & Hdata & _).
  split; [exact Hlabels|]. exists dataset. split; [exact Hsets | exact Hdata].
Defined.

(** A chart that [plot] creates shows the equation it was given. *)
Lemma plot_created_chart
      (num : Type) (N : JSNumber num) (ChartInstance Element Context2D World : Type)
      (browser : forall B : Type,
          Call num ChartInstance Element Context2D B -> World -> B * World)
      (w w' : World) (this : Plotter) (result : Result num)
      (r : Completion unit) (events : list (Event num ChartInstance Element Context2D))
      (ctx : Context2D) (config : Configuration num) :
  run browser (plot this result) w = (r, w', events) ->
  In (ctx, config) (charts_created events) ->
  exists dataset,
    labels (chart_data config) = x (equation result)
    /\ datasets (chart_data config) = [dataset]
    /\ data dataset = y (equation result).
Proof.
  destruct this as [container].
  unfold plot, destroyChart, drawChart. cbn [AnalysisPlotter.container].
  cbn [bind perform run].
  answer browser. destruct a. answer browser.
  destruct a as [c|]; cbn [bind perform run]; [answer browser; destruct a|];
    (destruct (String.eqb container "deflection_plot");
     [|destruct (String.eqb container "shear_force_plot");
       [|destruct (String.eqb container "bending_moment_plot")]]);
    cbn [bind perform run];
    try (answer browser; destruct a as [canvas|]; cbn [bind perform run];
         [answer browser; destruct a as [ctx'|]; cbn [bind perform run];
          [answer browser; destruct a as [select|]; cbn [bind perform run];
           [answer browser; answer browser; destruct a0|]|]|]);
    intros Hrun Hin; injection Hrun as <- <- <-;
    cbn in Hin; try contradiction;
    destruct Hin as [Hin|[]]; injection Hin as <- <-;
    eexists; repeat split.
Qed.

(** An operation of the facade that returns has got its equation from one
    of the two analyzers. *)
Lemma dispatch_Return
      (num : Type) (N : JSNumber num)
      (method : Analyzer -> nat -> Beam num -> num -> option (Equation num))
      (fuel : nat) (b : Beam num) (w : num) (condition : string)
      (result : Result num) :
  dispatch method fuel b w condition = Return result ->
  exists a,
    (a = new_simplySupported \/ a = new_twoSpanUnequal)
    /\ method a fuel b w = Some (equation result)
    /\ beam result = b /\ load result = w.
Proof.
  unfold dispatch.
  destruct (get_analyzer_cases (num := num) condition)
    as [[-> E] | [[-> E] | [(N1 & N2 & I & E) | (N1 & N2 & I & E)]]];
    rewrite E; cbn [truthy call]; try discriminate.
  - destruct (method new_simplySupported fuel b w) as [e|] eqn:Hm;
      try discriminate.
    intros Hr. injection Hr as <-. exists new_simplySupported.
    repeat split; auto.
  - destruct (method new_twoSpanUnequal fuel b w) as [e|] eqn:Hm;
      try discriminate.
    intros Hr. injection Hr as <-. exists new_twoSpanUnequal.
    repeat split; auto.
Qed.

(** The facade and the plotter together, in every number system and every
    environment: when an operation of the facade has returned a result and
    [plot] is called with it, a chart that [plot] creates has one dataset
    with as many values as the chart has labels, and every label is a number
    rounded to one decimal. *)
Theorem facade_result_plotted :
  forall (num : Type) (N : JSNumber num) (ChartInstance Element Context2D World : Type)
         (browser : forall B : Type,
             Call num ChartInstance Element Context2D B -> World -> B * World)
         (w w' : World) (this : Plotter)
         (fuel : nat) (beam : Beam num) (load : num) (condition : string)
         (result : Result num)
         (r : Completion unit) (events : list (Event num ChartInstance Element Context2D))
         (ctx : Context2D) (config : Configuration num),
    getDeflection fuel beam load condition = Return result
    \/ getBendingMoment fuel beam load condition = Return result
    \/ getShearForce fuel beam load condition = Return result ->
    run browser (plot this result) w = (r, w', events) ->
    In (ctx, config) (charts_created events) ->
    exists dataset,
      datasets (chart_data config) = [dataset]
      /\ List.length (labels (chart_data config)) = List.length (data dataset)
      /\ Forall (fun p => exists i, p = toFixed1 i) (labels (chart_data config)).
Proof.
  intros num N CI E C W browser w w' this fuel beam load condition result
         r events ctx config Hfacade Hrun Hin.
  destruct (@plot_created_chart _ _ _ _ _ _ _ _ _ _ _ _ _ _ _ Hrun Hin)
    as (dataset & Hl & Hd & Hy).
  exists dataset. split; [exact Hd|]. rewrite Hl, Hy.
  assert (Heq : exists fuel' sample limit step,
             forLoop fuel' sample limit step (lit 0) [] [] = Some (equation result)).
  { destruct Hfacade as [Hf | [Hf | Hf]];
      apply dispatch_Return in Hf;
      destruct Hf as (a & [-> | ->] & Hm & _);
      cbn [getDeflectionEquation getBendingMomentEquation getShearForceEquation
           new_simplySupported new_twoSpanUnequal] in Hm;
      eexists; eexists; eexists; eexists; exact Hm. }
  destruct Heq as (fuel' & sample & limit & step & Hloop).
  split.
  - rewrite (@forLoop_sampled _ _ _ _ _ _ _ _ Hloop), length_map. reflexivity.
  - eapply forLoop_rounded. exact Hloop.
Qed.

Lemma facade_result_plotted_witness :
  exists result ctx config dataset,
    getShearForce 12 (scenario_beam 8 0) (lit 10 : float) "simply-supported"
    = Return result
    /\ In (ctx, config)
          (charts_created
             (snd (run page_browser (plot {| container := "shear_force_plot" |} result)
                       scenario_page)))
    /\ datasets (chart_data config) = [dataset]
    /\ List.length (labels (chart_data config)) = List.length (data dataset).
Proof.
  destruct (getShearForce 12 (scenario_beam 8 0) (lit 10 : float) "simply-supported")
    as [result| |] eqn:Hf; try (vm_compute in Hf; discriminate).
  destruct (run page_browser (plot {| container := "shear_force_plot" |} result)
                scenario_page) as [[r w'] events] eqn:Hrun.
  assert (Hin : exists ctx config, In (ctx, config) (charts_created events)).
  { cbn in Hrun. injection Hrun as <- <- <-.
    eexists. eexists. left. reflexivity. }
  destruct Hin as (ctx & config & Hin).
  destruct (@facade_result_plotted _ _ _ _ _ _ _ _ _ _ _ _ _ _ _ _ _ _ _
                                   (or_intror (or_intror Hf)) Hrun Hin)
    as (dataset & Hd & Hlen & _).
  exists result, ctx, config, dataset.
  split; [reflexivity|]. split; [rewrite Hrun; exact Hin|]. split; assumption.
Defined.
End PlotterFacts.
